(** * BLE multi-advertising manager (stack/btm/btm_ble_multi_adv.cc)

    A shallow embedding of [BleAdvertisingManagerImpl]: the instance table,
    the callbacks the manager binds (defunctionalised, one constructor per
    [Bind] site), the HCI command queue, the alarms, and the dispatch of
    API calls, HCI completions, alarm expiries and controller events.
    Everything the manager does to the outside world is appended to one
    chronological trace, so that orderings can be stated. *)

From Stdlib Require Import ZArith List Lia Bool.
From stdpp Require Import base list.
Import ListNotations.
Open Scope Z_scope.

(** ** Integers, addresses, payloads *)

(** [uint8_t] conversion of an [int]. *)
Definition uint8 (x : Z) : Z := x mod 256.

(** An [int] as the compiled code has it: 32 bits, two's complement.  A
    product of two [int]s that leaves this range is undefined in C++; the
    compiled code keeps the low 32 bits. *)
Definition int32 (x : Z) : Z := (x + 2 ^ 31) mod 2 ^ 32 - 2 ^ 31.

(** Conversion to [period_ms_t] ([uint64_t]). *)
Definition period_ms_t (x : Z) : Z := x mod 2 ^ 64.

Arguments int32 : simpl never.
Arguments period_ms_t : simpl never.

Definition BD_ADDR := list Z.
Definition BD_ADDR_LEN : nat := 6.

(** Element [i] of a fixed-size C array ([uint8_t rand[8]], [param_buf]). *)
Definition at8 (a : list Z) (i : nat) : Z := nth i a 0.

Definition ADV_DATA_LEN_MAX : Z := 251.

(** Fragment tags of [DivideAndSendDataRecursively]. *)
Definition INTERMEDIATE : Z := 0x00.
Definition FIRST : Z := 0x01.
Definition LAST : Z := 0x02.
Definition COMPLETE : Z := 0x03.

(** Modelled from the spec: the EIR type codes and flag values of the
    headers that are not part of the sources (section 6.3). *)
Definition HCI_EIR_FLAGS_TYPE : Z := 0x01.
Definition HCI_EIR_TX_POWER_LEVEL_TYPE : Z := 0x0A.
Definition BTM_GENERAL_DISCOVERABLE : Z := 0x02.
Definition BTM_LIMITED_DISCOVERABLE : Z := 0x01.

(** Modelled from the spec: the resolvable-address mask of the missing
    header; section 4.3 clears bit 7 and sets bit 6 of the prand byte. *)
Definition BLE_RESOLVE_ADDR_MASK : Z := 0xC0.
Definition BLE_RESOLVE_ADDR_MSB : Z := 0x40.

Definition BTM_BLE_MULTI_ADV_SUCCESS : Z := 0.

(** ** What the manager consumes from the rest of the stack

    Build switches, status codes whose values the sources do not show,
    the controller address, the identity root and the encryption
    function. *)
Record platform := {
  BLE_PRIVACY_SPT : bool;
  BTM_BleLocalPrivacyEnabled : bool;
  BTM_BLE_MULTI_ADV_FAILURE : Z;
  ADVERTISE_FAILED_TOO_MANY_ADVERTISERS : Z;
  BLE_ADDR_PUBLIC : Z;
  BLE_ADDR_RANDOM : Z;
  BTM_BLE_MULTI_ADV_MAX : Z;
  BTM_BLE_PRIVATE_ADDR_INT_MS : Z;
  controller_address : BD_ADDR;
  BTM_GetDeviceIDRoot : list Z;
  (* SMP_Encrypt key plain_text: [None] when the call returns false *)
  SMP_Encrypt : list Z -> list Z -> option (list Z)
}.

Record tBTM_BLE_ADV_PARAMS := {
  params_advertising_event_properties : Z;
  adv_int_min : Z;
  adv_int_max : Z;
  channel_map : Z;
  adv_filter_policy : Z;
  params_tx_power : Z;
  primary_advertising_phy : Z;
  secondary_advertising_phy : Z;
  scan_request_notification_enable : Z
}.

Record tBLE_PERIODIC_ADV_PARAMS := {
  enable : bool;
  min_interval : Z;
  max_interval : Z;
  periodic_advertising_properties : Z
}.

(** An [alarm_t*]: the index of the alarm in the alarm store. *)
Definition alarm_ptr := nat.

(** [struct AdvertisingInstance]; the fields are [Inst.inst_id],
    [Inst.in_use], ... *)
Module Inst.

Record t := {
  inst_id : Z;
  in_use : bool;
  advertising_event_properties : Z;
  adv_raddr_timer : alarm_ptr;
  tx_power : Z;
  timeout_s : Z;
  timeout_timer : option alarm_ptr;
  own_address_type : Z;
  own_address : BD_ADDR
}.

Definition set_in_use (b : bool) (a : t) :=
  {| inst_id := inst_id a; in_use := b;
     advertising_event_properties := advertising_event_properties a;
     adv_raddr_timer := adv_raddr_timer a; tx_power := tx_power a;
     timeout_s := timeout_s a; timeout_timer := timeout_timer a;
     own_address_type := own_address_type a; own_address := own_address a |}.

Definition set_advertising_event_properties (v : Z) (a : t) :=
  {| inst_id := inst_id a; in_use := in_use a;
     advertising_event_properties := v;
     adv_raddr_timer := adv_raddr_timer a; tx_power := tx_power a;
     timeout_s := timeout_s a; timeout_timer := timeout_timer a;
     own_address_type := own_address_type a; own_address := own_address a |}.

Definition set_tx_power (v : Z) (a : t) :=
  {| inst_id := inst_id a; in_use := in_use a;
     advertising_event_properties := advertising_event_properties a;
     adv_raddr_timer := adv_raddr_timer a; tx_power := v;
     timeout_s := timeout_s a; timeout_timer := timeout_timer a;
     own_address_type := own_address_type a; own_address := own_address a |}.

Definition set_timeout_s (v : Z) (a : t) :=
  {| inst_id := inst_id a; in_use := in_use a;
     advertising_event_properties := advertising_event_properties a;
     adv_raddr_timer := adv_raddr_timer a; tx_power := tx_power a;
     timeout_s := v; timeout_timer := timeout_timer a;
     own_address_type := own_address_type a; own_address := own_address a |}.

Definition set_timeout_timer (v : option alarm_ptr) (a : t) :=
  {| inst_id := inst_id a; in_use := in_use a;
     advertising_event_properties := advertising_event_properties a;
     adv_raddr_timer := adv_raddr_timer a; tx_power := tx_power a;
     timeout_s := timeout_s a; timeout_timer := v;
     own_address_type := own_address_type a; own_address := own_address a |}.

Definition set_own_address_type (v : Z) (a : t) :=
  {| inst_id := inst_id a; in_use := in_use a;
     advertising_event_properties := advertising_event_properties a;
     adv_raddr_timer := adv_raddr_timer a; tx_power := tx_power a;
     timeout_s := timeout_s a; timeout_timer := timeout_timer a;
     own_address_type := v; own_address := own_address a |}.

Definition set_own_address (v : BD_ADDR) (a : t) :=
  {| inst_id := inst_id a; in_use := in_use a;
     advertising_event_properties := advertising_event_properties a;
     adv_raddr_timer := adv_raddr_timer a; tx_power := tx_power a;
     timeout_s := timeout_s a; timeout_timer := timeout_timer a;
     own_address_type := own_address_type a; own_address := v |}.

(** [own_address[i] = v]. *)
Definition set_own_address_at (i : nat) (v : Z) (a : t) :=
  set_own_address (<[i := v]> (own_address a)) a.

End Inst.

Abbreviation AdvertisingInstance := Inst.t.

Definition is_legacy_connectable (advertising_event_properties : Z) : bool :=
  if negb (Z.land advertising_event_properties 0x10 =? 0) &&
     negb (Z.land advertising_event_properties 0x01 =? 0)
  then true else false.

(** ** Callbacks

    Callbacks handed in by the callers of the API are opaque: each is a tag,
    and running it records the call in the trace.  Callbacks the manager
    binds itself are one constructor per [Bind] site, holding what the
    source binds. *)

Inductive IdTxPowerStatusCb :=
| UserIdTxPowerStatusCb (u : nat).

(** [RegisterCb] as the callers of [StartAdvertisingSet] supply it. *)
Inductive RegisterCb :=
| UserRegisterCb (u : nat)
| DoNothing2.

(** The file-level [CreatorParams] ([self] is the one manager). *)
Record CreatorParams := {
  c_inst_id : Z;
  c_cb : IdTxPowerStatusCb;
  c_params : tBTM_BLE_ADV_PARAMS;
  c_advertise_data : list Z;
  c_scan_response_data : list Z;
  c_periodic_params : tBLE_PERIODIC_ADV_PARAMS;
  c_periodic_data : list Z;
  c_timeout_s : Z;
  c_timeout_cb : RegisterCb
}.

Definition set_c_inst_id (v : Z) (c : CreatorParams) :=
  {| c_inst_id := v; c_cb := c_cb c; c_params := c_params c;
     c_advertise_data := c_advertise_data c;
     c_scan_response_data := c_scan_response_data c;
     c_periodic_params := c_periodic_params c;
     c_periodic_data := c_periodic_data c;
     c_timeout_s := c_timeout_s c; c_timeout_cb := c_timeout_cb c |}.

(** The callback argument of [RegisterAdvertiser]: a caller's callback or
    the first lambda of [StartAdvertisingSet]. *)
Inductive RegisterAdvertiserCb :=
| CallerRegisterCb (cb : RegisterCb)
| StartAdvertisingSet_OnRegister (c : CreatorParams).

(** The [CreatorParams] local to [StartAdvertising]. *)
Record StartAdvertising_CreatorParams (MultiAdvCb : Type) := {
  sa_inst_id : Z;
  sa_cb : MultiAdvCb;
  sa_params : tBTM_BLE_ADV_PARAMS;
  sa_advertise_data : list Z;
  sa_scan_response_data : list Z;
  sa_timeout_s : Z;
  sa_timeout_cb : MultiAdvCb
}.
Arguments sa_inst_id {_} _.
Arguments sa_cb {_} _.
Arguments sa_params {_} _.
Arguments sa_advertise_data {_} _.
Arguments sa_scan_response_data {_} _.
Arguments sa_timeout_s {_} _.
Arguments sa_timeout_cb {_} _.

Inductive DataSender :=
| Bind_SetDataAdvDataSender (is_scan_rsp : bool)
| Bind_SetPeriodicAdvertisingData.

#[warnings="-register-all"]
Inductive MultiAdvCb :=
| DoNothing
| UserMultiAdvCb (u : nat)
  (* Bind(std::move(timeout_cb), inst_id) in StartAdvertisingSetFinish *)
| Bind_timeout_cb (timeout_cb : RegisterCb) (inst_id : Z)
| Bind_EnableWithTimerCb (inst_id : Z) (enable_cb : MultiAdvCb)
    (timeout_s : Z) (timeout_cb : MultiAdvCb)
| Bind_DivideAndSendDataRecursively (isFirst : bool) (inst_id : Z)
    (data : list Z) (offset : Z) (done_cb : MultiAdvCb) (sender : DataSender)
  (* the lambdas of StartAdvertising, outermost first *)
| StartAdvertising_OnRandomAddress (c : StartAdvertising_CreatorParams MultiAdvCb)
| StartAdvertising_OnAdvertiseData (c : StartAdvertising_CreatorParams MultiAdvCb)
| StartAdvertising_OnScanResponseData (c : StartAdvertising_CreatorParams MultiAdvCb)
  (* the lambdas of StartAdvertisingSet, ...PeriodicPart and ...Finish *)
| StartAdvertisingSet_OnRandomAddress (c : CreatorParams)
| StartAdvertisingSet_OnAdvertiseData (c : CreatorParams)
| StartAdvertisingSet_OnScanResponseData (c : CreatorParams)
| StartAdvertisingSet_OnPeriodicParameters (c : CreatorParams)
| StartAdvertisingSet_OnPeriodicData (c : CreatorParams)
| StartAdvertisingSet_OnPeriodicEnable (c : CreatorParams)
| StartAdvertisingSet_OnEnable (c : CreatorParams).

#[warnings="-register-all"]
Inductive ParametersCb :=
| UserParametersCb (u : nat)
| StartAdvertising_OnParameters (c : StartAdvertising_CreatorParams MultiAdvCb)
| StartAdvertisingSet_OnParameters (c : CreatorParams).

(** [base::Closure]: what alarms and the address generator run. *)
Inductive Closure :=
  (* the lambda of ConfigureRpa, bound to p_inst *)
| ConfigureRpa_OnRpa (p_inst : nat)
  (* the lambda of RegisterAdvertiser, bound to p_inst and cb *)
| RegisterAdvertiser_OnRpa (p_inst : nat) (cb : RegisterAdvertiserCb)
  (* Bind(&Enable, this, inst_id, enable, cb, timeout_s, timeout_cb) *)
| Bind_Enable (inst_id : Z) (enable : bool) (cb : MultiAdvCb) (timeout_s : Z)
    (timeout_cb : MultiAdvCb).

(** ** The HCI interface: commands as the manager issues them *)

Inductive hci_cmd :=
| Hci_SetRandomAddress (inst_id : Z) (addr : BD_ADDR)
| Hci_SetParameters (inst_id properties int_min int_max chan_map
    own_addr_type : Z) (own_addr : BD_ADDR) (peer_addr_type : Z)
    (peer_addr : BD_ADDR) (filter_policy tx_power primary_phy
    secondary_max_skip secondary_phy sid scan_req_notify : Z)
| Hci_SetAdvertisingData (inst_id operation frag_pref length : Z) (data : list Z)
| Hci_SetScanResponseData (inst_id operation frag_pref length : Z) (data : list Z)
| Hci_SetPeriodicAdvertisingParameters (inst_id min_int max_int properties : Z)
| Hci_SetPeriodicAdvertisingData (inst_id operation length : Z) (data : list Z)
| Hci_SetPeriodicAdvertisingEnable (enable : Z) (inst_id : Z)
| Hci_Enable (enable : bool) (inst_id duration max_ext_adv_events : Z).

(** The completion callback queued with a command. *)
Inductive hci_cb :=
| OnStatus (cb : MultiAdvCb)
| OnStatusTxPower (cb : ParametersCb).

(** ** Alarms (osi/include/alarm.h, outside the sources)

    Modelled from the spec: the platform deadline scheduler, one-shot and
    periodic deadlines with cancel (section 1 and section 2). *)

Inductive alarm_callback :=
| btm_ble_adv_raddr_timer_timeout (data : nat)
| alarm_closure_cb (user_task : Closure).

Record alarm_t := {
  is_periodic : bool;
  (* the armed deadline: interval in ms and what runs at expiry *)
  deadline : option (Z * alarm_callback)
}.

(** ** Trace of what the manager does to the outside *)

Inductive effect :=
| E_Hci (c : hci_cmd)
| E_MultiAdvCb (u : nat) (status : Z)
| E_ParametersCb (u : nat) (status tx_power : Z)
| E_RegisterCb (u : nat) (inst_id status : Z)
| E_IdTxPowerStatusCb (u : nat) (inst_id tx_power status : Z)
| E_alarm_new (a : alarm_ptr)
| E_alarm_set (a : alarm_ptr) (interval_ms : Z)
| E_alarm_cancel (a : alarm_ptr)
| E_alarm_free (a : alarm_ptr)
| E_gen_resolvable_private_addr (inst_id : Z)
| E_btm_acl_update_conn_addr (connection_handle : Z) (addr : BD_ADDR).

(** ** Manager state *)

Record manager := {
  adv_inst : list AdvertisingInstance;
  (* adv_inst.capacity(): the instances the storage of the vector holds *)
  adv_inst_capacity : nat;
  inst_count : Z;
  (* alarm store: [None] is a freed alarm *)
  alarms : list (option alarm_t);
  (* commands handed to the controller, oldest first, awaiting completion *)
  hci_queue : list (hci_cmd * hci_cb);
  (* OnRpaGenerationComplete bound to (inst_id, cb), awaiting the random draw *)
  rpa_queue : list (Z * Closure);
  trace : list effect
}.

Definition set_adv_inst (v : list AdvertisingInstance) (m : manager) :=
  {| adv_inst := v; adv_inst_capacity := adv_inst_capacity m;
     inst_count := inst_count m; alarms := alarms m;
     hci_queue := hci_queue m; rpa_queue := rpa_queue m; trace := trace m |}.
Definition set_adv_inst_capacity (v : nat) (m : manager) :=
  {| adv_inst := adv_inst m; adv_inst_capacity := v;
     inst_count := inst_count m; alarms := alarms m;
     hci_queue := hci_queue m; rpa_queue := rpa_queue m; trace := trace m |}.
Definition set_inst_count (v : Z) (m : manager) :=
  {| adv_inst := adv_inst m; adv_inst_capacity := adv_inst_capacity m;
     inst_count := v; alarms := alarms m;
     hci_queue := hci_queue m; rpa_queue := rpa_queue m; trace := trace m |}.
Definition set_alarms (v : list (option alarm_t)) (m : manager) :=
  {| adv_inst := adv_inst m; adv_inst_capacity := adv_inst_capacity m;
     inst_count := inst_count m; alarms := v;
     hci_queue := hci_queue m; rpa_queue := rpa_queue m; trace := trace m |}.
Definition set_hci_queue (v : list (hci_cmd * hci_cb)) (m : manager) :=
  {| adv_inst := adv_inst m; adv_inst_capacity := adv_inst_capacity m;
     inst_count := inst_count m; alarms := alarms m;
     hci_queue := v; rpa_queue := rpa_queue m; trace := trace m |}.
Definition set_rpa_queue (v : list (Z * Closure)) (m : manager) :=
  {| adv_inst := adv_inst m; adv_inst_capacity := adv_inst_capacity m;
     inst_count := inst_count m; alarms := alarms m;
     hci_queue := hci_queue m; rpa_queue := v; trace := trace m |}.
Definition set_trace (v : list effect) (m : manager) :=
  {| adv_inst := adv_inst m; adv_inst_capacity := adv_inst_capacity m;
     inst_count := inst_count m; alarms := alarms m;
     hci_queue := hci_queue m; rpa_queue := rpa_queue m; trace := v |}.

(** ** State and fault monad *)

Inductive fault :=
| OutOfBounds      (* access outside a vector *)
| AssertFailed     (* LOG_ASSERT(false) *)
| BadAlarm         (* use of a freed alarm *)
| OutOfFuel.

Inductive outcome (A : Type) :=
| Ok (a : A)
| Fault (f : fault).
Arguments Ok {A} a.
Arguments Fault {A} f.

Definition M (A : Type) := manager -> outcome (A * manager).

Definition ret {A} (a : A) : M A := fun m => Ok (a, m).
Definition bind {A B} (x : M A) (f : A -> M B) : M B :=
  fun m => match x m with
           | Ok (a, m') => f a m'
           | Fault e => Fault e
           end.
Definition lift {A} (x : outcome A) : M A :=
  fun m => match x with Ok a => Ok (a, m) | Fault e => Fault e end.
Definition throw {A} (e : fault) : M A := fun _ => Fault e.

Notation "'do' x <- c1 ; c2" := (bind c1 (fun x => c2))
  (at level 10, x name, c1 at level 100, c2 at level 200).
Notation "c1 ;; c2" := (bind c1 (fun _ => c2))
  (at level 100, c2 at level 200, right associativity).

Definition get : M manager := fun m => Ok (m, m).
Definition modify (f : manager -> manager) : M unit := fun m => Ok (tt, f m).

Definition emit (e : effect) : M unit :=
  modify (fun m => set_trace (trace m ++ [e]) m).

(** [adv_inst[i]] read: outside the vector the behaviour is undefined. *)
Definition inst_at (i : Z) : M AdvertisingInstance :=
  fun m => match adv_inst m !! Z.to_nat i with
           | Some a => Ok (a, m)
           | None => Fault OutOfBounds
           end.

(** [adv_inst[i]] write through a pointer to the instance. *)
Definition update_inst (i : Z) (f : AdvertisingInstance -> AdvertisingInstance)
  : M unit :=
  fun m => match adv_inst m !! Z.to_nat i with
           | Some a => Ok (tt, set_adv_inst (<[Z.to_nat i := f a]> (adv_inst m)) m)
           | None => Fault OutOfBounds
           end.

(** [&adv_inst[i]]: the address of element [i], kept as its index.  The
    element is not read.  With [i] outside the vector [operator[]] is
    undefined in the standard, and a library built with assertions stops
    there; the compiled code computes the address and goes on, and so does
    the model.  Every read or write through the pointer is an access of the
    table, and faults outside the vector. *)
Definition addr_of_inst (i : Z) : M Z := ret i.

(** Handing a command to the controller: it is sent, and its callback
    waits for the completion. *)
Definition hci (c : hci_cmd) (cb : hci_cb) : M unit :=
  emit (E_Hci c) ;;
  modify (fun m => set_hci_queue (hci_queue m ++ [(c, cb)]) m).

Definition alarm_new_with (periodic : bool) : M alarm_ptr :=
  do m <- get;
  let a := length (alarms m) in
  modify (set_alarms (alarms m ++ [Some {| is_periodic := periodic; deadline := None |}])) ;;
  emit (E_alarm_new a) ;;
  ret a.
Definition alarm_new : M alarm_ptr := alarm_new_with false.
Definition alarm_new_periodic : M alarm_ptr := alarm_new_with true.

Definition with_alarm (a : alarm_ptr) (f : alarm_t -> option alarm_t) : M unit :=
  fun m => match alarms m !! a with
           | Some (Some al) => Ok (tt, set_alarms (<[a := f al]> (alarms m)) m)
           | _ => Fault BadAlarm
           end.

Definition alarm_set_on_queue (a : alarm_ptr) (interval_ms : Z)
    (cb : alarm_callback) : M unit :=
  with_alarm a (fun al => Some {| is_periodic := is_periodic al;
                                  deadline := Some (interval_ms, cb) |}) ;;
  emit (E_alarm_set a interval_ms).

Definition alarm_cancel (a : alarm_ptr) : M unit :=
  with_alarm a (fun al => Some {| is_periodic := is_periodic al;
                                  deadline := None |}) ;;
  emit (E_alarm_cancel a).

Definition alarm_free (a : alarm_ptr) : M unit :=
  with_alarm a (fun _ => None) ;;
  emit (E_alarm_free a).

(** Periodic alarms are not supported: the closure is deleted by its run. *)
Definition alarm_set_closure_on_queue (a : alarm_ptr) (interval_ms : Z)
    (user_task : Closure) : M unit :=
  alarm_set_on_queue a interval_ms (alarm_closure_cb user_task).

(** ** The manager

    Functions that may run a callback they are handed take the run of that
    callback, [cb_Run status] for [cb.Run(status)], next to the callback
    itself; the callback is what gets bound and queued.  [Run] below ties
    the two together. *)

Definition Run_IdTxPowerStatusCb (cb : IdTxPowerStatusCb)
    (inst_id tx_power status : Z) : M unit :=
  match cb with
  | UserIdTxPowerStatusCb u => emit (E_IdTxPowerStatusCb u inst_id tx_power status)
  end.

Definition Run_RegisterCb (cb : RegisterCb) (inst_id status : Z) : M unit :=
  match cb with
  | UserRegisterCb u => emit (E_RegisterCb u inst_id status)
  | DoNothing2 => ret tt
  end.

Definition SetDataAdvDataSender (is_scan_rsp : bool)
    (inst_id operation length : Z) (data : list Z) (cb : MultiAdvCb) : M unit :=
  if is_scan_rsp
  then hci (Hci_SetScanResponseData inst_id operation 0x01 length
              (take (Z.to_nat length) data)) (OnStatus cb)
  else hci (Hci_SetAdvertisingData inst_id operation 0x01 length
              (take (Z.to_nat length) data)) (OnStatus cb).

(** [sender.Run(inst_id, operation, length, data, done)]; [data] is what the
    pointer points at, of which the command carries [length] bytes. *)
Definition Run_DataSender (sender : DataSender)
    (inst_id operation length : Z) (data : list Z) (cb : MultiAdvCb) : M unit :=
  match sender with
  | Bind_SetDataAdvDataSender is_scan_rsp =>
      SetDataAdvDataSender is_scan_rsp inst_id operation length data cb
  | Bind_SetPeriodicAdvertisingData =>
      hci (Hci_SetPeriodicAdvertisingData inst_id operation length
             (take (Z.to_nat length) data)) (OnStatus cb)
  end.

Definition DivideAndSendDataRecursively_open (done_cb_Run : Z -> M unit)
    (isFirst : bool) (inst_id : Z) (data : list Z) (offset : Z)
    (done_cb : MultiAdvCb) (sender : DataSender) (status : Z) : M unit :=
  let dataSize := Z.of_nat (length data) in
  if negb (status =? 0) || (negb isFirst && (offset =? dataSize)) then
    (* if we got error writing data, or reached the end of data *)
    done_cb_Run status
  else
    let moreThanOnePacket := dataSize - offset >? ADV_DATA_LEN_MAX in
    let operation :=
      if isFirst then (if moreThanOnePacket then FIRST else COMPLETE)
      else (if moreThanOnePacket then INTERMEDIATE else LAST) in
    let length := if moreThanOnePacket then ADV_DATA_LEN_MAX
                  else dataSize - offset in
    let newOffset := offset + length in
    Run_DataSender sender inst_id operation (uint8 length)
      (drop (Z.to_nat offset) data)
      (Bind_DivideAndSendDataRecursively false inst_id data newOffset
         done_cb sender).

Definition DivideAndSendData_open (done_cb_Run : Z -> M unit) (inst_id : Z)
    (data : list Z) (done_cb : MultiAdvCb) (sender : DataSender) : M unit :=
  DivideAndSendDataRecursively_open done_cb_Run true inst_id data 0 done_cb
    sender 0.

(** The loop "Find and fill TX Power with the correct value" of [SetData]:
    [data[i + 1]] and [data[i + 2]] are unchecked vector accesses.  The loop
    runs at most [data.size()] times, which is the fuel [SetData] gives. *)
Fixpoint fill_tx_power (fuel : nat) (tx_power : Z) (i : nat) (data : list Z)
  : outcome (list Z) :=
  if (i <? length data)%nat then
    match fuel with
    | O => Fault OutOfFuel
    | S fuel' =>
        match data !! (i + 1)%nat with
        | None => Fault OutOfBounds
        | Some type =>
            let written :=
              if type =? HCI_EIR_TX_POWER_LEVEL_TYPE then
                if (i + 2 <? length data)%nat
                then Ok (<[(i + 2)%nat := uint8 tx_power]> data)
                else Fault OutOfBounds
              else Ok data in
            match written with
            | Fault e => Fault e
            | Ok data' =>
                match data' !! i with
                | Some len =>
                    fill_tx_power fuel' tx_power (i + Z.to_nat (len + 1))%nat data'
                | None => Fault OutOfBounds
                end
            end
        end
    end
  else Ok data.

Definition SetPeriodicAdvertisingParameters (inst_id : Z)
    (params : tBLE_PERIODIC_ADV_PARAMS) (cb : MultiAdvCb) : M unit :=
  hci (Hci_SetPeriodicAdvertisingParameters inst_id (min_interval params)
         (max_interval params) (periodic_advertising_properties params))
      (OnStatus cb).

Definition SetPeriodicAdvertisingData_open (cb_Run : Z -> M unit) (inst_id : Z)
    (data : list Z) (cb : MultiAdvCb) : M unit :=
  DivideAndSendData_open cb_Run inst_id data cb Bind_SetPeriodicAdvertisingData.

Definition SetPeriodicAdvertisingEnable (inst_id : Z) (enable : Z)
    (cb : MultiAdvCb) : M unit :=
  hci (Hci_SetPeriodicAdvertisingEnable enable inst_id) (OnStatus cb).

Definition Unregister (inst_id : Z) : M unit :=
  (* AdvertisingInstance* p_inst = &adv_inst[inst_id], before the check *)
  do p_inst <- addr_of_inst inst_id;
  do m <- get;
  if inst_id >=? inst_count m then
    ret tt  (* LOG(ERROR) bad instance id *)
  else
    (* TODO(jpawlowski): only disable when enabled or enabling *)
    hci (Hci_Enable false inst_id 0x00 0x00) (OnStatus DoNothing) ;;
    do i <- inst_at p_inst;
    alarm_cancel (Inst.adv_raddr_timer i) ;;
    update_inst p_inst (Inst.set_in_use false).

Section Manager.

Context (P : platform).

(** The first half of [SetData]: the flags structure put in front of the
    payload of a legacy connectable set, then the TX power pass. *)
Definition SetData_prepare (p_inst : AdvertisingInstance) (is_scan_rsp : bool)
    (data : list Z) : outcome (list Z) :=
  let data :=
    if negb is_scan_rsp &&
       is_legacy_connectable (Inst.advertising_event_properties p_inst)
    then
      let flags_val :=
        if negb (Inst.timeout_s p_inst =? 0) then BTM_LIMITED_DISCOVERABLE
        else BTM_GENERAL_DISCOVERABLE in
      [2; HCI_EIR_FLAGS_TYPE; flags_val] ++ data
    else data in
  (* Find and fill TX Power with the correct value *)
  fill_tx_power (length data) (Inst.tx_power p_inst) 0 data.

(** [SetData]; the instance is read once the bound check has passed. *)
Definition SetData_open (cb_Run : Z -> M unit) (inst_id : Z)
    (is_scan_rsp : bool) (data : list Z) (cb : MultiAdvCb) : M unit :=
  do m <- get;
  if inst_id >=? inst_count m then
    ret tt  (* LOG(ERROR) bad instance id *)
  else
    do p_inst <- inst_at inst_id;
    do data <- lift (SetData_prepare p_inst is_scan_rsp data);
    DivideAndSendData_open cb_Run inst_id data cb
      (Bind_SetDataAdvDataSender is_scan_rsp).

Definition Enable_open (cb_Run : Z -> M unit) (inst_id : Z) (enable : bool)
    (cb : MultiAdvCb) (timeout_s : Z) (timeout_cb : MultiAdvCb) : M unit :=
  do m <- get;
  if inst_id >=? inst_count m then
    ret tt  (* LOG(ERROR) bad instance id *)
  else
    do p_inst <- inst_at inst_id;
    if negb (Inst.in_use p_inst) then
      (* LOG(ERROR) Invalid or no active instance *)
      cb_Run (BTM_BLE_MULTI_ADV_FAILURE P)
    else if enable && negb (timeout_s =? 0) then
      hci (Hci_Enable enable (Inst.inst_id p_inst) 0x0000 0x00)
          (OnStatus (Bind_EnableWithTimerCb inst_id cb timeout_s timeout_cb))
    else
      match Inst.timeout_timer p_inst with
      | Some t =>
          alarm_cancel t ;; alarm_free t ;;
          update_inst inst_id (Inst.set_timeout_timer None)
      | None => ret tt
      end ;;
      hci (Hci_Enable enable (Inst.inst_id p_inst) 0x0000 0x00) (OnStatus cb).

Definition EnableWithTimerCb_open (enable_cb_Run : Z -> M unit) (inst_id : Z)
    (enable_cb : MultiAdvCb) (timeout_s : Z) (timeout_cb : MultiAdvCb)
    (status : Z) : M unit :=
  (* Run the regular enable callback *)
  enable_cb_Run status ;;
  update_inst inst_id (Inst.set_timeout_s timeout_s) ;;
  do t <- alarm_new;
  update_inst inst_id (Inst.set_timeout_timer (Some t)) ;;
  (* schedule disable when the timeout passes: [timeout_s * 1000] is a
     product of two [int]s, handed over as a [period_ms_t] *)
  alarm_set_closure_on_queue t (period_ms_t (int32 (timeout_s * 1000)))
    (Bind_Enable inst_id false timeout_cb 0 DoNothing).

(** *** The lambdas of [StartAdvertisingSet], innermost first *)

Definition StartAdvertisingSet_enable_cb (c : CreatorParams) (status : Z)
  : M unit :=
  if negb (status =? 0) then
    Unregister (c_inst_id c) ;;
    Run_IdTxPowerStatusCb (c_cb c) 0 0 status
  else
    do p_inst <- inst_at (c_inst_id c);
    Run_IdTxPowerStatusCb (c_cb c) (c_inst_id c) (Inst.tx_power p_inst) status.

Definition StartAdvertisingSetFinish (c : CreatorParams) : M unit :=
  let inst_id := c_inst_id c in
  let timeout_s := c_timeout_s c in
  let timeout_cb := c_timeout_cb c in
  Enable_open (StartAdvertisingSet_enable_cb c) inst_id true
    (StartAdvertisingSet_OnEnable c) timeout_s
    (Bind_timeout_cb timeout_cb inst_id).

Definition StartAdvertisingSet_periodic_enable_cb (c : CreatorParams)
    (status : Z) : M unit :=
  if negb (status =? 0) then
    Unregister (c_inst_id c) ;;
    Run_IdTxPowerStatusCb (c_cb c) 0 0 status
  else StartAdvertisingSetFinish c.

Definition StartAdvertisingSet_periodic_data_cb (c : CreatorParams)
    (status : Z) : M unit :=
  if negb (status =? 0) then
    Unregister (c_inst_id c) ;;
    Run_IdTxPowerStatusCb (c_cb c) 0 0 status
  else
    SetPeriodicAdvertisingEnable (c_inst_id c) 1
      (StartAdvertisingSet_OnPeriodicEnable c).

Definition StartAdvertisingSet_periodic_parameters_cb (c : CreatorParams)
    (status : Z) : M unit :=
  if negb (status =? 0) then
    Unregister (c_inst_id c) ;;
    Run_IdTxPowerStatusCb (c_cb c) 0 0 status
  else
    SetPeriodicAdvertisingData_open (StartAdvertisingSet_periodic_data_cb c)
      (c_inst_id c) (c_periodic_data c) (StartAdvertisingSet_OnPeriodicData c).

Definition StartAdvertisingSetPeriodicPart (c : CreatorParams) : M unit :=
  SetPeriodicAdvertisingParameters (c_inst_id c) (c_periodic_params c)
    (StartAdvertisingSet_OnPeriodicParameters c).

Definition StartAdvertisingSet_scan_response_data_cb (c : CreatorParams)
    (status : Z) : M unit :=
  if negb (status =? 0) then
    Unregister (c_inst_id c) ;;
    Run_IdTxPowerStatusCb (c_cb c) 0 0 status
  else if enable (c_periodic_params c) then StartAdvertisingSetPeriodicPart c
  else StartAdvertisingSetFinish c.

Definition StartAdvertisingSet_advertise_data_cb (c : CreatorParams)
    (status : Z) : M unit :=
  if negb (status =? 0) then
    Unregister (c_inst_id c) ;;
    Run_IdTxPowerStatusCb (c_cb c) 0 0 status
  else
    SetData_open (StartAdvertisingSet_scan_response_data_cb c) (c_inst_id c)
      true (c_scan_response_data c) (StartAdvertisingSet_OnScanResponseData c).

Definition StartAdvertisingSet_random_address_cb (c : CreatorParams)
    (status : Z) : M unit :=
  if negb (status =? 0) then
    Unregister (c_inst_id c) ;;
    Run_IdTxPowerStatusCb (c_cb c) 0 0 status
  else
    SetData_open (StartAdvertisingSet_advertise_data_cb c) (c_inst_id c)
      false (c_advertise_data c) (StartAdvertisingSet_OnAdvertiseData c).

Definition StartAdvertisingSet_parameters_cb (c : CreatorParams)
    (status tx_power : Z) : M unit :=
  if negb (status =? 0) then
    Unregister (c_inst_id c) ;;
    Run_IdTxPowerStatusCb (c_cb c) 0 0 status
  else
    update_inst (c_inst_id c) (Inst.set_tx_power tx_power) ;;
    do p_inst <- inst_at (c_inst_id c);
    hci (Hci_SetRandomAddress (c_inst_id c) (Inst.own_address p_inst))
        (OnStatus (StartAdvertisingSet_OnRandomAddress c)).

(** *** The lambdas of [StartAdvertising], innermost first; [cb_Run] is the
    run of the caller's [c->cb] *)

Definition StartAdvertising_scan_response_data_cb (cb_Run : Z -> M unit)
    (c : StartAdvertising_CreatorParams MultiAdvCb) (status : Z) : M unit :=
  if negb (status =? 0) then cb_Run status
  else Enable_open cb_Run (sa_inst_id c) true (sa_cb c) (sa_timeout_s c)
         (sa_timeout_cb c).

Definition StartAdvertising_advertise_data_cb (cb_Run : Z -> M unit)
    (c : StartAdvertising_CreatorParams MultiAdvCb) (status : Z) : M unit :=
  if negb (status =? 0) then cb_Run status
  else SetData_open (StartAdvertising_scan_response_data_cb cb_Run c)
         (sa_inst_id c) true (sa_scan_response_data c)
         (StartAdvertising_OnScanResponseData c).

Definition StartAdvertising_random_address_cb (cb_Run : Z -> M unit)
    (c : StartAdvertising_CreatorParams MultiAdvCb) (status : Z) : M unit :=
  if negb (status =? 0) then cb_Run status
  else SetData_open (StartAdvertising_advertise_data_cb cb_Run c)
         (sa_inst_id c) false (sa_advertise_data c)
         (StartAdvertising_OnAdvertiseData c).

Definition StartAdvertising_parameters_cb (cb_Run : Z -> M unit)
    (c : StartAdvertising_CreatorParams MultiAdvCb) (status tx_power : Z)
  : M unit :=
  if negb (status =? 0) then cb_Run status
  else
    update_inst (sa_inst_id c) (Inst.set_tx_power tx_power) ;;
    do p_inst <- inst_at (sa_inst_id c);
    hci (Hci_SetRandomAddress (sa_inst_id c) (Inst.own_address p_inst))
        (OnStatus (StartAdvertising_OnRandomAddress c)).

(** *** [cb.Run(status)] for every [MultiAdvCb] *)

Fixpoint Run (cb : MultiAdvCb) (status : Z) {struct cb} : M unit :=
  match cb with
  | DoNothing => ret tt
  | UserMultiAdvCb u => emit (E_MultiAdvCb u status)
  | Bind_timeout_cb timeout_cb inst_id => Run_RegisterCb timeout_cb inst_id status
  | Bind_EnableWithTimerCb inst_id enable_cb timeout_s timeout_cb =>
      EnableWithTimerCb_open (Run enable_cb) inst_id enable_cb timeout_s
        timeout_cb status
  | Bind_DivideAndSendDataRecursively isFirst inst_id data offset done_cb sender =>
      DivideAndSendDataRecursively_open (Run done_cb) isFirst inst_id data
        offset done_cb sender status
  | StartAdvertising_OnRandomAddress c =>
      StartAdvertising_random_address_cb (Run (sa_cb c)) c status
  | StartAdvertising_OnAdvertiseData c =>
      StartAdvertising_advertise_data_cb (Run (sa_cb c)) c status
  | StartAdvertising_OnScanResponseData c =>
      StartAdvertising_scan_response_data_cb (Run (sa_cb c)) c status
  | StartAdvertisingSet_OnRandomAddress c =>
      StartAdvertisingSet_random_address_cb c status
  | StartAdvertisingSet_OnAdvertiseData c =>
      StartAdvertisingSet_advertise_data_cb c status
  | StartAdvertisingSet_OnScanResponseData c =>
      StartAdvertisingSet_scan_response_data_cb c status
  | StartAdvertisingSet_OnPeriodicParameters c =>
      StartAdvertisingSet_periodic_parameters_cb c status
  | StartAdvertisingSet_OnPeriodicData c =>
      StartAdvertisingSet_periodic_data_cb c status
  | StartAdvertisingSet_OnPeriodicEnable c =>
      StartAdvertisingSet_periodic_enable_cb c status
  | StartAdvertisingSet_OnEnable c =>
      StartAdvertisingSet_enable_cb c status
  end.

(** *** The member functions, with the callback's run tied to [Run] *)

Definition DivideAndSendDataRecursively (isFirst : bool) (inst_id : Z)
    (data : list Z) (offset : Z) (done_cb : MultiAdvCb) (sender : DataSender)
    (status : Z) : M unit :=
  DivideAndSendDataRecursively_open (Run done_cb) isFirst inst_id data offset
    done_cb sender status.

Definition DivideAndSendData (inst_id : Z) (data : list Z)
    (done_cb : MultiAdvCb) (sender : DataSender) : M unit :=
  DivideAndSendData_open (Run done_cb) inst_id data done_cb sender.

Definition SetData (inst_id : Z) (is_scan_rsp : bool) (data : list Z)
    (cb : MultiAdvCb) : M unit :=
  SetData_open (Run cb) inst_id is_scan_rsp data cb.

Definition SetPeriodicAdvertisingData (inst_id : Z) (data : list Z)
    (cb : MultiAdvCb) : M unit :=
  SetPeriodicAdvertisingData_open (Run cb) inst_id data cb.

Definition Enable (inst_id : Z) (enable : bool) (cb : MultiAdvCb)
    (timeout_s : Z) (timeout_cb : MultiAdvCb) : M unit :=
  Enable_open (Run cb) inst_id enable cb timeout_s timeout_cb.


Definition Run_ParametersCb (cb : ParametersCb) (status tx_power : Z) : M unit :=
  match cb with
  | UserParametersCb u => emit (E_ParametersCb u status tx_power)
  | StartAdvertising_OnParameters c =>
      StartAdvertising_parameters_cb (Run (sa_cb c)) c status tx_power
  | StartAdvertisingSet_OnParameters c =>
      StartAdvertisingSet_parameters_cb c status tx_power
  end.

Definition SetParameters (inst_id : Z) (p_params : tBTM_BLE_ADV_PARAMS)
    (cb : ParametersCb) : M unit :=
  do m <- get;
  if inst_id >=? inst_count m then
    ret tt  (* LOG(ERROR) bad instance id *)
  else
    do p_inst <- inst_at inst_id;
    if negb (Inst.in_use p_inst) then
      (* LOG(ERROR) adv instance not in use *)
      Run_ParametersCb cb (BTM_BLE_MULTI_ADV_FAILURE P) 0
    else
      update_inst inst_id (Inst.set_advertising_event_properties
        (uint8 (params_advertising_event_properties p_params))) ;;
      update_inst inst_id (Inst.set_tx_power (params_tx_power p_params)) ;;
      do p_inst <- inst_at inst_id;
      let peer_address := [0; 0; 0; 0; 0; 0] in
      hci (Hci_SetParameters (Inst.inst_id p_inst)
             (params_advertising_event_properties p_params)
             (adv_int_min p_params) (adv_int_max p_params)
             (channel_map p_params) (Inst.own_address_type p_inst)
             (Inst.own_address p_inst) 0x00 peer_address
             (adv_filter_policy p_params) (Inst.tx_power p_inst)
             (primary_advertising_phy p_params) 0x01
             (secondary_advertising_phy p_params) 0x01 (* TODO: proper SID *)
             (scan_request_notification_enable p_params))
          (OnStatusTxPower cb).

(** The first lambda of [StartAdvertisingSet]. *)
Definition StartAdvertisingSet_register_cb (c : CreatorParams)
    (advertiser_id status : Z) : M unit :=
  if negb (status =? 0) then
    Run_IdTxPowerStatusCb (c_cb c) 0 0 status
  else
    let c := set_c_inst_id advertiser_id c in
    SetParameters (c_inst_id c) (c_params c) (StartAdvertisingSet_OnParameters c).

Definition Run_RegisterAdvertiserCb (cb : RegisterAdvertiserCb)
    (inst_id status : Z) : M unit :=
  match cb with
  | CallerRegisterCb cb => Run_RegisterCb cb inst_id status
  | StartAdvertisingSet_OnRegister c =>
      StartAdvertisingSet_register_cb c inst_id status
  end.

Definition Run_Closure (cb : Closure) : M unit :=
  match cb with
  | ConfigureRpa_OnRpa p_inst =>
      (* set it to controller *)
      do i <- inst_at (Z.of_nat p_inst);
      hci (Hci_SetRandomAddress (Inst.inst_id i) (Inst.own_address i))
          (OnStatus DoNothing)
  | RegisterAdvertiser_OnRpa p_inst cb =>
      do i <- inst_at (Z.of_nat p_inst);
      alarm_set_on_queue (Inst.adv_raddr_timer i) (BTM_BLE_PRIVATE_ADDR_INT_MS P)
        (btm_ble_adv_raddr_timer_timeout p_inst) ;;
      Run_RegisterAdvertiserCb cb (Inst.inst_id i) BTM_BLE_MULTI_ADV_SUCCESS
  | Bind_Enable inst_id enable cb timeout_s timeout_cb =>
      Enable inst_id enable cb timeout_s timeout_cb
  end.

Definition OnRpaGenerationComplete (inst_id : Z) (cb : Closure)
    (rand : list Z) : M unit :=
  let rand2 := uint8 (Z.land (at8 rand 2) (Z.lnot BLE_RESOLVE_ADDR_MASK)) in
  let rand2 := uint8 (Z.lor rand2 BLE_RESOLVE_ADDR_MSB) in
  let rand := <[2%nat := rand2]> rand in
  update_inst inst_id (Inst.set_own_address_at 2 (at8 rand 0)) ;;
  update_inst inst_id (Inst.set_own_address_at 1 (at8 rand 1)) ;;
  update_inst inst_id (Inst.set_own_address_at 0 (at8 rand 2)) ;;
  match SMP_Encrypt P (BTM_GetDeviceIDRoot P) (take 3 rand) with
  | None => throw AssertFailed  (* LOG_ASSERT(false) << "SMP_Encrypt failed" *)
  | Some output =>
      (* set hash to be LSB of rpAddress *)
      update_inst inst_id (Inst.set_own_address_at 5 (at8 output 0)) ;;
      update_inst inst_id (Inst.set_own_address_at 4 (at8 output 1)) ;;
      update_inst inst_id (Inst.set_own_address_at 3 (at8 output 2)) ;;
      Run_Closure cb
  end.

(** [btm_gen_resolvable_private_addr] draws the random bytes and calls back
    later: the bound [OnRpaGenerationComplete] waits in [rpa_queue]. *)
Definition GenerateRpa (inst_id : Z) (cb : Closure) : M unit :=
  emit (E_gen_resolvable_private_addr inst_id) ;;
  modify (fun m => set_rpa_queue (rpa_queue m ++ [(inst_id, cb)]) m).

Definition ConfigureRpa (p_inst : nat) : M unit :=
  do i <- inst_at (Z.of_nat p_inst);
  GenerateRpa (Inst.inst_id i) (ConfigureRpa_OnRpa p_inst).

(** The body of the loop of [RegisterAdvertiser] at a free slot. *)
Definition RegisterAdvertiser_slot (i : nat) (p_inst : AdvertisingInstance)
    (cb : RegisterAdvertiserCb) : M unit :=
  update_inst (Z.of_nat i) (Inst.set_in_use true) ;;
  if BLE_PRIVACY_SPT P then
    (* set up periodic timer to update address. *)
    if BTM_BleLocalPrivacyEnabled P then
      update_inst (Z.of_nat i) (Inst.set_own_address_type (BLE_ADDR_RANDOM P)) ;;
      GenerateRpa (Inst.inst_id p_inst) (RegisterAdvertiser_OnRpa i cb)
    else ret tt
  else
    update_inst (Z.of_nat i) (Inst.set_own_address_type (BLE_ADDR_PUBLIC P)) ;;
    update_inst (Z.of_nat i)
      (Inst.set_own_address (take BD_ADDR_LEN (controller_address P))) ;;
    Run_RegisterAdvertiserCb cb (Inst.inst_id p_inst) BTM_BLE_MULTI_ADV_SUCCESS.

(** The loop of [RegisterAdvertiser] from slot [i], [n] slots to go. *)
Fixpoint RegisterAdvertiser_from (n : nat) (i : nat) (cb : RegisterAdvertiserCb)
  : M unit :=
  match n with
  | O =>
      (* LOG(INFO) no free advertiser instance *)
      Run_RegisterAdvertiserCb cb 0xFF (ADVERTISE_FAILED_TOO_MANY_ADVERTISERS P)
  | S n' =>
      do p_inst <- inst_at (Z.of_nat i);
      if Inst.in_use p_inst then RegisterAdvertiser_from n' (S i) cb
      else RegisterAdvertiser_slot i p_inst cb
  end.

Definition RegisterAdvertiser (cb : RegisterAdvertiserCb) : M unit :=
  (* AdvertisingInstance* p_inst = &adv_inst[0], also on an empty table *)
  do p_inst <- addr_of_inst 0;
  do m <- get;
  RegisterAdvertiser_from (Z.to_nat (inst_count m)) (Z.to_nat p_inst) cb.

Definition StartAdvertising (advertiser_id : Z) (cb : MultiAdvCb)
    (params : tBTM_BLE_ADV_PARAMS) (advertise_data scan_response_data : list Z)
    (timeout_s : Z) (timeout_cb : MultiAdvCb) : M unit :=
  let c := {| sa_inst_id := advertiser_id; sa_cb := cb; sa_params := params;
              sa_advertise_data := advertise_data;
              sa_scan_response_data := scan_response_data;
              sa_timeout_s := timeout_s; sa_timeout_cb := timeout_cb |} in
  SetParameters (sa_inst_id c) (sa_params c) (StartAdvertising_OnParameters c).

Definition StartAdvertisingSet (cb : IdTxPowerStatusCb)
    (params : tBTM_BLE_ADV_PARAMS) (advertise_data scan_response_data : list Z)
    (periodic_params : tBLE_PERIODIC_ADV_PARAMS) (periodic_data : list Z)
    (timeout_s : Z) (timeout_cb : RegisterCb) : M unit :=
  let c := {| c_inst_id := 0; c_cb := cb; c_params := params;
              c_advertise_data := advertise_data;
              c_scan_response_data := scan_response_data;
              c_periodic_params := periodic_params;
              c_periodic_data := periodic_data;
              c_timeout_s := timeout_s; c_timeout_cb := timeout_cb |} in
  RegisterAdvertiser (StartAdvertisingSet_OnRegister c).

Definition OnAdvertisingSetTerminated (status advertising_handle
    connection_handle num_completed_extended_adv_events : Z) : M unit :=
  (if BLE_PRIVACY_SPT P then
     if BTM_BleLocalPrivacyEnabled P &&
        (advertising_handle <=? BTM_BLE_MULTI_ADV_MAX P)
     then
       do p_inst <- inst_at advertising_handle;
       emit (E_btm_acl_update_conn_addr connection_handle (Inst.own_address p_inst))
     else ret tt
   else ret tt) ;;
  do p_inst <- inst_at advertising_handle;
  if Inst.in_use p_inst then
    (* TODO(jpawlowski): we don't really allow to do directed advertising
       right now. *)
    if Z.land (Inst.advertising_event_properties p_inst) 0x0C =? 0 then
      hci (Hci_Enable true advertising_handle 0x00 0x00) (OnStatus DoNothing)
    else
      (* mark directed adv as disabled if adv has been stopped *)
      update_inst advertising_handle (Inst.set_in_use false)
  else ret tt.

(** [AdvertisingInstance(int inst_id)]. *)
Definition AdvertisingInstance_new (inst_id : Z) : M AdvertisingInstance :=
  do t <- alarm_new_periodic;
  ret {| Inst.inst_id := inst_id; Inst.in_use := false;
         Inst.advertising_event_properties := 0; Inst.adv_raddr_timer := t;
         Inst.tx_power := 0; Inst.timeout_s := 0; Inst.timeout_timer := None;
         Inst.own_address_type := 0; Inst.own_address := [0; 0; 0; 0; 0; 0] |}.

(** [~AdvertisingInstance()]. *)
Definition AdvertisingInstance_delete (p : AdvertisingInstance) : M unit :=
  alarm_free (Inst.adv_raddr_timer p) ;;
  match Inst.timeout_timer p with
  | Some t => alarm_free t
  | None => ret tt
  end.

(** The destructors of the elements of a vector, run in the order [order]:
    the order in which [clear()] destroys its elements is the library's. *)
Fixpoint destroy_instances (order : list AdvertisingInstance) : M unit :=
  match order with
  | [] => ret tt
  | p :: rest => AdvertisingInstance_delete p ;; destroy_instances rest
  end.

(** The vector moves to a storage of [n] instances.  [AdvertisingInstance]
    declares a destructor and so has no move constructor: the instances are
    copied, alarm pointers included, and the old ones are destroyed, which
    frees their alarms; the table is left with the pointers.  The old
    instances go from the last to the first, as libc++ has it. *)
Definition vector_reallocate (n : nat) : M unit :=
  do m <- get;
  destroy_instances (rev (adv_inst m)) ;;
  modify (set_adv_inst_capacity n).

(** [adv_inst.reserve(n)]. *)
Definition vector_reserve (n : nat) : M unit :=
  do m <- get;
  if (adv_inst_capacity m <? n)%nat then vector_reallocate n else ret tt.

(** [adv_inst.emplace_back(i)]: the instance is constructed in place while
    the storage lasts; when it is full the instance is constructed in a new
    storage of twice the size (libstdc++ and libc++ agree), and the vector
    moves there. *)
Definition vector_emplace_back (i : Z) : M unit :=
  do m <- get;
  do a <- AdvertisingInstance_new i;
  (if (length (adv_inst m) <? adv_inst_capacity m)%nat then ret tt
   else vector_reallocate (Nat.max 1 (2 * adv_inst_capacity m))) ;;
  modify (fun m => set_adv_inst (adv_inst m ++ [a]) m).

Fixpoint emplace_instances (n : nat) (i : Z) : M unit :=
  match n with
  | O => ret tt
  | S n' =>
      vector_emplace_back i ;;
      emplace_instances n' (i + 1)
  end.

Definition ReadInstanceCountCb (instance_count : Z) : M unit :=
  modify (set_inst_count instance_count) ;;
  vector_reserve (Z.to_nat instance_count) ;;
  (* Initialize adv instance indices and IDs. *)
  emplace_instances (Z.to_nat instance_count) 0.

(** The manager as constructed, before the controller has answered
    [ReadInstanceCount]. *)
Definition BleAdvertisingManagerImpl_new : manager :=
  {| adv_inst := []; adv_inst_capacity := 0; inst_count := 0; alarms := [];
     hci_queue := []; rpa_queue := []; trace := [] |}.

(** ** The dispatch loop

    API calls, HCI completions (of the oldest command in flight), the
    arrival of the random bytes for an address, alarm expiries, and the
    controller's set-terminated event, one at a time. *)

Inductive event :=
| Ev_ReadInstanceCountCb (instance_count : Z)
| Ev_RegisterAdvertiser (cb : RegisterCb)
| Ev_Unregister (inst_id : Z)
| Ev_SetParameters (inst_id : Z) (params : tBTM_BLE_ADV_PARAMS) (cb : ParametersCb)
| Ev_SetData (inst_id : Z) (is_scan_rsp : bool) (data : list Z) (cb : MultiAdvCb)
| Ev_Enable (inst_id : Z) (enable : bool) (cb : MultiAdvCb) (timeout_s : Z)
    (timeout_cb : MultiAdvCb)
| Ev_SetPeriodicAdvertisingParameters (inst_id : Z)
    (params : tBLE_PERIODIC_ADV_PARAMS) (cb : MultiAdvCb)
| Ev_SetPeriodicAdvertisingData (inst_id : Z) (data : list Z) (cb : MultiAdvCb)
| Ev_SetPeriodicAdvertisingEnable (inst_id : Z) (enable : Z) (cb : MultiAdvCb)
| Ev_StartAdvertising (advertiser_id : Z) (cb : MultiAdvCb)
    (params : tBTM_BLE_ADV_PARAMS) (advertise_data scan_response_data : list Z)
    (timeout_s : Z) (timeout_cb : MultiAdvCb)
| Ev_StartAdvertisingSet (cb : IdTxPowerStatusCb)
    (params : tBTM_BLE_ADV_PARAMS) (advertise_data scan_response_data : list Z)
    (periodic_params : tBLE_PERIODIC_ADV_PARAMS) (periodic_data : list Z)
    (timeout_s : Z) (timeout_cb : RegisterCb)
| Ev_HciComplete (status tx_power : Z)
| Ev_RpaGenerated (rand : list Z)
| Ev_AlarmExpired (a : alarm_ptr)
| Ev_AdvertisingSetTerminated (status advertising_handle connection_handle
    num_completed_extended_adv_events : Z).

Definition Run_hci_cb (cb : hci_cb) (status tx_power : Z) : M unit :=
  match cb with
  | OnStatus cb => Run cb status
  | OnStatusTxPower cb => Run_ParametersCb cb status tx_power
  end.

Definition hci_complete (status tx_power : Z) : M unit :=
  do m <- get;
  match hci_queue m with
  | [] => ret tt
  | (_, cb) :: rest =>
      modify (set_hci_queue rest) ;;
      Run_hci_cb cb status tx_power
  end.

Definition rpa_generated (rand : list Z) : M unit :=
  do m <- get;
  match rpa_queue m with
  | [] => ret tt
  | (inst_id, cb) :: rest =>
      modify (set_rpa_queue rest) ;;
      OnRpaGenerationComplete inst_id cb rand
  end.

Definition Run_alarm_callback (cb : alarm_callback) : M unit :=
  match cb with
  | btm_ble_adv_raddr_timer_timeout data => ConfigureRpa data
  | alarm_closure_cb user_task => Run_Closure user_task
  end.

(** An armed alarm expires: a one-shot alarm is disarmed, then its callback
    runs. *)
Definition alarm_expired (a : alarm_ptr) : M unit :=
  do m <- get;
  match alarms m !! a with
  | Some (Some {| is_periodic := periodic; deadline := Some (ms, cb) |}) =>
      (if periodic then ret tt
       else with_alarm a (fun al => Some {| is_periodic := false; deadline := None |})) ;;
      Run_alarm_callback cb
  | _ => ret tt
  end.

Definition step (e : event) : M unit :=
  match e with
  | Ev_ReadInstanceCountCb n => ReadInstanceCountCb n
  | Ev_RegisterAdvertiser cb => RegisterAdvertiser (CallerRegisterCb cb)
  | Ev_Unregister inst_id => Unregister inst_id
  | Ev_SetParameters inst_id params cb => SetParameters inst_id params cb
  | Ev_SetData inst_id is_scan_rsp data cb => SetData inst_id is_scan_rsp data cb
  | Ev_Enable inst_id enable cb timeout_s timeout_cb =>
      Enable inst_id enable cb timeout_s timeout_cb
  | Ev_SetPeriodicAdvertisingParameters inst_id params cb =>
      SetPeriodicAdvertisingParameters inst_id params cb
  | Ev_SetPeriodicAdvertisingData inst_id data cb =>
      SetPeriodicAdvertisingData inst_id data cb
  | Ev_SetPeriodicAdvertisingEnable inst_id enable cb =>
      SetPeriodicAdvertisingEnable inst_id enable cb
  | Ev_StartAdvertising advertiser_id cb params adv scan timeout_s timeout_cb =>
      StartAdvertising advertiser_id cb params adv scan timeout_s timeout_cb
  | Ev_StartAdvertisingSet cb params adv scan pparams pdata timeout_s timeout_cb =>
      StartAdvertisingSet cb params adv scan pparams pdata timeout_s timeout_cb
  | Ev_HciComplete status tx_power => hci_complete status tx_power
  | Ev_RpaGenerated rand => rpa_generated rand
  | Ev_AlarmExpired a => alarm_expired a
  | Ev_AdvertisingSetTerminated status h ch n =>
      OnAdvertisingSetTerminated status h ch n
  end.

(** The events of a list, in order. *)
Fixpoint steps (es : list event) : M unit :=
  match es with
  | [] => ret tt
  | e :: es' => step e ;; steps es'
  end.

(** The state after a sequence of events. *)
Definition exec (es : list event) (m : manager) : outcome manager :=
  match steps es m with
  | Ok (_, m') => Ok m'
  | Fault f => Fault f
  end.

End Manager.

(** * Vocabulary of the statements *)

(** ** Well-formed manager states

    What [ReadInstanceCountCb] establishes and every member function keeps:
    [inst_count] is the size of the table and fits [uint8_t], each
    instance's [inst_id] is its index, its address timer is a live alarm,
    and its timeout timer, when set, is a live alarm of its own. *)

Definition alive (m : manager) (a : alarm_ptr) : bool :=
  match alarms m !! a with
  | Some (Some _) => true
  | _ => false
  end.

Definition inst_ok (m : manager) (i : nat) (p : AdvertisingInstance) : bool :=
  (Inst.inst_id p =? Z.of_nat i) &&
  alive m (Inst.adv_raddr_timer p) &&
  (length (Inst.own_address p) =? BD_ADDR_LEN)%nat &&
  match Inst.timeout_timer p with
  | None => true
  | Some t =>
      alive m t &&
      forallb (fun q => negb (Inst.adv_raddr_timer q =? t)%nat) (adv_inst m)
  end.

Fixpoint insts_ok (m : manager) (i : nat) (l : list AdvertisingInstance) : bool :=
  match l with
  | [] => true
  | p :: l' => inst_ok m i p && insts_ok m (S i) l'
  end.

Definition wf (m : manager) : bool :=
  (inst_count m =? Z.of_nat (length (adv_inst m))) &&
  (inst_count m <=? 255) &&
  insts_ok m 0 (adv_inst m).

Definition table_sized (m : manager) : Prop :=
  inst_count m = Z.of_nat (length (adv_inst m)).

(** The allocation state of the table. *)
Definition in_use_flags (m : manager) : list bool :=
  map Inst.in_use (adv_inst m).

(** Index of the first free slot. *)
Fixpoint first_free (l : list AdvertisingInstance) : option nat :=
  match l with
  | [] => None
  | p :: l' => if Inst.in_use p then option_map S (first_free l') else Some 0%nat
  end.

(** Number of allocated instances. *)
Definition allocated (m : manager) : Z :=
  Z.of_nat (length (List.filter Inst.in_use (adv_inst m))).

(** The part of a trace added since an earlier one. *)
Definition since (before after : list effect) : list effect :=
  drop (length before) after.

Definition hci_commands (t : list effect) : list hci_cmd :=
  flat_map (fun e => match e with E_Hci c => [c] | _ => [] end) t.

(** ** A platform and states to run the model on *)

Definition demo_platform : platform :=
  {| BLE_PRIVACY_SPT := false; BTM_BleLocalPrivacyEnabled := false;
     BTM_BLE_MULTI_ADV_FAILURE := 1;
     ADVERTISE_FAILED_TOO_MANY_ADVERTISERS := 2;
     BLE_ADDR_PUBLIC := 0; BLE_ADDR_RANDOM := 1;
     BTM_BLE_MULTI_ADV_MAX := 16;
     BTM_BLE_PRIVATE_ADDR_INT_MS := 900000;
     controller_address := [0x11; 0x22; 0x33; 0x44; 0x55; 0x66];
     BTM_GetDeviceIDRoot := repeat 0 16;
     SMP_Encrypt := fun _ _ => Some (repeat 0 16) |}.

(** The same platform built with privacy support, privacy switched on. *)
Definition demo_privacy_platform : platform :=
  {| BLE_PRIVACY_SPT := true; BTM_BleLocalPrivacyEnabled := true;
     BTM_BLE_MULTI_ADV_FAILURE := 1;
     ADVERTISE_FAILED_TOO_MANY_ADVERTISERS := 2;
     BLE_ADDR_PUBLIC := 0; BLE_ADDR_RANDOM := 1;
     BTM_BLE_MULTI_ADV_MAX := 16;
     BTM_BLE_PRIVATE_ADDR_INT_MS := 900000;
     controller_address := [0x11; 0x22; 0x33; 0x44; 0x55; 0x66];
     BTM_GetDeviceIDRoot := repeat 0 16;
     SMP_Encrypt := fun _ _ => Some (repeat 0 16) |}.

Definition state_of (o : outcome manager) : manager :=
  match o with
  | Ok m => m
  | Fault _ => BleAdvertisingManagerImpl_new
  end.

(** A controller with two advertising sets, both free. *)
Definition demo_two_free : manager :=
  state_of (exec demo_platform [Ev_ReadInstanceCountCb 2]
              BleAdvertisingManagerImpl_new).

(** The same with set 0 registered. *)
Definition demo_registered : manager :=
  state_of (exec demo_platform [Ev_RegisterAdvertiser (UserRegisterCb 0)]
              demo_two_free).

Definition demo_params : tBTM_BLE_ADV_PARAMS :=
  {| params_advertising_event_properties := 0x13; adv_int_min := 160;
     adv_int_max := 160; channel_map := 7; adv_filter_policy := 0;
     params_tx_power := -7; primary_advertising_phy := 1;
     secondary_advertising_phy := 1; scan_request_notification_enable := 0 |}.

Definition demo_no_periodic : tBLE_PERIODIC_ADV_PARAMS :=
  {| enable := false; min_interval := 0; max_interval := 0;
     periodic_advertising_properties := 0 |}.

(** [adv_inst[i]] changed by [f], the rest of the manager as it was. *)
Definition modify_inst (i : Z) (f : AdvertisingInstance -> AdvertisingInstance)
    (m : manager) : manager :=
  set_adv_inst (alter f (Z.to_nat i) (adv_inst m)) m.

Definition own_address_of (m : manager) (i : nat) : BD_ADDR :=
  match adv_inst m !! i with
  | Some p => Inst.own_address p
  | None => []
  end.

(** One set registered under privacy, its address generated from the random
    draw FF FF FF ... (the demo encryption returns zeros as the hash). *)
Definition demo_rpa_generated : manager :=
  state_of (exec demo_privacy_platform
              [Ev_ReadInstanceCountCb 1;
               Ev_RegisterAdvertiser (UserRegisterCb 0);
               Ev_RpaGenerated (repeat 0xFF 8)]
              BleAdvertisingManagerImpl_new).

(** ** Registration

    The address [OnRpaGenerationComplete] writes: the prand, most
    significant byte first, then the hash. *)
Definition resolvable_address (rand output : list Z) : BD_ADDR :=
  [uint8 (Z.lor (uint8 (Z.land (at8 rand 2) (Z.lnot BLE_RESOLVE_ADDR_MASK)))
            BLE_RESOLVE_ADDR_MSB);
   at8 rand 1; at8 rand 0; at8 output 2; at8 output 1; at8 output 0].

(** The events that complete a registration: the arrival of the random
    bytes, in a build with privacy support. *)
Definition registration_events (P : platform) (rand : list Z) : list event :=
  if BLE_PRIVACY_SPT P then [Ev_RpaGenerated rand] else [].

(** Registration calls back: a build without privacy support always does;
    one with it does when privacy is on, no other address is being
    generated, and the encryption of the drawn prand succeeds. *)
Definition registration_ready (P : platform) (m : manager)
    (rand output : list Z) : Prop :=
  BLE_PRIVACY_SPT P = true ->
  BTM_BleLocalPrivacyEnabled P = true /\
  rpa_queue m = [] /\
  length rand = 8%nat /\
  SMP_Encrypt P (BTM_GetDeviceIDRoot P)
    [at8 rand 0; at8 rand 1;
     uint8 (Z.lor (uint8 (Z.land (at8 rand 2) (Z.lnot BLE_RESOLVE_ADDR_MASK)))
              BLE_RESOLVE_ADDR_MSB)]
  = Some output.

(** The instance as a registration leaves it. *)
Definition registered (P : platform) (rand output : list Z)
    (p : AdvertisingInstance) : AdvertisingInstance :=
  if BLE_PRIVACY_SPT P then
    Inst.set_own_address (resolvable_address rand output)
      (Inst.set_own_address_type (BLE_ADDR_RANDOM P) (Inst.set_in_use true p))
  else
    Inst.set_own_address (take BD_ADDR_LEN (controller_address P))
      (Inst.set_own_address_type (BLE_ADDR_PUBLIC P) (Inst.set_in_use true p)).

(** ** Timers of an instance *)

Definition armed (m : manager) (a : alarm_ptr) : bool :=
  match alarms m !! a with
  | Some (Some al) => match deadline al with Some _ => true | None => false end
  | _ => false
  end.

Definition has_active_timer (m : manager) (p : AdvertisingInstance) : bool :=
  armed m (Inst.adv_raddr_timer p) ||
  match Inst.timeout_timer p with
  | Some t => armed m t
  | None => false
  end.

(** "[in_use == false] implies no active timers", for every instance. *)
Definition free_instances_idle (m : manager) : bool :=
  forallb (fun p => Inst.in_use p || negb (has_active_timer m p)) (adv_inst m).

(** Set 0 enabled for 30 s, the enable completed with success. *)
Definition demo_timed : manager :=
  state_of (exec demo_platform
              [Ev_Enable 0 true (UserMultiAdvCb 1) 30 (UserMultiAdvCb 2);
               Ev_HciComplete 0 0]
              demo_registered).

(** Set 0 unregistered while its 30 s timeout timer is running. *)
Definition demo_unregistered_timed : manager :=
  state_of (exec demo_platform [Ev_Unregister 0] demo_timed).

(** A set started with a 30 s timeout whose final Enable the controller
    rejects with status 0x0C. *)
Definition demo_start_set_rejected : manager :=
  state_of (exec demo_platform
              [Ev_StartAdvertisingSet (UserIdTxPowerStatusCb 1) demo_params
                 [0x02; 0xFF; 0x42] [] demo_no_periodic [] 30 (UserRegisterCb 2);
               Ev_HciComplete 0 (-5); Ev_HciComplete 0 0; Ev_HciComplete 0 0;
               Ev_HciComplete 0 0; Ev_HciComplete 0x0C 0]
              demo_two_free).

(** ** Advertising data as AD structures

    An AD structure on the wire is its length (type byte and value bytes
    counted), its type, and its value. *)

Record ad_structure := { ad_type : Z; ad_value : list Z }.

Definition encode_ad (s : ad_structure) : list Z :=
  Z.of_nat (S (length (ad_value s))) :: ad_type s :: ad_value s.

Definition encode_ads (l : list ad_structure) : list Z :=
  flat_map encode_ad l.

(** The length fits a byte, and a TX power structure has a value byte. *)
Definition ad_ok (s : ad_structure) : bool :=
  (length (ad_value s) <? 255)%nat &&
  (if ad_type s =? HCI_EIR_TX_POWER_LEVEL_TYPE
   then negb (length (ad_value s) =? 0)%nat else true).

(** A TX power structure with its first value byte replaced. *)
Definition fill_ad (tx_power : Z) (s : ad_structure) : ad_structure :=
  if ad_type s =? HCI_EIR_TX_POWER_LEVEL_TYPE
  then {| ad_type := ad_type s;
          ad_value := uint8 tx_power :: tail (ad_value s) |}
  else s.

(** Set 0 configured as a legacy connectable set (properties 0x13) with
    TX power -7 dBm. *)
Definition demo_configured : manager :=
  state_of (exec demo_platform
              [Ev_SetParameters 0 demo_params (UserParametersCb 4);
               Ev_HciComplete 0 (-5)]
              demo_registered).

(** A TX power structure and a manufacturer-data structure. *)
Definition demo_ads : list ad_structure :=
  [{| ad_type := 0x0A; ad_value := [0] |};
   {| ad_type := 0xFF; ad_value := [0x42] |}].

(** ** Commands and callbacks of a trace *)

Definition is_callback (e : effect) : bool :=
  match e with
  | E_MultiAdvCb _ _ | E_ParametersCb _ _ _ | E_RegisterCb _ _ _
  | E_IdTxPowerStatusCb _ _ _ _ => true
  | _ => false
  end.

(** The callbacks of the callers run in a trace, in order. *)
Definition callbacks (t : list effect) : list effect :=
  List.filter is_callback t.

(** ** Fragments of a payload (section 4.4): tag and bytes *)

Definition first_fragment (data : list Z) : Z * list Z :=
  if (251 <? length data)%nat then (FIRST, take 251 data) else (COMPLETE, data).

(** The fragments after the first, [rest] being what is left to send. *)
Fixpoint later_fragments (fuel : nat) (rest : list Z) : list (Z * list Z) :=
  match fuel with
  | O => []
  | S fuel' =>
      match rest with
      | [] => []
      | _ :: _ =>
          if (251 <? length rest)%nat
          then (INTERMEDIATE, take 251 rest)
               :: later_fragments fuel' (drop 251 rest)
          else [(LAST, rest)]
      end
  end.

Definition fragments (data : list Z) : list (Z * list Z) :=
  first_fragment data
  :: later_fragments (length data)
       (drop (length (snd (first_fragment data))) data).

(** The command a sender issues for a fragment. *)
Definition fragment_cmd (sender : DataSender) (inst_id : Z)
    (f : Z * list Z) : hci_cmd :=
  match sender with
  | Bind_SetDataAdvDataSender true =>
      Hci_SetScanResponseData inst_id (fst f) 0x01
        (Z.of_nat (length (snd f))) (snd f)
  | Bind_SetDataAdvDataSender false =>
      Hci_SetAdvertisingData inst_id (fst f) 0x01
        (Z.of_nat (length (snd f))) (snd f)
  | Bind_SetPeriodicAdvertisingData =>
      Hci_SetPeriodicAdvertisingData inst_id (fst f)
        (Z.of_nat (length (snd f))) (snd f)
  end.

(** ** Chains of commands

    [chain P I F fin k script]: the callback [k] of a command in flight,
    completed with status 0, issues the commands of [script] one per
    completion, each with a callback that goes on in the same way, and then
    behaves as [fin]; completed with another status, it does what [F] does
    with that status.  [I] is what holds of the manager along the way. *)
Inductive chain (P : platform) (I : manager -> Prop) (F : Z -> M unit)
    (fin : MultiAdvCb) : MultiAdvCb -> list hci_cmd -> Prop :=
| chain_end k :
    (forall s m, Run P k s m = Run P fin s m) ->
    chain P I F fin k []
| chain_step k c k' script :
    (forall s m, s <> 0 -> I m -> Run P k s m = F s m) ->
    (forall m, I m ->
       exists m',
         Run P k 0 m = Ok (tt, m') /\
         hci_queue m' = hci_queue m ++ [(c, OnStatus k')] /\
         hci_commands (trace m') = hci_commands (trace m) ++ [c] /\
         callbacks (trace m') = callbacks (trace m) /\
         I m') ->
    chain P I F fin k' script ->
    chain P I F fin k (c :: script).

(** [n] completions with status 0. *)
Definition completions (n : nat) (tx_power : Z) : list event :=
  repeat (Ev_HciComplete 0 tx_power) n.

(** ** What a commissioning pipeline relies on

    While the commands of a pipeline on instance [inst_id] are in flight,
    the table keeps its size and its allocation, the instance keeps its
    configuration [p] (its timeout timer apart, which [Enable] may release),
    and its timers are live alarms, distinct from one another. *)

Definition same_config (q p : AdvertisingInstance) : Prop :=
  Inst.set_timeout_timer None q = Inst.set_timeout_timer None p.

Record pipeline_inv (N : Z) (flags : list bool) (inst_id : Z)
    (p : AdvertisingInstance) (m : manager) : Prop := {
  pi_count : inst_count m = N;
  pi_flags : in_use_flags m = flags;
  pi_inst : exists q,
      adv_inst m !! Z.to_nat inst_id = Some q /\ same_config q p /\
      forall t, Inst.timeout_timer q = Some t ->
                alive m t = true /\ t <> Inst.adv_raddr_timer p;
  pi_raddr : alive m (Inst.adv_raddr_timer p) = true
}.

(** The instance as [SetParameters] and the granted TX power leave it. *)
Definition configured (params : tBTM_BLE_ADV_PARAMS) (tx_power : Z)
    (p : AdvertisingInstance) : AdvertisingInstance :=
  Inst.set_tx_power tx_power
    (Inst.set_advertising_event_properties
       (uint8 (params_advertising_event_properties params)) p).

(** The command [SetParameters] issues for instance [p]. *)
Definition SetParameters_cmd (p : AdvertisingInstance)
    (params : tBTM_BLE_ADV_PARAMS) : hci_cmd :=
  Hci_SetParameters (Inst.inst_id p)
    (params_advertising_event_properties params)
    (adv_int_min params) (adv_int_max params) (channel_map params)
    (Inst.own_address_type p) (Inst.own_address p) 0x00 [0; 0; 0; 0; 0; 0]
    (adv_filter_policy params) (params_tx_power params)
    (primary_advertising_phy params) 0x01
    (secondary_advertising_phy params) 0x01
    (scan_request_notification_enable params).

(** The commands of [SetData] for a prepared payload. *)
Definition SetData_cmds (inst_id : Z) (is_scan_rsp : bool)
    (prepared : list Z) : list hci_cmd :=
  map (fragment_cmd (Bind_SetDataAdvDataSender is_scan_rsp) inst_id)
    (fragments prepared).

(** Section 4.8, StartAdvertising: steps 1 to 5 for instance [p], the
    payloads as [SetData] prepares them. *)
Definition StartAdvertising_script (inst_id : Z) (p : AdvertisingInstance)
    (params : tBTM_BLE_ADV_PARAMS) (adv scan : list Z) : list hci_cmd :=
  SetParameters_cmd p params
  :: Hci_SetRandomAddress inst_id (Inst.own_address p)
  :: SetData_cmds inst_id false adv
  ++ SetData_cmds inst_id true scan
  ++ [Hci_Enable true inst_id 0x0000 0x00].

(** Section 4.8, step 6 of StartAdvertisingSet: the periodic steps, when
    [periodic_params.enable] is set. *)
Definition periodic_cmds (inst_id : Z)
    (periodic_params : tBLE_PERIODIC_ADV_PARAMS) (periodic_data : list Z)
  : list hci_cmd :=
  if enable periodic_params then
    Hci_SetPeriodicAdvertisingParameters inst_id
      (min_interval periodic_params) (max_interval periodic_params)
      (periodic_advertising_properties periodic_params)
    :: map (fragment_cmd Bind_SetPeriodicAdvertisingData inst_id)
         (fragments periodic_data)
    ++ [Hci_SetPeriodicAdvertisingEnable 1 inst_id]
  else [].

(** Section 4.8, StartAdvertisingSet: steps 2 to 7 for the instance [p]
    that Register (step 1) has allocated. *)
Definition StartAdvertisingSet_script (inst_id : Z) (p : AdvertisingInstance)
    (params : tBTM_BLE_ADV_PARAMS) (adv scan : list Z)
    (periodic_params : tBLE_PERIODIC_ADV_PARAMS) (periodic_data : list Z)
  : list hci_cmd :=
  SetParameters_cmd p params
  :: Hci_SetRandomAddress inst_id (Inst.own_address p)
  :: SetData_cmds inst_id false adv
  ++ SetData_cmds inst_id true scan
  ++ periodic_cmds inst_id periodic_params periodic_data
  ++ [Hci_Enable true inst_id 0x0000 0x00].

(** The callback [Enable] queues with its command. *)
Definition Enable_callback (inst_id : Z) (cb : MultiAdvCb) (timeout_s : Z)
    (timeout_cb : MultiAdvCb) : MultiAdvCb :=
  if timeout_s =? 0 then cb
  else Bind_EnableWithTimerCb inst_id cb timeout_s timeout_cb.

(** Two instances with the same identity, address and configuration: all
    fields but [in_use] and the two timeout fields. *)
Definition same_setup (r p : AdvertisingInstance) : Prop :=
  Inst.inst_id r = Inst.inst_id p /\
  Inst.adv_raddr_timer r = Inst.adv_raddr_timer p /\
  Inst.own_address_type r = Inst.own_address_type p /\
  Inst.own_address r = Inst.own_address p /\
  Inst.advertising_event_properties r = Inst.advertising_event_properties p /\
  Inst.tx_power r = Inst.tx_power p.

(** What a failed [StartAdvertisingSet] leaves in the trace before anything
    else: the disable command and the cancelled address timer of
    [Unregister], then the caller's callback with (0, 0, status). *)
Definition compensation (inst_id : Z) (raddr_timer : alarm_ptr) (u : nat)
    (status : Z) : list effect :=
  [E_Hci (Hci_Enable false inst_id 0x00 0x00);
   E_alarm_cancel raddr_timer;
   E_IdTxPowerStatusCb u 0 0 status].

(** ** More states to run the model on *)

(** Instance [i] as [ReadInstanceCountCb] constructs it, its address timer
    being alarm [i]. *)
Definition demo_instance (i : nat) : AdvertisingInstance :=
  {| Inst.inst_id := Z.of_nat i; Inst.in_use := false;
     Inst.advertising_event_properties := 0; Inst.adv_raddr_timer := i;
     Inst.tx_power := 0; Inst.timeout_s := 0; Inst.timeout_timer := None;
     Inst.own_address_type := 0; Inst.own_address := [0; 0; 0; 0; 0; 0] |}.


(** Two sets under privacy, set 0 registered and its address generated. *)
Definition demo_privacy_registered : manager :=
  state_of (exec demo_privacy_platform
              [Ev_ReadInstanceCountCb 2;
               Ev_RegisterAdvertiser (UserRegisterCb 0);
               Ev_RpaGenerated (repeat 0xFF 8)]
              BleAdvertisingManagerImpl_new).

(** Periodic advertising asked for. *)
Definition demo_periodic : tBLE_PERIODIC_ADV_PARAMS :=
  {| enable := true; min_interval := 80; max_interval := 160;
     periodic_advertising_properties := 0 |}.

(** ** Tactics

    [monad] opens every operation of the monad at once; [mstep] opens the
    plumbing only and leaves [emit], [hci] and the alarm operations to their
    equations. *)
Ltac monad := unfold bind, ret, get, modify, emit, hci, lift, throw.
Ltac mstep := unfold bind, ret, get, lift, throw.


(** ** The timers the table owns

    Every instance owns its address timer and, while one is set, its
    timeout timer.  A manager is [sound] when it is well formed and no two
    of these handles are the same alarm. *)

Definition timers_of (p : AdvertisingInstance) : list alarm_ptr :=
  Inst.adv_raddr_timer p ::
  match Inst.timeout_timer p with
  | Some t => [t]
  | None => []
  end.

Definition timers (m : manager) : list alarm_ptr :=
  flat_map timers_of (adv_inst m).

Fixpoint distinct (l : list alarm_ptr) : bool :=
  match l with
  | [] => true
  | t :: l' => negb (existsb (Nat.eqb t) l') && distinct l'
  end.

Definition sound (m : manager) : bool := wf m && distinct (timers m).

(** The same as a proposition, with the address timers [R] of the table
    named: they are chosen when the table is built and never change. *)
Record Inv (R : list alarm_ptr) (m : manager) : Prop := {
  inv_sized : table_sized m;
  inv_count : inst_count m <= 255;
  inv_inst : forall i p, adv_inst m !! i = Some p ->
               Inst.inst_id p = Z.of_nat i /\
               length (Inst.own_address p) = BD_ADDR_LEN;
  inv_raddr : map Inst.adv_raddr_timer (adv_inst m) = R;
  inv_alive : forall t, In t (timers m) -> alive m t = true;
  inv_nodup : NoDup (timers m)
}.

(** Partial correctness of a computation of the manager. *)
Definition hoare {A} (pre : manager -> Prop) (c : M A)
    (post : A -> manager -> Prop) : Prop :=
  forall m a m', pre m -> c m = Ok (a, m') -> post a m'.

(** A computation that keeps an invariant. *)
Definition keeps {A} (I : manager -> Prop) (c : M A) : Prop :=
  hoare I c (fun _ => I).

(** Induction on the callbacks the manager binds, through the callbacks
    they run. *)
Section MultiAdvCb_induction.

Variable Q : MultiAdvCb -> Prop.
Hypothesis Q_DoNothing : Q DoNothing.
Hypothesis Q_User : forall u, Q (UserMultiAdvCb u).
Hypothesis Q_timeout_cb : forall cb inst_id, Q (Bind_timeout_cb cb inst_id).
Hypothesis Q_EnableWithTimerCb : forall inst_id enable_cb timeout_s timeout_cb,
  Q enable_cb -> Q (Bind_EnableWithTimerCb inst_id enable_cb timeout_s timeout_cb).
Hypothesis Q_DivideAndSendDataRecursively :
  forall isFirst inst_id data offset done_cb sender,
  Q done_cb ->
  Q (Bind_DivideAndSendDataRecursively isFirst inst_id data offset done_cb sender).
Hypothesis Q_StartAdvertising : forall c,
  Q (sa_cb c) ->
  Q (StartAdvertising_OnRandomAddress c) /\
  Q (StartAdvertising_OnAdvertiseData c) /\
  Q (StartAdvertising_OnScanResponseData c).
Hypothesis Q_StartAdvertisingSet : forall c,
  Q (StartAdvertisingSet_OnRandomAddress c) /\
  Q (StartAdvertisingSet_OnAdvertiseData c) /\
  Q (StartAdvertisingSet_OnScanResponseData c) /\
  Q (StartAdvertisingSet_OnPeriodicParameters c) /\
  Q (StartAdvertisingSet_OnPeriodicData c) /\
  Q (StartAdvertisingSet_OnPeriodicEnable c) /\
  Q (StartAdvertisingSet_OnEnable c).

Fixpoint MultiAdvCb_induction (cb : MultiAdvCb) : Q cb :=
  match cb with
  | DoNothing => Q_DoNothing
  | UserMultiAdvCb u => Q_User u
  | Bind_timeout_cb timeout_cb inst_id => Q_timeout_cb timeout_cb inst_id
  | Bind_EnableWithTimerCb inst_id enable_cb timeout_s timeout_cb =>
      Q_EnableWithTimerCb inst_id enable_cb timeout_s timeout_cb
        (MultiAdvCb_induction enable_cb)
  | Bind_DivideAndSendDataRecursively isFirst inst_id data offset done_cb sender =>
      Q_DivideAndSendDataRecursively isFirst inst_id data offset done_cb sender
        (MultiAdvCb_induction done_cb)
  | StartAdvertising_OnRandomAddress c =>
      proj1 (Q_StartAdvertising c (MultiAdvCb_induction (sa_cb c)))
  | StartAdvertising_OnAdvertiseData c =>
      proj1 (proj2 (Q_StartAdvertising c (MultiAdvCb_induction (sa_cb c))))
  | StartAdvertising_OnScanResponseData c =>
      proj2 (proj2 (Q_StartAdvertising c (MultiAdvCb_induction (sa_cb c))))
  | StartAdvertisingSet_OnRandomAddress c =>
      proj1 (Q_StartAdvertisingSet c)
  | StartAdvertisingSet_OnAdvertiseData c =>
      proj1 (proj2 (Q_StartAdvertisingSet c))
  | StartAdvertisingSet_OnScanResponseData c =>
      proj1 (proj2 (proj2 (Q_StartAdvertisingSet c)))
  | StartAdvertisingSet_OnPeriodicParameters c =>
      proj1 (proj2 (proj2 (proj2 (Q_StartAdvertisingSet c))))
  | StartAdvertisingSet_OnPeriodicData c =>
      proj1 (proj2 (proj2 (proj2 (proj2 (Q_StartAdvertisingSet c)))))
  | StartAdvertisingSet_OnPeriodicEnable c =>
      proj1 (proj2 (proj2 (proj2 (proj2 (proj2 (Q_StartAdvertisingSet c))))))
  | StartAdvertisingSet_OnEnable c =>
      proj2 (proj2 (proj2 (proj2 (proj2 (proj2 (Q_StartAdvertisingSet c))))))
  end.

End MultiAdvCb_induction.

(** [AdvertisingInstance(inst_id)] with address timer [t]. *)
Definition new_instance (inst_id : Z) (t : alarm_ptr) : AdvertisingInstance :=
  {| Inst.inst_id := inst_id; Inst.in_use := false;
     Inst.advertising_event_properties := 0; Inst.adv_raddr_timer := t;
     Inst.tx_power := 0; Inst.timeout_s := 0; Inst.timeout_timer := None;
     Inst.own_address_type := 0; Inst.own_address := [0; 0; 0; 0; 0; 0] |}.

(** A periodic alarm as [alarm_new_periodic] returns it. *)
Definition idle_periodic : option alarm_t :=
  Some {| is_periodic := true; deadline := None |}.

(** The manager once [ReadInstanceCountCb(n)] has run on the manager as
    constructed. *)
Definition constructed (n : nat) : manager :=
  {| adv_inst := map demo_instance (seq 0 n); adv_inst_capacity := n;
     inst_count := Z.of_nat n;
     alarms := repeat idle_periodic n; hci_queue := []; rpa_queue := [];
     trace := map E_alarm_new (seq 0 n) |}.

(** A field update that leaves an instance its identity, its timers and
    the size of its address. *)
Definition stable (f : AdvertisingInstance -> AdvertisingInstance) : Prop :=
  forall p,
    Inst.inst_id (f p) = Inst.inst_id p /\
    Inst.adv_raddr_timer (f p) = Inst.adv_raddr_timer p /\
    Inst.timeout_timer (f p) = Inst.timeout_timer p /\
    (length (Inst.own_address p) = BD_ADDR_LEN ->
     length (Inst.own_address (f p)) = BD_ADDR_LEN).

(** ** Calls of the API

    A callback handed in by a caller does nothing to the manager: it is a
    caller's tag, or [DoNothing]. *)
Definition caller_cb (cb : MultiAdvCb) : Prop :=
  cb = DoNothing \/ exists u, cb = UserMultiAdvCb u.

(** The calls of the public API that index the table inside its bounds
    only: [inst_id] is a [uint8_t]; [Unregister] forms the address of
    [adv_inst[inst_id]] before it checks [inst_id], so [inst_id] is one of
    the table; [RegisterAdvertiser], and [StartAdvertisingSet] through it,
    forms the address of [adv_inst[0]], so the table is not empty; the
    payload of [SetData] is one on which the TX power pass stays inside the
    vector. *)
Definition api_call (m : manager) (e : event) : Prop :=
  match e with
  | Ev_RegisterAdvertiser _ => 0 < inst_count m
  | Ev_Unregister inst_id => 0 <= inst_id < inst_count m
  | Ev_SetParameters inst_id _ (UserParametersCb _) => 0 <= inst_id
  | Ev_SetData inst_id is_scan_rsp data _ =>
      0 <= inst_id /\
      forall p, adv_inst m !! Z.to_nat inst_id = Some p ->
                exists d, SetData_prepare p is_scan_rsp data = Ok d
  | Ev_Enable inst_id _ cb _ _ => 0 <= inst_id /\ caller_cb cb
  | Ev_SetPeriodicAdvertisingParameters _ _ _ => True
  | Ev_SetPeriodicAdvertisingData _ _ _ => True
  | Ev_SetPeriodicAdvertisingEnable _ _ _ => True
  | Ev_StartAdvertising inst_id cb _ _ _ _ _ => 0 <= inst_id /\ caller_cb cb
  | Ev_StartAdvertisingSet _ _ _ _ _ _ _ _ => 0 < inst_count m
  | _ => False
  end.

(** The demo platform built with privacy support, privacy switched off. *)
Definition demo_privacy_off_platform : platform :=
  {| BLE_PRIVACY_SPT := true; BTM_BleLocalPrivacyEnabled := false;
     BTM_BLE_MULTI_ADV_FAILURE := 1;
     ADVERTISE_FAILED_TOO_MANY_ADVERTISERS := 2;
     BLE_ADDR_PUBLIC := 0; BLE_ADDR_RANDOM := 1;
     BTM_BLE_MULTI_ADV_MAX := 16;
     BTM_BLE_PRIVATE_ADDR_INT_MS := 900000;
     controller_address := [0x11; 0x22; 0x33; 0x44; 0x55; 0x66];
     BTM_GetDeviceIDRoot := repeat 0 16;
     SMP_Encrypt := fun _ _ => Some (repeat 0 16) |}.

(** ** Destruction

    [~BleAdvertisingManagerImpl()], run by [CleanUp]: [adv_inst.clear()],
    the instances destroyed in the order [order]. *)
Definition BleAdvertisingManagerImpl_delete
    (order : list AdvertisingInstance) : M unit :=
  destroy_instances order ;;
  modify (set_adv_inst []).

(** [alarm_free] on the alarms of a list, one after the other. *)
Fixpoint free_all (ts : list alarm_ptr) : M unit :=
  match ts with
  | [] => ret tt
  | t :: rest => alarm_free t ;; free_all rest
  end.

(** * Properties *)

Lemma geb_true (i n : Z) : n <= i -> (i >=? n) = true.
Proof. intros H. rewrite Z.geb_leb. now apply Z.leb_le. Qed.

Lemma geb_false (i n : Z) : i < n -> (i >=? n) = false.
Proof. intros H. rewrite Z.geb_leb. now apply Z.leb_gt. Qed.

Lemma inst_at_Some m i p :
  adv_inst m !! Z.to_nat i = Some p -> inst_at i m = Ok (p, m).
Proof. unfold inst_at. now intros ->. Qed.

Lemma inst_at_None m i :
  adv_inst m !! Z.to_nat i = None -> inst_at i m = Fault OutOfBounds.
Proof. unfold inst_at. now intros ->. Qed.

Lemma update_inst_Some m i f p :
  adv_inst m !! Z.to_nat i = Some p ->
  update_inst i f m = Ok (tt, set_adv_inst (<[Z.to_nat i := f p]> (adv_inst m)) m).
Proof. unfold update_inst. now intros ->. Qed.

Lemma lookup_in_table m i :
  table_sized m -> 0 <= i < inst_count m ->
  exists p, adv_inst m !! Z.to_nat i = Some p.
Proof.
  intros Hs Hi. apply lookup_lt_is_Some_2. unfold table_sized in Hs. lia.
Qed.

Lemma lookup_out_of_table m i :
  table_sized m -> inst_count m <= i ->
  adv_inst m !! Z.to_nat i = None.
Proof.
  intros Hs Hi. apply lookup_ge_None_2. unfold table_sized in Hs. lia.
Qed.

Lemma steps_cons P e es m :
  steps P (e :: es) m = bind (step P e) (fun _ => steps P es) m.
Proof. reflexivity. Qed.

Lemma steps_app P a b m :
  steps P (a ++ b) m = bind (steps P a) (fun _ => steps P b) m.
Proof.
  revert m. induction a as [|e a IH]; intros m; simpl.
  - reflexivity.
  - unfold bind. unfold bind in IH.
    destruct (step P e m) as [[[] m']|]; [|reflexivity].
    apply IH.
Qed.

Lemma exec_nil P m : exec P [] m = Ok m.
Proof. reflexivity. Qed.

Lemma exec_cons P e es m m' :
  step P e m = Ok (tt, m') -> exec P (e :: es) m = exec P es m'.
Proof. intros H. unfold exec. simpl. unfold bind. now rewrite H. Qed.

Lemma exec_one P e m :
  exec P [e] m = match step P e m with
                 | Ok (_, m') => Ok m'
                 | Fault f => Fault f
                 end.
Proof.
  unfold exec. simpl. unfold bind.
  destruct (step P e m) as [[[] m']|]; reflexivity.
Qed.

Lemma exec_app P a b m :
  exec P (a ++ b) m = match exec P a m with
                      | Ok m' => exec P b m'
                      | Fault f => Fault f
                      end.
Proof.
  unfold exec. rewrite steps_app. unfold bind.
  destruct (steps P a m) as [[[] m']|]; reflexivity.
Qed.

(** ** The set-terminated handler reads the table unchecked *)

(** C10: [OnAdvertisingSetTerminated] reads [adv_inst[advertising_handle]]
    with no check against [inst_count]: on a table of [inst_count] entries
    the handler runs without an out-of-bounds access exactly when
    [advertising_handle < inst_count], and the event path itself (the
    dispatch of the controller event) faults for every larger handle. *)
Theorem OnAdvertisingSetTerminated_bounds P m status h ch n :
  table_sized m -> 0 <= h ->
  (h < inst_count m <->
   exists m', OnAdvertisingSetTerminated P status h ch n m = Ok (tt, m')) /\
  (inst_count m <= h ->
   step P (Ev_AdvertisingSetTerminated status h ch n) m = Fault OutOfBounds).
Proof.
  intros Hs Hh.
  assert (Hout : inst_count m <= h ->
            OnAdvertisingSetTerminated P status h ch n m = Fault OutOfBounds).
  { intros Hge. pose proof (lookup_out_of_table m h Hs Hge) as Hn.
    unfold OnAdvertisingSetTerminated. monad.
    destruct (BLE_PRIVACY_SPT P); [destruct (_ && _)|];
      rewrite ?(inst_at_None _ _ Hn); simpl; rewrite ?(inst_at_None _ _ Hn);
      reflexivity. }
  split; [split|exact Hout].
  - intros Hlt. destruct (lookup_in_table m h Hs (conj Hh Hlt)) as [p Hp].
    unfold OnAdvertisingSetTerminated. monad.
    assert (Hupd : forall t, adv_inst (set_trace t m) !! Z.to_nat h = Some p)
      by (intros; exact Hp).
    destruct (BLE_PRIVACY_SPT P); [destruct (_ && _)|];
      rewrite ?(inst_at_Some _ _ _ Hp); simpl;
      rewrite ?(inst_at_Some _ _ _ (Hupd _)), ?(inst_at_Some _ _ _ Hp);
      destruct (Inst.in_use p); try (eexists; reflexivity);
      destruct (_ =? 0); try (eexists; reflexivity);
      unfold update_inst; simpl; rewrite Hp; eexists; reflexivity.
  - intros [m' Hm'].
    destruct (Z.lt_ge_cases h (inst_count m)) as [|Hge]; [assumption|].
    rewrite (Hout Hge) in Hm'. discriminate.
Qed.

Lemma OnAdvertisingSetTerminated_bounds_witness :
  (1 < inst_count demo_two_free <->
   exists m', OnAdvertisingSetTerminated demo_platform 0 1 0x40 0 demo_two_free
              = Ok (tt, m')) /\
  (inst_count demo_two_free <= 1 ->
   step demo_platform (Ev_AdvertisingSetTerminated 0 1 0x40 0) demo_two_free
   = Fault OutOfBounds).
Proof.
  apply (OnAdvertisingSetTerminated_bounds demo_platform demo_two_free 0 1 0x40 0).
  - reflexivity.
  - lia.
Defined.

(** ** Calls on an invalid or unused instance *)

Lemma DivideAndSendData_keeps_table P inst_id data cb sender m m' :
  DivideAndSendData P inst_id data cb sender m = Ok (tt, m') ->
  adv_inst m' = adv_inst m.
Proof.
  unfold DivideAndSendData, DivideAndSendData_open,
    DivideAndSendDataRecursively_open. simpl.
  unfold Run_DataSender, SetDataAdvDataSender.
  destruct sender as [[|]|]; monad; simpl; intros [= <-]; reflexivity.
Qed.

(** C9, as the code has it: with [inst_id >= inst_count] each of [Enable],
    [SetParameters] and [SetData] returns at once, leaving the whole
    manager as it was, and runs no callback; with a valid [inst_id] whose
    instance is not in use, [Enable] and [SetParameters] do nothing but run
    the callback with [BTM_BLE_MULTI_ADV_FAILURE] (a caller's callback is
    recorded and the table is unchanged), and [SetData] changes no
    instance. *)
Theorem rejected_calls P m inst_id :
  (inst_count m <= inst_id ->
   (forall enable cb timeout_s timeout_cb,
      Enable P inst_id enable cb timeout_s timeout_cb m = Ok (tt, m)) /\
   (forall params cb, SetParameters P inst_id params cb m = Ok (tt, m)) /\
   (forall is_scan_rsp data cb,
      SetData P inst_id is_scan_rsp data cb m = Ok (tt, m))) /\
  (forall p,
   inst_id < inst_count m ->
   adv_inst m !! Z.to_nat inst_id = Some p -> Inst.in_use p = false ->
   (forall enable cb timeout_s timeout_cb,
      Enable P inst_id enable cb timeout_s timeout_cb m
      = Run P cb (BTM_BLE_MULTI_ADV_FAILURE P) m) /\
   (forall enable u timeout_s timeout_cb,
      Enable P inst_id enable (UserMultiAdvCb u) timeout_s timeout_cb m
      = Ok (tt, set_trace (trace m ++
                 [E_MultiAdvCb u (BTM_BLE_MULTI_ADV_FAILURE P)]) m)) /\
   (forall params cb,
      SetParameters P inst_id params cb m
      = Run_ParametersCb P cb (BTM_BLE_MULTI_ADV_FAILURE P) 0 m) /\
   (forall params u,
      SetParameters P inst_id params (UserParametersCb u) m
      = Ok (tt, set_trace (trace m ++
                 [E_ParametersCb u (BTM_BLE_MULTI_ADV_FAILURE P) 0]) m)) /\
   (forall is_scan_rsp data cb m',
      SetData P inst_id is_scan_rsp data cb m = Ok (tt, m') ->
      adv_inst m' = adv_inst m)).
Proof.
  split.
  - intros Hge. repeat split; intros;
      unfold Enable, Enable_open, SetParameters, SetData, SetData_open;
      monad; rewrite (geb_true _ _ Hge); reflexivity.
  - intros p Hlt Hp Hfree.
    assert (HE : forall enable cb timeout_s timeout_cb,
               Enable P inst_id enable cb timeout_s timeout_cb m
               = Run P cb (BTM_BLE_MULTI_ADV_FAILURE P) m).
    { intros. unfold Enable, Enable_open. monad.
      rewrite (geb_false _ _ Hlt), (inst_at_Some _ _ _ Hp), Hfree.
      reflexivity. }
    assert (HS : forall params cb,
               SetParameters P inst_id params cb m
               = Run_ParametersCb P cb (BTM_BLE_MULTI_ADV_FAILURE P) 0 m).
    { intros. unfold SetParameters. monad.
      rewrite (geb_false _ _ Hlt), (inst_at_Some _ _ _ Hp), Hfree.
      reflexivity. }
    repeat split.
    + exact HE.
    + intros. rewrite HE. reflexivity.
    + exact HS.
    + intros. rewrite HS. reflexivity.
    + intros is_scan_rsp data cb m'. unfold SetData, SetData_open. monad.
      rewrite (geb_false _ _ Hlt), (inst_at_Some _ _ _ Hp).
      destruct (SetData_prepare p is_scan_rsp data) as [d|]; [|discriminate].
      apply (DivideAndSendData_keeps_table P inst_id d cb).
Qed.

Lemma rejected_calls_witness :
  Enable demo_platform 2 true (UserMultiAdvCb 7) 0 DoNothing demo_two_free
  = Ok (tt, demo_two_free) /\
  Enable demo_platform 1 true (UserMultiAdvCb 7) 0 DoNothing demo_two_free
  = Ok (tt, set_trace (trace demo_two_free ++ [E_MultiAdvCb 7 1]) demo_two_free).
Proof.
  split.
  - apply (rejected_calls demo_platform demo_two_free 2). vm_compute.
    discriminate.
  - pose proof (rejected_calls demo_platform demo_two_free 1) as [_ H].
    destruct (demo_two_free.(adv_inst) !! 1%nat) as [p|] eqn:Hp;
      [|vm_compute in Hp; discriminate].
    apply (H p); [reflexivity | exact Hp |].
    vm_compute in Hp. injection Hp as <-. reflexivity.
Defined.

(** C9 as stated fails: with [inst_id = 2] on a table of two instances
    [Enable] changes nothing at all, so the caller's callback is not run with
    [BTM_BLE_MULTI_ADV_FAILURE]; and [SetData] on the unused instance 1 has
    its data sent to the controller instead of failing. *)
Lemma rejected_calls_counterexample :
  inst_count demo_two_free <= 2 /\
  exec demo_platform [Ev_Enable 2 true (UserMultiAdvCb 7) 0 DoNothing]
    demo_two_free = Ok demo_two_free /\
  ~ In (E_MultiAdvCb 7 (BTM_BLE_MULTI_ADV_FAILURE demo_platform))
       (trace demo_two_free) /\
  option_map Inst.in_use (adv_inst demo_two_free !! 1%nat) = Some false /\
  since (trace demo_two_free)
    (trace (state_of (exec demo_platform
                        [Ev_SetData 1 true [] (UserMultiAdvCb 7)]
                        demo_two_free)))
  = [E_Hci (Hci_SetScanResponseData 1 COMPLETE 0x01 0 [])].
Proof.
  repeat split.
  - vm_compute. discriminate.
  - vm_compute. intros [H|[H|[]]]; discriminate.
Qed.

(** ** Well-formedness, unpacked *)

Lemma insts_ok_lookup m l i0 i p :
  insts_ok m i0 l = true -> l !! i = Some p -> inst_ok m (i0 + i) p = true.
Proof.
  revert i0 i. induction l as [|q l IH]; intros i0 i H Hl; [discriminate|].
  simpl in H. apply andb_true_iff in H as [Hq Hrest].
  destruct i as [|i]; simpl in Hl.
  - injection Hl as <-. now rewrite Nat.add_0_r.
  - replace (i0 + S i)%nat with (S i0 + i)%nat by lia. now apply IH.
Qed.

Lemma wf_sized m : wf m = true -> table_sized m.
Proof.
  unfold wf, table_sized. intros H.
  apply andb_true_iff in H as [H _]. apply andb_true_iff in H as [H _].
  now apply Z.eqb_eq.
Qed.

Lemma wf_count m : wf m = true -> inst_count m <= 255.
Proof.
  unfold wf. intros H.
  apply andb_true_iff in H as [H _]. apply andb_true_iff in H as [_ H].
  now apply Z.leb_le.
Qed.

Lemma wf_inst m i p :
  wf m = true -> adv_inst m !! i = Some p -> inst_ok m i p = true.
Proof.
  unfold wf. intros H Hp. apply andb_true_iff in H as [_ H].
  exact (insts_ok_lookup m _ 0 i p H Hp).
Qed.

Lemma wf_inst_id m i p :
  wf m = true -> adv_inst m !! i = Some p -> Inst.inst_id p = Z.of_nat i.
Proof.
  intros H Hp. pose proof (wf_inst m i p H Hp) as Hok. unfold inst_ok in Hok.
  repeat (apply andb_true_iff in Hok as [Hok _]). now apply Z.eqb_eq.
Qed.

(** ** Registration *)

Lemma since_app (t new : list effect) : since t (t ++ new) = new.
Proof. unfold since. now rewrite drop_app_length. Qed.

Lemma first_free_spec l i :
  first_free l = Some i ->
  (exists p, l !! i = Some p /\ Inst.in_use p = false) /\
  (forall j q, (j < i)%nat -> l !! j = Some q -> Inst.in_use q = true).
Proof.
  revert i. induction l as [|p l IH]; intros i H; [discriminate|].
  simpl in H. destruct (Inst.in_use p) eqn:Hp.
  - destruct (first_free l) as [k|]; [|discriminate]. injection H as <-.
    destruct (IH k eq_refl) as [Hk Hbefore]. split; [exact Hk|].
    intros [|j] q Hj Hq; simpl in Hq.
    + now injection Hq as <-.
    + apply (Hbefore j); [lia|exact Hq].
  - injection H as <-. split; [exists p; now split|]. intros j q Hj. lia.
Qed.

Lemma first_free_None l :
  first_free l = None <-> forallb Inst.in_use l = true.
Proof.
  induction l as [|p l IH]; simpl; [tauto|].
  destruct (Inst.in_use p); simpl.
  - rewrite <- IH. destruct (first_free l); simpl; split; congruence.
  - split; discriminate.
Qed.

Lemma RegisterAdvertiser_from_spec P cb n : forall i m,
  length (adv_inst m) = (i + n)%nat ->
  RegisterAdvertiser_from P n i cb m =
  match first_free (drop i (adv_inst m)) with
  | None =>
      Run_RegisterAdvertiserCb P cb 0xFF
        (ADVERTISE_FAILED_TOO_MANY_ADVERTISERS P) m
  | Some k =>
      match adv_inst m !! (i + k)%nat with
      | Some p => RegisterAdvertiser_slot P (i + k) p cb m
      | None => Fault OutOfBounds
      end
  end.
Proof.
  induction n as [|n IH]; intros i m Hlen.
  - rewrite drop_ge by lia. reflexivity.
  - destruct (lookup_lt_is_Some_2 (adv_inst m) i ltac:(lia)) as [p Hp].
    rewrite (drop_S _ _ _ Hp). simpl. unfold bind at 1.
    rewrite (inst_at_Some _ _ p) by (now rewrite Nat2Z.id).
    destruct (Inst.in_use p) eqn:Hu.
    + rewrite IH by lia. destruct (first_free (drop (S i) (adv_inst m))); simpl.
      * now replace (i + S n0)%nat with (S i + n0)%nat by lia.
      * reflexivity.
    + rewrite Nat.add_0_r, Hp. reflexivity.
Qed.

Lemma RegisterAdvertiser_spec P cb m :
  table_sized m -> 0 <= inst_count m ->
  RegisterAdvertiser P cb m =
  match first_free (adv_inst m) with
  | None =>
      Run_RegisterAdvertiserCb P cb 0xFF
        (ADVERTISE_FAILED_TOO_MANY_ADVERTISERS P) m
  | Some k =>
      match adv_inst m !! k with
      | Some p => RegisterAdvertiser_slot P k p cb m
      | None => Fault OutOfBounds
      end
  end.
Proof.
  intros Hs Hn. unfold RegisterAdvertiser, addr_of_inst. monad.
  change (Z.to_nat 0) with 0%nat.
  rewrite RegisterAdvertiser_from_spec by (unfold table_sized in Hs; lia).
  reflexivity.
Qed.

Lemma update_inst_modify m i f p :
  adv_inst m !! Z.to_nat i = Some p ->
  update_inst i f m = Ok (tt, modify_inst i f m).
Proof.
  intros Hp. unfold update_inst, modify_inst. rewrite Hp.
  do 3 f_equal. revert Hp. generalize (Z.to_nat i) as n. generalize (adv_inst m).
  induction l as [|q l IH]; intros [|n] Hp; try discriminate; simpl in *.
  - now injection Hp as ->.
  - f_equal. now apply IH.
Qed.

Lemma lookup_modify_inst m i f :
  adv_inst (modify_inst i f m) !! Z.to_nat i = f <$> adv_inst m !! Z.to_nat i.
Proof. unfold modify_inst. simpl. apply list_lookup_alter_eq. Qed.

Lemma lookup_modify_inst_Some m i f p :
  adv_inst m !! Z.to_nat i = Some p ->
  adv_inst (modify_inst i f m) !! Z.to_nat i = Some (f p).
Proof. intros H. now rewrite lookup_modify_inst, H. Qed.

Lemma in_use_flags_modify m i f p :
  adv_inst m !! Z.to_nat i = Some p ->
  in_use_flags (modify_inst i f m)
  = <[Z.to_nat i := Inst.in_use (f p)]> (in_use_flags m).
Proof.
  unfold in_use_flags, modify_inst. simpl.
  generalize (Z.to_nat i) as n. generalize (adv_inst m).
  induction l as [|q l IH]; intros [|n] Hp; try discriminate; simpl in *.
  - now injection Hp as ->.
  - f_equal. now apply IH.
Qed.

Lemma in_use_flags_modify_same m i f :
  (forall p, Inst.in_use (f p) = Inst.in_use p) ->
  in_use_flags (modify_inst i f m) = in_use_flags m.
Proof.
  intros Hf. unfold in_use_flags, modify_inst. simpl.
  generalize (Z.to_nat i) as n. generalize (adv_inst m).
  induction l as [|q l IH]; intros [|n]; simpl; try reflexivity.
  - now rewrite Hf.
  - f_equal. apply IH.
Qed.

Lemma length_modify_inst m i f :
  length (adv_inst (modify_inst i f m)) = length (adv_inst m).
Proof. unfold modify_inst. simpl. apply length_alter. Qed.

Lemma in_use_flags_set_trace t m : in_use_flags (set_trace t m) = in_use_flags m.
Proof. reflexivity. Qed.

Lemma in_use_flags_set_rpa_queue q m :
  in_use_flags (set_rpa_queue q m) = in_use_flags m.
Proof. reflexivity. Qed.

Lemma in_use_flags_set_hci_queue q m :
  in_use_flags (set_hci_queue q m) = in_use_flags m.
Proof. reflexivity. Qed.

Lemma in_use_flags_set_alarms a m :
  in_use_flags (set_alarms a m) = in_use_flags m.
Proof. reflexivity. Qed.

Lemma since_same (t : list effect) : since t t = [].
Proof. unfold since. now rewrite drop_all. Qed.

Lemma allocated_le m : allocated m <= Z.of_nat (length (adv_inst m)).
Proof.
  unfold allocated. apply inj_le. generalize (adv_inst m).
  induction l as [|p l IH]; simpl; [lia|]. destruct (Inst.in_use p); simpl; lia.
Qed.

(** What [RegisterAdvertiser] does to the manager, whatever the callback:
    either nothing before the callback runs with (0xFF, TOO_MANY), or the
    first free slot is taken. *)
Lemma RegisterAdvertiser_slot_spec P i p cb m :
  adv_inst m !! i = Some p ->
  RegisterAdvertiser_slot P i p cb m =
  if BLE_PRIVACY_SPT P then
    if BTM_BleLocalPrivacyEnabled P then
      GenerateRpa (Inst.inst_id p) (RegisterAdvertiser_OnRpa i cb)
        (modify_inst (Z.of_nat i) (Inst.set_own_address_type (BLE_ADDR_RANDOM P))
           (modify_inst (Z.of_nat i) (Inst.set_in_use true) m))
    else Ok (tt, modify_inst (Z.of_nat i) (Inst.set_in_use true) m)
  else
    Run_RegisterAdvertiserCb P cb (Inst.inst_id p) BTM_BLE_MULTI_ADV_SUCCESS
      (modify_inst (Z.of_nat i)
         (Inst.set_own_address (take BD_ADDR_LEN (controller_address P)))
         (modify_inst (Z.of_nat i) (Inst.set_own_address_type (BLE_ADDR_PUBLIC P))
            (modify_inst (Z.of_nat i) (Inst.set_in_use true) m))).
Proof.
  intros Hp. rewrite <- (Nat2Z.id i) in Hp.
  unfold RegisterAdvertiser_slot. unfold bind at 1.
  rewrite (update_inst_modify _ _ _ _ Hp).
  pose proof (lookup_modify_inst_Some m _ (Inst.set_in_use true) _ Hp) as H1.
  destruct (BLE_PRIVACY_SPT P); [destruct (BTM_BleLocalPrivacyEnabled P)|].
  - unfold bind at 1. now rewrite (update_inst_modify _ _ _ _ H1).
  - reflexivity.
  - unfold bind at 1. rewrite (update_inst_modify _ _ _ _ H1).
    pose proof (lookup_modify_inst_Some _ _
      (Inst.set_own_address_type (BLE_ADDR_PUBLIC P)) _ H1) as H2.
    unfold bind at 1. now rewrite (update_inst_modify _ _ _ _ H2).
Qed.

(** C7: [RegisterAdvertiser] runs the callback with
    (0xFF, ADVERTISE_FAILED_TOO_MANY_ADVERTISERS) exactly when every instance
    of the table is in use, and then leaves the table alone; otherwise it
    marks the first free slot (every slot before it is in use) as in use and
    no other; the table keeps its [inst_count] entries, so no more than
    [inst_count] instances are ever allocated. *)
Theorem RegisterAdvertiser_allocation P m u :
  wf m = true ->
  exists m',
    RegisterAdvertiser P (CallerRegisterCb (UserRegisterCb u)) m = Ok (tt, m') /\
    (In (E_RegisterCb u 0xFF (ADVERTISE_FAILED_TOO_MANY_ADVERTISERS P))
        (since (trace m) (trace m'))
     <-> forallb Inst.in_use (adv_inst m) = true) /\
    match first_free (adv_inst m) with
    | None =>
        forallb Inst.in_use (adv_inst m) = true /\ adv_inst m' = adv_inst m
    | Some i =>
        in_use_flags m !! i = Some false /\
        (forall j, (j < i)%nat -> in_use_flags m !! j = Some true) /\
        in_use_flags m' = <[i := true]> (in_use_flags m)
    end /\
    inst_count m' = inst_count m /\
    length (adv_inst m') = length (adv_inst m) /\
    allocated m' <= inst_count m'.
Proof.
  intros Hwf. pose proof (wf_sized m Hwf) as Hs. pose proof (wf_count m Hwf) as Hc.
  assert (Hn : 0 <= inst_count m) by (rewrite Hs; lia).
  rewrite (RegisterAdvertiser_spec P _ m Hs Hn).
  destruct (first_free (adv_inst m)) as [i|] eqn:Hff.
  - destruct (first_free_spec _ _ Hff) as [[p [Hp Hfree]] Hbefore].
    rewrite Hp, (RegisterAdvertiser_slot_spec P i p _ m Hp).
    pose proof (wf_inst_id m i p Hwf Hp) as Hid.
    assert (Hlt : (i < length (adv_inst m))%nat) by (eapply lookup_lt_Some; eauto).
    assert (Hi : Z.of_nat i <> 0xFF) by (unfold table_sized in Hs; lia).
    assert (Hnot : forallb Inst.in_use (adv_inst m) <> true).
    { rewrite <- first_free_None, Hff. discriminate. }
    assert (Hflag : in_use_flags m !! i = Some false).
    { unfold in_use_flags. now rewrite list_lookup_fmap, Hp, <- Hfree. }
    assert (Hpre : forall j, (j < i)%nat -> in_use_flags m !! j = Some true).
    { intros j Hj. unfold in_use_flags. rewrite list_lookup_fmap.
      destruct (lookup_lt_is_Some_2 (adv_inst m) j ltac:(lia)) as [q Hq].
      rewrite Hq. simpl. f_equal. eapply Hbefore; eauto. }
    rewrite <- (Nat2Z.id i) in Hp.
    assert (Hset : in_use_flags (modify_inst (Z.of_nat i) (Inst.set_in_use true) m)
                   = <[i := true]> (in_use_flags m)).
    { rewrite (in_use_flags_modify _ _ _ _ Hp). now rewrite Nat2Z.id. }
    destruct (BLE_PRIVACY_SPT P); [destruct (BTM_BleLocalPrivacyEnabled P)|];
      eexists; (split; [reflexivity|]); simpl;
      rewrite ?since_app; repeat split;
      try exact Hflag; try exact Hpre;
      try (intros H; exfalso; first [exact (Hnot H) | simpl in H; intuition congruence]).
    all: rewrite ?since_same;
         repeat rewrite ?in_use_flags_set_trace, ?in_use_flags_set_rpa_queue;
         rewrite ?(in_use_flags_modify_same _ _
                     (Inst.set_own_address (take BD_ADDR_LEN (controller_address P)))),
           ?(in_use_flags_modify_same _ _
               (Inst.set_own_address_type (BLE_ADDR_PUBLIC P))),
           ?(in_use_flags_modify_same _ _
               (Inst.set_own_address_type (BLE_ADDR_RANDOM P)))
           by reflexivity;
         try exact Hset;
         try match goal with |- In _ [] -> _ => intros [] end;
         rewrite ?length_alter; try reflexivity.
    all: match goal with
         | |- allocated ?x <= _ =>
             etransitivity; [apply allocated_le|]; simpl;
             rewrite ?length_alter; unfold table_sized in Hs; lia
         end.
  - apply first_free_None in Hff as Hall.
    eexists. split; [reflexivity|]. simpl. rewrite since_app.
    repeat split; try assumption; try reflexivity.
    + intros _. exact Hall.
    + intros _. simpl. now left.
    + etransitivity; [apply allocated_le|]. simpl.
      unfold table_sized in Hs; lia.
Qed.

Lemma RegisterAdvertiser_allocation_witness :
  exists m',
    RegisterAdvertiser demo_platform (CallerRegisterCb (UserRegisterCb 3))
      demo_registered = Ok (tt, m') /\
    (In (E_RegisterCb 3 0xFF
           (ADVERTISE_FAILED_TOO_MANY_ADVERTISERS demo_platform))
        (since (trace demo_registered) (trace m'))
     <-> forallb Inst.in_use (adv_inst demo_registered) = true) /\
    match first_free (adv_inst demo_registered) with
    | None =>
        forallb Inst.in_use (adv_inst demo_registered) = true /\
        adv_inst m' = adv_inst demo_registered
    | Some i =>
        in_use_flags demo_registered !! i = Some false /\
        (forall j, (j < i)%nat -> in_use_flags demo_registered !! j = Some true) /\
        in_use_flags m' = <[i := true]> (in_use_flags demo_registered)
    end /\
    inst_count m' = inst_count demo_registered /\
    length (adv_inst m') = length (adv_inst demo_registered) /\
    allocated m' <= inst_count m'.
Proof.
  apply (RegisterAdvertiser_allocation demo_platform demo_registered 3).
  vm_compute. reflexivity.
Defined.

(** ** Resolvable private address *)

Lemma alter_as_insert {A} (f : A -> A) (l : list A) i x :
  l !! i = Some x -> alter f i l = <[i := f x]> l.
Proof.
  revert i. induction l as [|y l IH]; intros [|i] H; try discriminate;
    simpl in *.
  - now injection H as ->.
  - f_equal. now apply IH.
Qed.

Lemma modify_inst_modify m i f g :
  modify_inst i g (modify_inst i f m) = modify_inst i (fun p => g (f p)) m.
Proof.
  unfold modify_inst. simpl. unfold set_adv_inst. simpl. f_equal.
  apply list_alter_alter_eq.
Qed.

Lemma modify_inst_ext m i f g p :
  adv_inst m !! Z.to_nat i = Some p -> f p = g p ->
  modify_inst i f m = modify_inst i g m.
Proof.
  intros Hp Hfg. unfold modify_inst.
  now rewrite (alter_as_insert f _ _ _ Hp), (alter_as_insert g _ _ _ Hp), Hfg.
Qed.

Lemma resolvable_msb_bits r :
  0 <= r < 256 ->
  let b := uint8 (Z.lor (uint8 (Z.land r (Z.lnot BLE_RESOLVE_ADDR_MASK)))
                    BLE_RESOLVE_ADDR_MSB) in
  Z.testbit b 7 = false /\ Z.testbit b 6 = true /\
  (forall k, 0 <= k < 6 -> Z.testbit b k = Z.testbit r k) /\
  0 <= b < 256.
Proof.
  intros Hr b. subst b. unfold uint8.
  change 256 with (2 ^ 8).
  assert (Hbit : forall k, 0 <= k < 8 ->
    Z.testbit (Z.lor (Z.land r (Z.lnot BLE_RESOLVE_ADDR_MASK) mod 2 ^ 8)
                 BLE_RESOLVE_ADDR_MSB mod 2 ^ 8) k
    = (Z.testbit r k && negb (Z.testbit BLE_RESOLVE_ADDR_MASK k))
      || Z.testbit BLE_RESOLVE_ADDR_MSB k).
  { intros k Hk. rewrite Z.mod_pow2_bits_low by lia.
    rewrite Z.lor_spec, Z.mod_pow2_bits_low by lia.
    now rewrite Z.land_spec, Z.lnot_spec by lia. }
  repeat split.
  - rewrite Hbit by lia. simpl. now rewrite andb_false_r.
  - rewrite Hbit by lia. simpl. now rewrite orb_true_r.
  - intros k Hk. rewrite Hbit by lia.
    assert (Hc : k = 0 \/ k = 1 \/ k = 2 \/ k = 3 \/ k = 4 \/ k = 5) by lia.
    destruct Hc as [->|[->|[->|[->|[->| ->]]]]]; simpl;
      now rewrite andb_true_r, orb_false_r.
  - apply Z.mod_pos_bound. lia.
  - apply Z.mod_pos_bound. lia.
Qed.

(** The address [OnRpaGenerationComplete] builds, then the closure. *)
Lemma OnRpaGenerationComplete_run P m inst_id cb rand p output :
  adv_inst m !! Z.to_nat inst_id = Some p ->
  length (Inst.own_address p) = BD_ADDR_LEN ->
  length rand = 8%nat ->
  SMP_Encrypt P (BTM_GetDeviceIDRoot P)
    [at8 rand 0; at8 rand 1;
     uint8 (Z.lor (uint8 (Z.land (at8 rand 2) (Z.lnot BLE_RESOLVE_ADDR_MASK)))
              BLE_RESOLVE_ADDR_MSB)]
  = Some output ->
  OnRpaGenerationComplete P inst_id cb rand m
  = Run_Closure P cb
      (modify_inst inst_id
         (Inst.set_own_address (resolvable_address rand output)) m).
Proof.
  intros Hp Hlen Hrand Henc. unfold resolvable_address.
  set (b := uint8 (Z.lor (uint8 (Z.land (at8 rand 2)
                                   (Z.lnot BLE_RESOLVE_ADDR_MASK)))
                     BLE_RESOLVE_ADDR_MSB)) in *.
  destruct rand as [|r0 [|r1 [|r2 [|r3 [|r4 [|r5 [|r6 [|r7 [|]]]]]]]]];
    try discriminate.
  unfold OnRpaGenerationComplete. cbv zeta. fold b.
  change (take 3 (<[2%nat := b]> [r0; r1; r2; r3; r4; r5; r6; r7]))
    with [r0; r1; b].
  change (at8 [r0; r1; r2; r3; r4; r5; r6; r7] 0) with r0 in *.
  change (at8 [r0; r1; r2; r3; r4; r5; r6; r7] 1) with r1 in *.
  rewrite Henc.
  change (at8 (<[2%nat := b]> [r0; r1; r2; r3; r4; r5; r6; r7]) 0) with r0.
  change (at8 (<[2%nat := b]> [r0; r1; r2; r3; r4; r5; r6; r7]) 1) with r1.
  change (at8 (<[2%nat := b]> [r0; r1; r2; r3; r4; r5; r6; r7]) 2) with b.
  repeat (unfold bind at 1;
          erewrite update_inst_modify
            by (rewrite ?lookup_modify_inst; rewrite Hp; reflexivity)).
  rewrite !modify_inst_modify. f_equal.
  apply (modify_inst_ext _ _ _ _ p Hp).
  destruct p as [id u props rt tx ts tt ty addr]. simpl in *.
  destruct addr as [|a0 [|a1 [|a2 [|a3 [|a4 [|a5 [|]]]]]]]; try discriminate.
  reflexivity.
Qed.

(** C4, as the code has it: when the random bytes arrive and the encryption
    succeeds, [own_address[0..2]] hold the prand, most significant byte
    first ([own_address[0]] is [rand[2]] with bit 7 cleared and bit 6 set),
    [own_address[3..5]] hold the hash ([own_address[5]] is [param_buf[0]]),
    and it is with this address in place that the completion closure
    runs. *)
Theorem OnRpaGenerationComplete_layout P m inst_id cb rand p output :
  adv_inst m !! Z.to_nat inst_id = Some p ->
  length (Inst.own_address p) = BD_ADDR_LEN ->
  length rand = 8%nat ->
  0 <= at8 rand 2 < 256 ->
  let b := uint8 (Z.lor (uint8 (Z.land (at8 rand 2)
                                   (Z.lnot BLE_RESOLVE_ADDR_MASK)))
                    BLE_RESOLVE_ADDR_MSB) in
  SMP_Encrypt P (BTM_GetDeviceIDRoot P) [at8 rand 0; at8 rand 1; b]
  = Some output ->
  OnRpaGenerationComplete P inst_id cb rand m
  = Run_Closure P cb
      (modify_inst inst_id
         (Inst.set_own_address
            [b; at8 rand 1; at8 rand 0;
             at8 output 2; at8 output 1; at8 output 0]) m) /\
  Z.testbit b 7 = false /\ Z.testbit b 6 = true /\
  (forall k, 0 <= k < 6 -> Z.testbit b k = Z.testbit (at8 rand 2) k).
Proof.
  intros Hp Hlen Hrand Hr b Henc.
  destruct (resolvable_msb_bits _ Hr) as (H7 & H6 & Hlow & _).
  split; [|now repeat split].
  exact (OnRpaGenerationComplete_run P m inst_id cb rand p output
           Hp Hlen Hrand Henc).
Qed.

Lemma OnRpaGenerationComplete_layout_witness :
  OnRpaGenerationComplete demo_privacy_platform 0 (ConfigureRpa_OnRpa 0)
    (repeat 0xFF 8) demo_rpa_generated
  = Run_Closure demo_privacy_platform (ConfigureRpa_OnRpa 0)
      (modify_inst 0
         (Inst.set_own_address [0x7F; 0xFF; 0xFF; 0; 0; 0]) demo_rpa_generated) /\
  Z.testbit 0x7F 7 = false /\ Z.testbit 0x7F 6 = true /\
  (forall k, 0 <= k < 6 -> Z.testbit 0x7F k = Z.testbit 0xFF k).
Proof.
  destruct (adv_inst demo_rpa_generated !! 0%nat) as [p|] eqn:Hp;
    [|vm_compute in Hp; discriminate].
  apply (OnRpaGenerationComplete_layout demo_privacy_platform demo_rpa_generated
           0 (ConfigureRpa_OnRpa 0) (repeat 0xFF 8) p (repeat 0 16)).
  - exact Hp.
  - vm_compute in Hp. injection Hp as <-. reflexivity.
  - reflexivity.
  - cbn. lia.
  - reflexivity.
Defined.

(** C4 as stated fails: after the generation the masked prand byte 7F is
    [own_address[0]], bytes 0..2 are the prand and not the hash (which is
    00 00 00 here), bytes 3..5 are the hash, and bits 7 and 6 of
    [own_address[5]] are both clear. *)
Lemma rpa_layout_counterexample :
  own_address_of demo_rpa_generated 0 = [0x7F; 0xFF; 0xFF; 0; 0; 0] /\
  SMP_Encrypt demo_privacy_platform (BTM_GetDeviceIDRoot demo_privacy_platform)
    [0xFF; 0xFF; 0x7F] = Some (repeat 0 16) /\
  take 3 (own_address_of demo_rpa_generated 0) <> [0; 0; 0] /\
  drop 3 (own_address_of demo_rpa_generated 0) = [0; 0; 0] /\
  Z.testbit (nth 5 (own_address_of demo_rpa_generated 0) 0) 7 = false /\
  Z.testbit (nth 5 (own_address_of demo_rpa_generated 0) 0) 6 = false.
Proof. repeat split. vm_compute. discriminate. Qed.

(** ** One-step equations of the primitives *)

Lemma bind_Ok {A B} (x : M A) (f : A -> M B) m a m' :
  x m = Ok (a, m') -> bind x f m = f a m'.
Proof. unfold bind. now intros ->. Qed.

Lemma bind_Fault {A B} (x : M A) (f : A -> M B) m e :
  x m = Fault e -> bind x f m = Fault e.
Proof. unfold bind. now intros ->. Qed.

Lemma emit_run e m : emit e m = Ok (tt, set_trace (trace m ++ [e]) m).
Proof. reflexivity. Qed.

Lemma hci_run c cb m :
  hci c cb m = Ok (tt, set_hci_queue (hci_queue m ++ [(c, cb)])
                         (set_trace (trace m ++ [E_Hci c]) m)).
Proof. reflexivity. Qed.

Lemma get_run m : get m = Ok (m, m).
Proof. reflexivity. Qed.

Lemma ret_run {A} (a : A) m : ret a m = Ok (a, m).
Proof. reflexivity. Qed.

Lemma alarm_new_run m :
  alarm_new m
  = Ok (length (alarms m),
        set_trace (trace m ++ [E_alarm_new (length (alarms m))])
          (set_alarms (alarms m ++ [Some {| is_periodic := false;
                                            deadline := None |}]) m)).
Proof. reflexivity. Qed.

Lemma alarm_set_on_queue_run m a ms cb al :
  alarms m !! a = Some (Some al) ->
  alarm_set_on_queue a ms cb m
  = Ok (tt, set_trace (trace m ++ [E_alarm_set a ms])
              (set_alarms (<[a := Some {| is_periodic := is_periodic al;
                                          deadline := Some (ms, cb) |}]>
                             (alarms m)) m)).
Proof.
  intros H. unfold alarm_set_on_queue, with_alarm, bind. now rewrite H.
Qed.

Lemma alarm_cancel_run m a al :
  alarms m !! a = Some (Some al) ->
  alarm_cancel a m
  = Ok (tt, set_trace (trace m ++ [E_alarm_cancel a])
              (set_alarms (<[a := Some {| is_periodic := is_periodic al;
                                          deadline := None |}]>
                             (alarms m)) m)).
Proof. intros H. unfold alarm_cancel, with_alarm, bind. now rewrite H. Qed.

Lemma alarm_free_run m a al :
  alarms m !! a = Some (Some al) ->
  alarm_free a m
  = Ok (tt, set_trace (trace m ++ [E_alarm_free a])
              (set_alarms (<[a := None]> (alarms m)) m)).
Proof. intros H. unfold alarm_free, with_alarm, bind. now rewrite H. Qed.

(** ** Enable with a timeout *)


Lemma hci_complete_head P c cb rest status tx m :
  hci_queue m = (c, cb) :: rest ->
  hci_complete P status tx m = Run_hci_cb P cb status tx (set_hci_queue rest m).
Proof. intros H. unfold hci_complete. monad. now rewrite H. Qed.





(** ** Timers of a freed instance *)

(** C6 fails on the code: [Unregister] cancels the address timer only.
    After [Enable] with a 30 s timeout has completed, [Unregister(0)] leaves
    instance 0 free with its timeout timer still armed; the timer then
    disables whoever registers slot 0 next.  The same happens when the
    final Enable of [StartAdvertisingSet] is rejected: [EnableWithTimerCb]
    arms the timer after the failure callback has unregistered the slot. *)
Example Unregister_leaves_timeout_timer_armed :
  free_instances_idle demo_timed = true /\
  free_instances_idle demo_unregistered_timed = false /\
  option_map Inst.in_use (adv_inst demo_unregistered_timed !! 0%nat) = Some false /\
  option_map Inst.timeout_timer (adv_inst demo_unregistered_timed !! 0%nat)
  = Some (Some 2%nat) /\
  armed demo_unregistered_timed 2%nat = true /\
  armed demo_unregistered_timed 0%nat = false /\
  since (trace demo_unregistered_timed)
    (trace (state_of (exec demo_platform
       [Ev_RegisterAdvertiser (UserRegisterCb 9); Ev_AlarmExpired 2%nat]
       demo_unregistered_timed)))
  = [E_RegisterCb 9 0 0; E_alarm_cancel 2%nat; E_alarm_free 2%nat;
     E_Hci (Hci_Enable false 0 0x0000 0x00)] /\
  free_instances_idle demo_start_set_rejected = false /\
  since (trace demo_two_free) (trace demo_start_set_rejected)
  = [E_Hci (Hci_SetParameters 0 0x13 160 160 7 0
              [0x11; 0x22; 0x33; 0x44; 0x55; 0x66] 0 [0; 0; 0; 0; 0; 0] 0
              (-7) 1 1 1 1 0);
     E_Hci (Hci_SetRandomAddress 0 [0x11; 0x22; 0x33; 0x44; 0x55; 0x66]);
     E_Hci (Hci_SetAdvertisingData 0 COMPLETE 1 6 [2; 1; 2; 2; 0xFF; 0x42]);
     E_Hci (Hci_SetScanResponseData 0 COMPLETE 1 0 []);
     E_Hci (Hci_Enable true 0 0 0);
     E_Hci (Hci_Enable false 0 0 0); E_alarm_cancel 0%nat;
     E_IdTxPowerStatusCb 1 0 0 0x0C;
     E_alarm_new 2%nat; E_alarm_set 2%nat 30000].
Proof. repeat split. Qed.

(** ** SetData: flags structure and TX power *)

Lemma length_encode_fill_ad tx s :
  ad_ok s = true -> length (encode_ad (fill_ad tx s)) = length (encode_ad s).
Proof.
  unfold ad_ok, fill_ad, encode_ad. intros H.
  apply andb_true_iff in H as [_ H].
  destruct (ad_type s =? HCI_EIR_TX_POWER_LEVEL_TYPE); [|reflexivity].
  destruct (ad_value s); [discriminate|reflexivity].
Qed.

Lemma fill_tx_power_ads tx l : forall pre fuel,
  forallb ad_ok l = true ->
  (length (encode_ads l) <= fuel)%nat ->
  fill_tx_power fuel tx (length pre) (pre ++ encode_ads l)
  = Ok (pre ++ encode_ads (map (fill_ad tx) l)).
Proof.
  induction l as [|s l IH]; intros pre fuel Hok Hfuel.
  - simpl. rewrite app_nil_r.
    destruct fuel; simpl; now rewrite Nat.ltb_irrefl.
  - simpl in Hok. apply andb_true_iff in Hok as [Hs Hl].
    pose proof Hs as Hs'. unfold ad_ok in Hs'.
    apply andb_true_iff in Hs' as [Hlen Hval]. apply Nat.ltb_lt in Hlen.
    destruct s as [ty val]. simpl in Hlen, Hval.
    change (encode_ads ({| ad_type := ty; ad_value := val |} :: l))
      with (Z.of_nat (S (length val)) :: ty :: val ++ encode_ads l) in *.
    destruct fuel as [|fuel]; [simpl in Hfuel; lia|].
    assert (Hnext : forall val',
      length val' = length val ->
      match (pre ++ Z.of_nat (S (length val)) :: ty :: val' ++ encode_ads l)
              !! length pre with
      | Some len =>
          fill_tx_power fuel tx (length pre + Z.to_nat (len + 1))
            (pre ++ Z.of_nat (S (length val)) :: ty :: val' ++ encode_ads l)
      | None => Fault OutOfBounds
      end
      = Ok (pre ++ Z.of_nat (S (length val)) :: ty :: val'
              ++ encode_ads (map (fill_ad tx) l))).
    { intros val' Hval'. rewrite lookup_app_r by lia. rewrite Nat.sub_diag.
      simpl lookup. cbv beta iota.
      replace (length pre + Z.to_nat (Z.of_nat (S (length val)) + 1))%nat
        with (length (pre ++ Z.of_nat (S (length val)) :: ty :: val'))
        by (rewrite length_app; cbn [length]; lia).
      replace (pre ++ Z.of_nat (S (length val)) :: ty :: val' ++ encode_ads l)
        with ((pre ++ Z.of_nat (S (length val)) :: ty :: val') ++ encode_ads l)
        by (now rewrite <- app_assoc).
      rewrite (IH (pre ++ Z.of_nat (S (length val)) :: ty :: val') fuel Hl).
      - now rewrite <- app_assoc.
      - simpl in Hfuel. rewrite length_app in Hfuel. lia. }
    cbn [fill_tx_power].
    replace (length pre <? length (pre ++ Z.of_nat (S (length val)) :: ty :: val ++ encode_ads l))%nat
      with true by (symmetry; apply Nat.ltb_lt; rewrite length_app; simpl; lia).
    rewrite lookup_app_r by lia.
    replace (length pre + 1 - length pre)%nat with 1%nat by lia.
    cbn [lookup list_lookup].
    simpl map. unfold fill_ad at 1. simpl ad_type. simpl ad_value.
    destruct (ty =? HCI_EIR_TX_POWER_LEVEL_TYPE).
    + destruct val as [|v val]; [discriminate|].
      replace (length pre + 2 <? length (pre ++ Z.of_nat (S (length (v :: val))) :: ty :: (v :: val) ++ encode_ads l))%nat
        with true by (symmetry; apply Nat.ltb_lt; rewrite length_app; simpl; lia).
      rewrite insert_app_r_alt by lia.
      replace (length pre + 2 - length pre)%nat with 2%nat by lia.
      cbn [insert list_insert app tail].
      exact (Hnext (uint8 tx :: val) eq_refl).
    + exact (Hnext val eq_refl).
Qed.

(** C8: [SetData] with [is_scan_rsp = false] on an instance whose
    [advertising_event_properties] have bits 0x10 and 0x01 set puts the
    three bytes 02 01 v in front of the payload, v being 0x01 (limited
    discoverable) when the instance's [timeout_s] is non-zero and 0x02
    (general discoverable) otherwise; the walk over the AD structures,
    advancing by the length byte plus one, then replaces the first value
    byte of every structure of type 0x0A by the instance's [tx_power] (as a
    byte) and leaves every other byte alone; the result is what goes to the
    fragmenter. *)
Theorem SetData_flags_and_tx_power P m inst_id ads cb p :
  inst_id < inst_count m ->
  adv_inst m !! Z.to_nat inst_id = Some p ->
  Z.land (Inst.advertising_event_properties p) 0x10 <> 0 ->
  Z.land (Inst.advertising_event_properties p) 0x01 <> 0 ->
  forallb ad_ok ads = true ->
  let v := if Inst.timeout_s p =? 0 then BTM_GENERAL_DISCOVERABLE
           else BTM_LIMITED_DISCOVERABLE in
  let sent := [0x02; 0x01; v]
              ++ encode_ads (map (fill_ad (Inst.tx_power p)) ads) in
  SetData_prepare p false (encode_ads ads) = Ok sent /\
  SetData P inst_id false (encode_ads ads) cb m
  = DivideAndSendData P inst_id sent cb (Bind_SetDataAdvDataSender false) m.
Proof.
  intros Hlt Hp H10 H01 Hok v sent.
  assert (Hprep : SetData_prepare p false (encode_ads ads) = Ok sent).
  { unfold SetData_prepare, is_legacy_connectable.
    apply Z.eqb_neq in H10, H01. rewrite H10, H01. simpl negb. simpl andb.
    cbv iota.
    replace (if negb (Inst.timeout_s p =? 0) then BTM_LIMITED_DISCOVERABLE
             else BTM_GENERAL_DISCOVERABLE) with v
      by (unfold v; now destruct (Inst.timeout_s p =? 0)).
    change ([2; HCI_EIR_FLAGS_TYPE; v] ++ encode_ads ads)
      with ([] ++ encode_ads ({| ad_type := HCI_EIR_FLAGS_TYPE; ad_value := [v] |} :: ads)).
    change (fill_tx_power ?f ?t 0 ?d) with (fill_tx_power f t (length (@nil Z)) d).
    rewrite fill_tx_power_ads.
    - reflexivity.
    - simpl. now rewrite Hok.
    - simpl. lia. }
  split; [exact Hprep|].
  unfold SetData, SetData_open. mstep.
  now rewrite (geb_false _ _ Hlt), (inst_at_Some _ _ _ Hp), Hprep.
Qed.

Lemma SetData_flags_and_tx_power_witness :
  encode_ads demo_ads = [2; 0x0A; 0; 2; 0xFF; 0x42] /\
  SetData demo_platform 0 false (encode_ads demo_ads) (UserMultiAdvCb 5)
    demo_configured
  = DivideAndSendData demo_platform 0
      [0x02; 0x01; 0x02; 2; 0x0A; 249; 2; 0xFF; 0x42]
      (UserMultiAdvCb 5) (Bind_SetDataAdvDataSender false) demo_configured.
Proof.
  split; [reflexivity|].
  destruct (adv_inst demo_configured !! 0%nat) as [p|] eqn:Hp;
    [|vm_compute in Hp; discriminate].
  assert (Hp' : p = {| Inst.inst_id := 0; Inst.in_use := true;
                       Inst.advertising_event_properties := 0x13;
                       Inst.adv_raddr_timer := 0%nat; Inst.tx_power := -7;
                       Inst.timeout_s := 0; Inst.timeout_timer := None;
                       Inst.own_address_type := 0;
                       Inst.own_address := [0x11; 0x22; 0x33; 0x44; 0x55; 0x66] |})
    by (vm_compute in Hp; now injection Hp as <-).
  destruct (SetData_flags_and_tx_power demo_platform demo_configured 0
              demo_ads (UserMultiAdvCb 5) p) as [_ H].
  - reflexivity.
  - exact Hp.
  - subst p. vm_compute. discriminate.
  - subst p. vm_compute. discriminate.
  - reflexivity.
  - subst p. exact H.
Defined.

(** ** Chains of commands and completions *)

Lemma hci_commands_app t1 t2 :
  hci_commands (t1 ++ t2) = hci_commands t1 ++ hci_commands t2.
Proof. unfold hci_commands. apply flat_map_app. Qed.

Lemma callbacks_app t1 t2 : callbacks (t1 ++ t2) = callbacks t1 ++ callbacks t2.
Proof. unfold callbacks. apply List.filter_app. Qed.

Lemma bind_ret_tt (x : M unit) m : bind x (fun _ => ret tt) m = x m.
Proof. unfold bind, ret. destruct (x m) as [[[] m']|]; reflexivity. Qed.

Section Chain.

Context (P : platform) (I : manager -> Prop) (F : Z -> M unit)
  (fin : MultiAdvCb).

Hypothesis I_queue : forall m q, I m -> I (set_hci_queue q m).

Lemma chain_ext k k' script :
  (forall s m, Run P k s m = Run P k' s m) ->
  chain P I F fin k' script -> chain P I F fin k script.
Proof.
  intros Heq Hc. destruct Hc as [k' Hfin | k' c k'' script Hfail Hok Hrest].
  - apply chain_end. intros s m. now rewrite Heq.
  - apply (chain_step P I F fin k c k'' script).
    + intros s m Hs Hm. rewrite Heq. now apply Hfail.
    + intros m Hm. rewrite Heq. now apply Hok.
    + exact Hrest.
Qed.

(** Completing the command in flight with a status other than 0. *)
Lemma chain_fail k c script c0 m s tx :
  chain P I F fin k (c :: script) -> I m ->
  hci_queue m = [(c0, OnStatus k)] -> s <> 0 ->
  hci_complete P s tx m = F s (set_hci_queue [] m).
Proof.
  intros Hc Hm Hq Hs. inversion Hc as [|k0 c1 k' script' Hfail Hok Hrest]; subst.
  erewrite hci_complete_head by exact Hq. simpl.
  apply Hfail; [exact Hs|]. now apply I_queue.
Qed.

(** Completing the last command of the chain. *)
Lemma chain_finish k c0 m s tx :
  chain P I F fin k [] -> hci_queue m = [(c0, OnStatus k)] ->
  hci_complete P s tx m = Run P fin s (set_hci_queue [] m).
Proof.
  intros Hc Hq. inversion Hc as [k0 Hfin|]; subst.
  erewrite hci_complete_head by exact Hq. simpl. apply Hfin.
Qed.

(** [n] completions with status 0: the next [n] commands of the script are
    issued, in order, and no callback of a caller runs. *)
Lemma chain_run tx n : forall k script c0 m,
  chain P I F fin k script -> (n <= length script)%nat -> I m ->
  hci_queue m = [(c0, OnStatus k)] ->
  exists m',
    steps P (completions n tx) m = Ok (tt, m') /\
    hci_commands (trace m') = hci_commands (trace m) ++ take n script /\
    callbacks (trace m') = callbacks (trace m) /\
    I m' /\
    exists c' k', hci_queue m' = [(c', OnStatus k')] /\
                  chain P I F fin k' (drop n script).
Proof.
  induction n as [|n IH]; intros k script c0 m Hc Hn Hm Hq.
  - exists m. simpl. rewrite app_nil_r. repeat split; try assumption.
    exists c0, k. now rewrite drop_0.
  - destruct Hc as [|k c k' script Hfail Hok Hrest]; [simpl in Hn; lia|].
    destruct (Hok (set_hci_queue [] m) (I_queue _ _ Hm))
      as (m1 & Hrun & Hq1 & Hc1 & Hb1 & Hm1).
    simpl in Hq1, Hc1, Hb1.
    destruct (IH k' script c m1 Hrest ltac:(simpl in Hn; lia) Hm1 Hq1)
      as (m' & Hsteps & Hc' & Hb' & Hm' & Hnext).
    exists m'. split; [|split; [|split; [|split]]].
    + unfold completions. simpl. unfold bind.
      erewrite hci_complete_head by exact Hq. simpl. rewrite Hrun.
      exact Hsteps.
    + rewrite Hc', Hc1. simpl. now rewrite <- app_assoc.
    + now rewrite Hb', Hb1.
    + exact Hm'.
    + exact Hnext.
Qed.

End Chain.

(** ** The data fragmenter *)

Lemma uint8_small l : 0 <= l < 256 -> uint8 l = l.
Proof. intros H. unfold uint8. now apply Z.mod_small. Qed.

Lemma later_fragments_nil fuel : later_fragments fuel [] = [].
Proof. now destruct fuel. Qed.

(** A call of [DivideAndSendDataRecursively] that sends: status 0 and either
    the first call or data left. *)
Lemma DivideAndSendDataRecursively_send done_cb_Run isFirst inst_id data offset
    done_cb sender m :
  0 <= offset <= Z.of_nat (length data) ->
  isFirst = true \/ offset <> Z.of_nat (length data) ->
  let rest := drop (Z.to_nat offset) data in
  let more := (251 <? length rest)%nat in
  let f := (if isFirst then (if more then FIRST else COMPLETE)
            else (if more then INTERMEDIATE else LAST),
            if more then take 251 rest else rest) in
  DivideAndSendDataRecursively_open done_cb_Run isFirst inst_id data offset
    done_cb sender 0 m
  = hci (fragment_cmd sender inst_id f)
        (OnStatus (Bind_DivideAndSendDataRecursively false inst_id data
                     (offset + Z.of_nat (length (snd f))) done_cb sender)) m.
Proof.
  intros Hoff Hgo rest more f.
  assert (Hlen : length rest = (length data - Z.to_nat offset)%nat)
    by apply length_drop.
  unfold DivideAndSendDataRecursively_open.
  replace (negb (0 =? 0) || negb isFirst && (offset =? Z.of_nat (length data)))
    with false.
  2:{ simpl. destruct Hgo as [-> | Hne]; [reflexivity|].
      apply Z.eqb_neq in Hne. rewrite Hne. now destruct isFirst. }
  replace (Z.of_nat (length data) - offset >? ADV_DATA_LEN_MAX) with more.
  2:{ unfold more, ADV_DATA_LEN_MAX. rewrite Z.gtb_ltb.
      destruct (251 <? length rest)%nat eqn:E.
      - apply Nat.ltb_lt in E. symmetry. apply Z.ltb_lt. lia.
      - apply Nat.ltb_ge in E. symmetry. apply Z.ltb_ge. lia. }
  cbv zeta.
  assert (Hchunk : length (snd f)
                   = Z.to_nat (if more then ADV_DATA_LEN_MAX
                               else Z.of_nat (length data) - offset)).
  { unfold f, more, ADV_DATA_LEN_MAX. simpl.
    destruct (251 <? length rest)%nat eqn:E.
    - apply Nat.ltb_lt in E. rewrite length_take. lia.
    - lia. }
  assert (Hsmall : 0 <= (if more then ADV_DATA_LEN_MAX
                         else Z.of_nat (length data) - offset) < 256).
  { unfold more, ADV_DATA_LEN_MAX.
    destruct (251 <? length rest)%nat eqn:E; [lia|].
    apply Nat.ltb_ge in E. lia. }
  rewrite (uint8_small _ Hsmall).
  assert (Htake : take (Z.to_nat (if more then ADV_DATA_LEN_MAX
                                  else Z.of_nat (length data) - offset))
                    (drop (Z.to_nat offset) data) = snd f).
  { unfold f, more, ADV_DATA_LEN_MAX. simpl. fold rest.
    destruct (251 <? length rest)%nat eqn:E; [reflexivity|].
    apply take_ge. lia. }
  assert (Hz : (if more then ADV_DATA_LEN_MAX
                else Z.of_nat (length data) - offset)
               = Z.of_nat (length (snd f))) by lia.
  unfold Run_DataSender, SetDataAdvDataSender, fragment_cmd.
  destruct sender as [[|]|]; rewrite ?Htake, Hz; reflexivity.
Qed.

Section ChainOfFragments.

Context (P : platform) (I : manager -> Prop) (F : Z -> M unit)
  (fin : MultiAdvCb).

Hypothesis I_hci : forall m c cb,
  I m -> I (set_hci_queue (hci_queue m ++ [(c, cb)])
              (set_trace (trace m ++ [E_Hci c]) m)).

(** What [hci] gives a step of a chain. *)
Lemma hci_is_step m c k :
  I m ->
  exists m',
    hci c (OnStatus k) m = Ok (tt, m') /\
    hci_queue m' = hci_queue m ++ [(c, OnStatus k)] /\
    hci_commands (trace m') = hci_commands (trace m) ++ [c] /\
    callbacks (trace m') = callbacks (trace m) /\
    I m'.
Proof.
  intros Hm. eexists. split; [apply hci_run|]. simpl.
  rewrite hci_commands_app, callbacks_app. simpl. rewrite app_nil_r.
  repeat split. now apply I_hci.
Qed.

(** The continuation of the fragmenter at [offset] sends what is left, a
    fragment per completion, and then behaves as [done_cb]. *)
Lemma chain_fragments inst_id data done_cb sender script :
  chain P I F fin done_cb script ->
  (forall s m, s <> 0 -> I m -> Run P done_cb s m = F s m) ->
  forall fuel offset,
  0 <= offset <= Z.of_nat (length data) ->
  (length (drop (Z.to_nat offset) data) <= fuel)%nat ->
  chain P I F fin
    (Bind_DivideAndSendDataRecursively false inst_id data offset done_cb sender)
    (map (fragment_cmd sender inst_id)
       (later_fragments fuel (drop (Z.to_nat offset) data)) ++ script).
Proof.
  intros Hdone Hfail.
  assert (Hend : forall offset, offset = Z.of_nat (length data) ->
    chain P I F fin
      (Bind_DivideAndSendDataRecursively false inst_id data offset done_cb
         sender) script).
  { intros offset ->. apply (chain_ext P I F fin _ done_cb); [|exact Hdone].
    intros s m. simpl. unfold DivideAndSendDataRecursively_open.
    rewrite Z.eqb_refl. simpl. now rewrite orb_true_r. }
  induction fuel as [|fuel IH]; intros offset Hoff Hlen.
  - simpl. apply Hend. rewrite length_drop in Hlen. lia.
  - destruct (drop (Z.to_nat offset) data) as [|x rest] eqn:Hrest.
    + simpl. apply Hend. apply (f_equal length) in Hrest.
      rewrite length_drop in Hrest. simpl in Hrest. lia.
    + assert (Hne : offset <> Z.of_nat (length data)).
      { intros ->. rewrite Nat2Z.id, drop_all in Hrest. discriminate. }
      pose proof (DivideAndSendDataRecursively_send (Run P done_cb) false
                    inst_id data offset done_cb sender) as Hsend.
      rewrite Hrest in Hsend. cbv zeta in Hsend.
      cbn [later_fragments].
      set (more := (251 <? length (x :: rest))%nat) in *.
      set (f := (if more then INTERMEDIATE else LAST,
                 if more then take 251 (x :: rest) else x :: rest)) in *.
      assert (Hnext : chain P I F fin
        (Bind_DivideAndSendDataRecursively false inst_id data
           (offset + Z.of_nat (length (snd f))) done_cb sender)
        (map (fragment_cmd sender inst_id)
           (later_fragments fuel (drop (length (snd f)) (x :: rest)))
         ++ script)).
      { assert (Hsnd : (length (snd f) <= length (x :: rest))%nat).
        { unfold f. cbn [snd]. destruct more; [|lia].
          rewrite length_take. lia. }
        assert (H0 : (0 < length (snd f))%nat).
        { unfold f. cbn [snd]. destruct more eqn:E; [|simpl; lia].
          rewrite length_take. simpl. lia. }
        pose proof (f_equal length Hrest) as Hl. rewrite length_drop in Hl.
        replace (drop (length (snd f)) (x :: rest))
          with (drop (Z.to_nat (offset + Z.of_nat (length (snd f)))) data).
        2:{ rewrite <- Hrest, drop_drop. f_equal. lia. }
        apply IH.
        - lia.
        - rewrite length_drop. cbn [length] in Hlen, Hl, H0, Hsnd. lia. }
      replace (map (fragment_cmd sender inst_id)
                 (if more
                  then (INTERMEDIATE, take 251 (x :: rest))
                       :: later_fragments fuel (drop 251 (x :: rest))
                  else [(LAST, x :: rest)]))
        with (fragment_cmd sender inst_id f
              :: map (fragment_cmd sender inst_id)
                   (later_fragments fuel (drop (length (snd f)) (x :: rest)))).
      2:{ unfold f. destruct more eqn:E; cbn [snd].
          - unfold more in E. apply Nat.ltb_lt in E.
            rewrite length_take.
            replace (251 `min` length (x :: rest))%nat with 251%nat by lia.
            reflexivity.
          - rewrite drop_all, later_fragments_nil. reflexivity. }
      simpl app.
      eapply chain_step; [| |exact Hnext].
      * intros s m Hs Hm. simpl. unfold DivideAndSendDataRecursively_open.
        pose proof Hs as Hs'. apply Z.eqb_neq in Hs'. rewrite Hs'. simpl.
        now apply Hfail.
      * intros m Hm. simpl.
        rewrite (Hsend m) by (auto; lia). now apply hci_is_step.
Qed.

(** [DivideAndSendData] sends the first fragment. *)
Lemma DivideAndSendData_first inst_id data done_cb sender m :
  DivideAndSendData P inst_id data done_cb sender m
  = hci (fragment_cmd sender inst_id (first_fragment data))
        (OnStatus (Bind_DivideAndSendDataRecursively false inst_id data
                     (Z.of_nat (length (snd (first_fragment data))))
                     done_cb sender)) m.
Proof.
  unfold DivideAndSendData, DivideAndSendData_open.
  rewrite DivideAndSendDataRecursively_send by (auto; lia).
  cbv zeta. rewrite drop_0. unfold first_fragment.
  destruct (251 <? length data)%nat; reflexivity.
Qed.

(** The continuation [DivideAndSendData] leaves behind sends the rest. *)
Lemma chain_after_first inst_id data done_cb sender script :
  chain P I F fin done_cb script ->
  (forall s m, s <> 0 -> I m -> Run P done_cb s m = F s m) ->
  chain P I F fin
    (Bind_DivideAndSendDataRecursively false inst_id data
       (Z.of_nat (length (snd (first_fragment data)))) done_cb sender)
    (map (fragment_cmd sender inst_id) (tail (fragments data)) ++ script).
Proof.
  intros Hdone Hfail. unfold fragments. simpl tail.
  assert (Hle : (length (snd (first_fragment data)) <= length data)%nat).
  { unfold first_fragment. destruct (251 <? length data)%nat; simpl; [|lia].
    rewrite length_take. lia. }
  replace (drop (length (snd (first_fragment data))) data)
    with (drop (Z.to_nat (Z.of_nat (length (snd (first_fragment data))))) data)
    by (now rewrite Nat2Z.id).
  apply chain_fragments; try assumption.
  - lia.
  - rewrite length_drop. lia.
Qed.

End ChainOfFragments.

Lemma later_fragments_spec fuel : forall rest,
  (length rest <= fuel)%nat -> rest <> [] ->
  exists mid last,
    later_fragments fuel rest = map (pair INTERMEDIATE) mid ++ [(LAST, last)] /\
    Forall (fun c => length c = 251%nat) mid /\
    (0 < length last <= 251)%nat /\
    concat mid ++ last = rest.
Proof.
  induction fuel as [|fuel IH]; intros rest Hlen Hne.
  - destruct rest; [congruence|simpl in Hlen; lia].
  - destruct rest as [|x rest]; [congruence|]. cbn [later_fragments].
    destruct (251 <? length (x :: rest))%nat eqn:E.
    + apply Nat.ltb_lt in E.
      destruct (IH (drop 251 (x :: rest))) as (mid & last & Heq & Hmid & Hlast & Hcat).
      * rewrite length_drop. lia.
      * intros H. apply (f_equal length) in H. rewrite length_drop in H.
        change (length (@nil Z)) with 0%nat in H. lia.
      * exists (take 251 (x :: rest) :: mid), last. repeat split.
        -- now rewrite Heq.
        -- constructor; [rewrite length_take; lia|exact Hmid].
        -- lia.
        -- lia.
        -- cbn [concat]. rewrite <- app_assoc, Hcat. apply take_drop.
    + apply Nat.ltb_ge in E. exists [], (x :: rest). repeat split.
      * constructor.
      * simpl. lia.
      * exact E.
Qed.

Lemma fragments_small data :
  (length data <= 251)%nat -> fragments data = [(COMPLETE, data)].
Proof.
  intros H. unfold fragments, first_fragment.
  replace (251 <? length data)%nat with false
    by (symmetry; now apply Nat.ltb_ge).
  cbn [snd]. now rewrite drop_all, later_fragments_nil.
Qed.

Lemma fragments_large data :
  (251 < length data)%nat ->
  exists mid last,
    fragments data
    = (FIRST, take 251 data) :: map (pair INTERMEDIATE) mid ++ [(LAST, last)] /\
    Forall (fun c => length c = 251%nat) mid /\
    (0 < length last <= 251)%nat /\
    take 251 data ++ concat mid ++ last = data.
Proof.
  intros H. unfold fragments, first_fragment.
  replace (251 <? length data)%nat with true
    by (symmetry; now apply Nat.ltb_lt).
  cbn [snd]. rewrite length_take.
  replace (251 `min` length data)%nat with 251%nat by lia.
  destruct (later_fragments_spec (length data) (drop 251 data))
    as (mid & last & Heq & Hmid & Hlast & Hcat).
  - rewrite length_drop. lia.
  - intros E. apply (f_equal length) in E. rewrite length_drop in E.
    change (length (@nil Z)) with 0%nat in E. lia.
  - exists mid, last. rewrite Heq, Hcat. repeat split; try assumption; try lia.
    apply take_drop.
Qed.

Lemma fragments_concat data : concat (map snd (fragments data)) = data.
Proof.
  destruct (Nat.le_gt_cases (length data) 251) as [H|H].
  - rewrite (fragments_small _ H). simpl. apply app_nil_r.
  - destruct (fragments_large _ H) as (mid & last & -> & _ & _ & Hcat).
    cbn [map concat snd]. rewrite map_app, concat_app. cbn [map concat snd].
    rewrite app_nil_r, map_map. cbn [snd]. rewrite map_id. exact Hcat.
Qed.

(** C3: the chunks [DivideAndSendData] hands to the sender, one per
    completion with status 0, are the fragments of the payload: their
    concatenation, in order, is the payload; a payload of at most 251 bytes
    (the empty one too) is one chunk tagged COMPLETE; a longer one is one
    FIRST, then INTERMEDIATE chunks, then one LAST, every chunk but the last
    of 251 bytes; and the completion of the last chunk runs [done_cb]. *)
Theorem DivideAndSendData_fragments P m inst_id data done_cb sender tx :
  hci_queue m = [] ->
  let fs := fragments data in
  (forall n, (n < length fs)%nat ->
     exists m_n,
       bind (DivideAndSendData P inst_id data done_cb sender)
         (fun _ => steps P (completions n tx)) m = Ok (tt, m_n) /\
       hci_commands (trace m_n)
       = hci_commands (trace m)
         ++ map (fragment_cmd sender inst_id) (take (S n) fs) /\
       callbacks (trace m_n) = callbacks (trace m) /\
       (S n = length fs ->
        forall s, hci_complete P s tx m_n
                  = Run P done_cb s (set_hci_queue [] m_n))) /\
  concat (map snd fs) = data /\
  ((length data <= 251)%nat -> fs = [(COMPLETE, data)]) /\
  ((251 < length data)%nat ->
   exists mid last,
     fs = (FIRST, take 251 data) :: map (pair INTERMEDIATE) mid
          ++ [(LAST, last)] /\
     Forall (fun c => length c = 251%nat) mid /\
     (0 < length last <= 251)%nat).
Proof.
  intros Hq fs.
  split; [|split; [apply fragments_concat|split; [apply fragments_small|]]].
  - intros n Hn.
    pose (I := fun _ : manager => True).
    assert (Hchain : chain P I (Run P done_cb) done_cb
              (Bind_DivideAndSendDataRecursively false inst_id data
                 (Z.of_nat (length (snd (first_fragment data)))) done_cb sender)
              (map (fragment_cmd sender inst_id) (tail fs) ++ [])).
    { apply chain_after_first; [easy| |easy].
      apply chain_end. reflexivity. }
    rewrite app_nil_r in Hchain.
    set (m0 := set_hci_queue
                 [(fragment_cmd sender inst_id (first_fragment data),
                   OnStatus (Bind_DivideAndSendDataRecursively false inst_id
                     data (Z.of_nat (length (snd (first_fragment data))))
                     done_cb sender))]
                 (set_trace (trace m ++ [E_Hci (fragment_cmd sender inst_id
                                                  (first_fragment data))]) m)).
    assert (Hfirst : DivideAndSendData P inst_id data done_cb sender m
                     = Ok (tt, m0)).
    { rewrite DivideAndSendData_first, hci_run. unfold m0. now rewrite Hq. }
    destruct (chain_run P I (Run P done_cb) done_cb ltac:(easy) tx n _ _
                (fragment_cmd sender inst_id (first_fragment data)) m0
                Hchain) as (m_n & Hrun & Hc & Hb & _ & c' & k' & Hq' & Hk').
    { rewrite length_map. unfold fs, fragments in Hn |- *. simpl in Hn |- *. lia. }
    { exact Logic.I. }
    { reflexivity. }
    exists m_n. repeat split.
    + unfold bind. now rewrite Hfirst.
    + rewrite Hc. unfold m0. simpl trace. rewrite hci_commands_app.
      rewrite <- app_assoc. f_equal. unfold fs, fragments.
      cbn [take map tail hci_commands flat_map app]. f_equal.
      now rewrite firstn_map.
    + rewrite Hb. unfold m0. simpl trace. rewrite callbacks_app. simpl.
      apply app_nil_r.
    + intros Hlast s.
      rewrite drop_ge in Hk'
        by (rewrite length_map; unfold fs, fragments in Hlast |- *;
            simpl in Hlast |- *; lia).
      eapply chain_finish; eauto.
  - intros H. destruct (fragments_large _ H) as (mid & last & ? & ? & ? & _).
    eauto.
Qed.

Lemma DivideAndSendData_fragments_witness :
  fragments (repeat 0xAB 300)
  = [(FIRST, repeat 0xAB 251); (LAST, repeat 0xAB 49)] /\
  concat (map snd (fragments (repeat 0xAB 300))) = repeat 0xAB 300.
Proof.
  split; [vm_compute; reflexivity|].
  apply (DivideAndSendData_fragments demo_platform demo_registered 0
           (repeat 0xAB 300) DoNothing (Bind_SetDataAdvDataSender false) 0).
  reflexivity.
Defined.

(** ** What the pipelines share *)

Lemma SetData_prepare_same_config q p is_scan_rsp data :
  same_config q p ->
  SetData_prepare q is_scan_rsp data = SetData_prepare p is_scan_rsp data.
Proof.
  intros H.
  change (SetData_prepare (Inst.set_timeout_timer None q) is_scan_rsp data
          = SetData_prepare (Inst.set_timeout_timer None p) is_scan_rsp data).
  now rewrite H.
Qed.

Lemma same_config_fields q p :
  same_config q p ->
  Inst.inst_id q = Inst.inst_id p /\ Inst.in_use q = Inst.in_use p /\
  Inst.adv_raddr_timer q = Inst.adv_raddr_timer p /\
  Inst.tx_power q = Inst.tx_power p /\
  Inst.own_address q = Inst.own_address p.
Proof.
  unfold same_config. intros H. destruct q, p. simpl in H.
  injection H as -> -> -> -> -> -> -> ->. now repeat split.
Qed.

Lemma same_config_setup q p x y :
  same_config q p ->
  same_setup (Inst.set_in_use false q) p /\
  same_setup (Inst.set_timeout_timer x
                (Inst.set_timeout_s y (Inst.set_in_use false q))) p.
Proof.
  unfold same_config, same_setup. intros H. destruct q, p. simpl in H.
  injection H as -> -> -> -> -> -> -> ->. now repeat split.
Qed.

Lemma map_in_use_alter (f : AdvertisingInstance -> AdvertisingInstance) i l :
  (forall q, Inst.in_use (f q) = Inst.in_use q) ->
  map Inst.in_use (alter f i l) = map Inst.in_use l.
Proof.
  intros Hf. revert i. induction l as [|q l IH]; intros [|i]; simpl;
    try reflexivity.
  - now rewrite Hf.
  - f_equal. apply IH.
Qed.

Lemma alive_insert_ne m a t v :
  a <> t -> alive (set_alarms (<[t := v]> (alarms m)) m) a = alive m a.
Proof.
  intros H. unfold alive. simpl. now rewrite list_lookup_insert_ne.
Qed.

Section Pipeline.

Context (P : platform) (N : Z) (flags : list bool) (inst_id : Z)
  (p : AdvertisingInstance).

Hypothesis Hrange : 0 <= inst_id < N.
Hypothesis Huse : Inst.in_use p = true.
Hypothesis Hid : Inst.inst_id p = inst_id.

Local Abbreviation I := (pipeline_inv N flags inst_id p).

Lemma I_queue m q : I m -> I (set_hci_queue q m).
Proof. intros [H1 H2 H3 H4]. now constructor. Qed.

Lemma I_hci m c cb :
  I m -> I (set_hci_queue (hci_queue m ++ [(c, cb)])
              (set_trace (trace m ++ [E_Hci c]) m)).
Proof. intros [H1 H2 H3 H4]. now constructor. Qed.

(** [Enable(inst_id, true, ...)] inside a pipeline issues the command and
    queues its callback; a timeout timer left on the instance is released
    first when no timeout is asked for. *)
Lemma Enable_issue cb_Run cb timeout_s timeout_cb m :
  I m ->
  exists m',
    Enable_open P cb_Run inst_id true cb timeout_s timeout_cb m = Ok (tt, m') /\
    hci_queue m' = hci_queue m
                   ++ [(Hci_Enable true inst_id 0x0000 0x00,
                        OnStatus (Enable_callback inst_id cb timeout_s timeout_cb))] /\
    hci_commands (trace m') = hci_commands (trace m)
                              ++ [Hci_Enable true inst_id 0x0000 0x00] /\
    callbacks (trace m') = callbacks (trace m) /\
    I m'.
Proof.
  intros [Hc Hf (q & Hq & Hsame & Htimer) Hr].
  destruct (same_config_fields q p Hsame) as (Hqid & Hquse & Hqr & _ & _).
  unfold Enable_open, Enable_callback. mstep.
  rewrite (geb_false inst_id (inst_count m)) by lia.
  rewrite (inst_at_Some _ _ _ Hq), Hquse, Huse, Hqid, Hid.
  destruct (timeout_s =? 0) eqn:Hts; cbn [negb andb]; cbv beta iota.
  - destruct (Inst.timeout_timer q) as [t|] eqn:Ht.
    + destruct (Htimer t eq_refl) as [Halive Hne].
      unfold alive in Halive.
      destruct (alarms m !! t) as [[al|]|] eqn:Hal; try discriminate.
      cbv beta iota.
      erewrite alarm_cancel_run by exact Hal.
      erewrite alarm_free_run
        by (simpl; apply list_lookup_insert_eq; eapply lookup_lt_Some; eauto).
      erewrite update_inst_modify by (simpl; exact Hq).
      rewrite hci_run. eexists. split; [reflexivity|].
      split; [reflexivity|]. split; [|split].
      * simpl. rewrite !hci_commands_app. simpl. now rewrite !app_nil_r.
      * simpl. rewrite !callbacks_app. simpl. now rewrite !app_nil_r.
      * constructor.
        -- exact Hc.
        -- unfold in_use_flags. simpl. now rewrite map_in_use_alter.
        -- exists (Inst.set_timeout_timer None q). simpl. split; [|split].
           ++ now rewrite list_lookup_alter_eq, Hq.
           ++ unfold same_config in *. destruct q. simpl in *. exact Hsame.
           ++ intros t' Ht'. discriminate.
        -- unfold alive in *. simpl.
           rewrite list_insert_insert_eq, list_lookup_insert_ne by congruence.
           exact Hr.
    + rewrite hci_run. eexists. split; [reflexivity|].
      split; [reflexivity|]. split; [|split].
      * simpl. rewrite hci_commands_app. reflexivity.
      * simpl. rewrite callbacks_app. simpl. now rewrite app_nil_r.
      * apply I_hci. constructor;
          [exact Hc | exact Hf
          | exists q; split; [exact Hq|split; [exact Hsame|]];
            intros t' Ht'; apply Htimer; congruence
          | exact Hr].
  - rewrite hci_run. eexists. split; [reflexivity|].
    split; [reflexivity|]. split; [|split].
    + simpl. rewrite hci_commands_app. reflexivity.
    + simpl. rewrite callbacks_app. simpl. now rewrite app_nil_r.
    + apply I_hci. constructor;
          [exact Hc | exact Hf
          | exists q; split; [exact Hq|split; [exact Hsame|]];
            intros t' Ht'; apply Htimer; congruence
          | exact Hr].
Qed.

(** [SetData] inside a pipeline hands the prepared payload to the
    fragmenter, which sends the first fragment. *)
Lemma SetData_issue cb_Run is_scan_rsp data cb prepared m :
  I m ->
  SetData_prepare p is_scan_rsp data = Ok prepared ->
  SetData_open cb_Run inst_id is_scan_rsp data cb m
  = hci (fragment_cmd (Bind_SetDataAdvDataSender is_scan_rsp) inst_id
           (first_fragment prepared))
        (OnStatus (Bind_DivideAndSendDataRecursively false inst_id prepared
                     (Z.of_nat (length (snd (first_fragment prepared))))
                     cb (Bind_SetDataAdvDataSender is_scan_rsp))) m.
Proof.
  intros [Hc Hf (q & Hq & Hsame & Htimer) Hr] Hprep.
  unfold SetData_open. mstep.
  rewrite (geb_false inst_id (inst_count m)) by lia.
  rewrite (inst_at_Some _ _ _ Hq), (SetData_prepare_same_config q p _ _ Hsame),
    Hprep.
  unfold DivideAndSendData_open.
  rewrite DivideAndSendDataRecursively_send by (auto; lia).
  cbv zeta. rewrite drop_0. unfold first_fragment.
  destruct (251 <? length prepared)%nat; reflexivity.
Qed.

(** [Unregister] inside a pipeline: the disable command, the address timer
    cancelled, the slot freed. *)
Lemma Unregister_run m :
  I m ->
  exists al,
    alarms m !! Inst.adv_raddr_timer p = Some (Some al) /\
    Unregister inst_id m
    = Ok (tt, modify_inst inst_id (Inst.set_in_use false)
                (set_trace (trace m ++ [E_Hci (Hci_Enable false inst_id 0x00 0x00);
                                        E_alarm_cancel (Inst.adv_raddr_timer p)])
                   (set_alarms
                      (<[Inst.adv_raddr_timer p :=
                           Some {| is_periodic := is_periodic al;
                                   deadline := None |}]> (alarms m))
                      (set_hci_queue
                         (hci_queue m ++ [(Hci_Enable false inst_id 0x00 0x00,
                                           OnStatus DoNothing)]) m)))).
Proof.
  intros [Hc Hf (q & Hq & Hsame & Htimer) Hr].
  destruct (same_config_fields q p Hsame) as (Hqid & Hquse & Hqr & _ & _).
  unfold alive in Hr.
  destruct (alarms m !! Inst.adv_raddr_timer p) as [[al|]|] eqn:Hal;
    try discriminate.
  exists al. split; [reflexivity|].
  unfold Unregister, addr_of_inst. mstep.
  rewrite (geb_false inst_id (inst_count m)) by lia.
  rewrite hci_run.
  erewrite inst_at_Some by (simpl; exact Hq). rewrite Hqr.
  erewrite alarm_cancel_run by (simpl; exact Hal).
  erewrite update_inst_modify by (simpl; exact Hq).
  unfold modify_inst, set_trace, set_alarms, set_hci_queue, set_adv_inst.
  simpl. rewrite <- app_assoc. reflexivity.
Qed.

End Pipeline.

(** ** The chain of StartAdvertising *)

Lemma SetData_cmds_first inst_id is_scan_rsp prepared :
  SetData_cmds inst_id is_scan_rsp prepared
  = fragment_cmd (Bind_SetDataAdvDataSender is_scan_rsp) inst_id
      (first_fragment prepared)
    :: map (fragment_cmd (Bind_SetDataAdvDataSender is_scan_rsp) inst_id)
         (tail (fragments prepared)).
Proof. reflexivity. Qed.

Section StartAdvertisingChain.

Context (P : platform) (N : Z) (flags : list bool)
  (c : StartAdvertising_CreatorParams MultiAdvCb)
  (p : AdvertisingInstance) (adv scan : list Z).

Hypothesis Hrange : 0 <= sa_inst_id c < N.
Hypothesis Huse : Inst.in_use p = true.
Hypothesis Hid : Inst.inst_id p = sa_inst_id c.
Hypothesis Hadv : SetData_prepare p false (sa_advertise_data c) = Ok adv.
Hypothesis Hscan : SetData_prepare p true (sa_scan_response_data c) = Ok scan.

Local Abbreviation I := (pipeline_inv N flags (sa_inst_id c) p).
Local Abbreviation F := (Run P (sa_cb c)).
Local Abbreviation fin :=
  (Enable_callback (sa_inst_id c) (sa_cb c) (sa_timeout_s c) (sa_timeout_cb c)).

Lemma StartAdvertising_lambda_fail k :
  k = StartAdvertising_OnRandomAddress c \/
  k = StartAdvertising_OnAdvertiseData c \/
  k = StartAdvertising_OnScanResponseData c ->
  forall s m, s <> 0 -> I m -> Run P k s m = F s m.
Proof.
  intros Hk s m Hs _. apply Z.eqb_neq in Hs.
  destruct Hk as [-> | [-> | ->]]; simpl;
    unfold StartAdvertising_random_address_cb,
      StartAdvertising_advertise_data_cb,
      StartAdvertising_scan_response_data_cb; now rewrite Hs.
Qed.

Lemma chain_OnScanResponseData :
  chain P I F fin (StartAdvertising_OnScanResponseData c)
    [Hci_Enable true (sa_inst_id c) 0x0000 0x00].
Proof.
  eapply chain_step.
  - apply StartAdvertising_lambda_fail. auto.
  - intros m Hm. simpl. unfold StartAdvertising_scan_response_data_cb. simpl.
    apply (Enable_issue P N flags (sa_inst_id c) p Hrange Huse Hid); exact Hm.
  - apply chain_end. reflexivity.
Qed.

Lemma chain_OnAdvertiseData :
  chain P I F fin (StartAdvertising_OnAdvertiseData c)
    (SetData_cmds (sa_inst_id c) true scan
     ++ [Hci_Enable true (sa_inst_id c) 0x0000 0x00]).
Proof.
  rewrite SetData_cmds_first. simpl app. eapply chain_step.
  - apply StartAdvertising_lambda_fail. auto.
  - intros m Hm. simpl. unfold StartAdvertising_advertise_data_cb. simpl.
    erewrite (SetData_issue N flags (sa_inst_id c) p Hrange) by eassumption.
    apply hci_is_step; [apply I_hci|exact Hm].
  - apply chain_after_first.
    + apply I_hci.
    + apply chain_OnScanResponseData.
    + apply StartAdvertising_lambda_fail. auto.
Qed.

Lemma chain_OnRandomAddress :
  chain P I F fin (StartAdvertising_OnRandomAddress c)
    (SetData_cmds (sa_inst_id c) false adv
     ++ SetData_cmds (sa_inst_id c) true scan
     ++ [Hci_Enable true (sa_inst_id c) 0x0000 0x00]).
Proof.
  rewrite (SetData_cmds_first _ false). simpl app. eapply chain_step.
  - apply StartAdvertising_lambda_fail. auto.
  - intros m Hm. simpl. unfold StartAdvertising_random_address_cb. simpl.
    erewrite (SetData_issue N flags (sa_inst_id c) p Hrange) by eassumption.
    apply hci_is_step; [apply I_hci|exact Hm].
  - apply chain_after_first.
    + apply I_hci.
    + apply chain_OnAdvertiseData.
    + apply StartAdvertising_lambda_fail. auto.
Qed.

End StartAdvertisingChain.

(** ** StartAdvertising, end to end *)

Lemma wf_inst_timers m i p :
  wf m = true -> adv_inst m !! i = Some p ->
  alive m (Inst.adv_raddr_timer p) = true /\
  forall t, Inst.timeout_timer p = Some t ->
            alive m t = true /\ t <> Inst.adv_raddr_timer p.
Proof.
  intros Hwf Hp. pose proof (wf_inst m i p Hwf Hp) as Hok. unfold inst_ok in Hok.
  apply andb_true_iff in Hok as [Hok Ht].
  apply andb_true_iff in Hok as [Hok _].
  apply andb_true_iff in Hok as [_ Hr].
  split; [exact Hr|]. intros t Heq. rewrite Heq in Ht.
  apply andb_true_iff in Ht as [Ha Hall]. split; [exact Ha|].
  rewrite forallb_forall in Hall.
  assert (Hin : In p (adv_inst m)).
  { apply list_elem_of_In, list_elem_of_lookup. eauto. }
  specialize (Hall p Hin). apply negb_true_iff, Nat.eqb_neq in Hall.
  congruence.
Qed.

(** The alarm part of [EnableWithTimerCb], after the enable callback. *)
Lemma EnableWithTimerCb_tail enable_cb_Run inst_id enable_cb timeout_s
    timeout_cb status m m1 q :
  enable_cb_Run status m = Ok (tt, m1) ->
  adv_inst m1 !! Z.to_nat inst_id = Some q ->
  let t := length (alarms m1) in
  EnableWithTimerCb_open enable_cb_Run inst_id enable_cb timeout_s timeout_cb
    status m
  = Ok (tt,
        set_trace (trace m1 ++ [E_alarm_new t;
                                E_alarm_set t
                                  (period_ms_t (int32 (timeout_s * 1000)))])
          (set_alarms
             (alarms m1 ++
              [Some {| is_periodic := false;
                       deadline := Some (period_ms_t (int32 (timeout_s * 1000)),
                         alarm_closure_cb
                           (Bind_Enable inst_id false timeout_cb 0 DoNothing)) |}])
             (modify_inst inst_id
                (fun a => Inst.set_timeout_timer (Some t)
                            (Inst.set_timeout_s timeout_s a)) m1))).
Proof.
  intros Hrun Hq t. unfold EnableWithTimerCb_open.
  erewrite bind_Ok by exact Hrun.
  erewrite bind_Ok by (eapply update_inst_modify; exact Hq).
  erewrite bind_Ok by apply alarm_new_run.
  erewrite bind_Ok
    by (eapply update_inst_modify; simpl; apply lookup_modify_inst_Some;
        exact Hq).
  unfold alarm_set_closure_on_queue.
  erewrite alarm_set_on_queue_run
    by (simpl; rewrite lookup_app_r by lia; rewrite Nat.sub_diag; reflexivity).
  unfold modify_inst, set_trace, set_alarms, set_adv_inst. simpl.
  rewrite <- !app_assoc. simpl.
  rewrite list_alter_alter_eq, insert_app_r_alt, Nat.sub_diag by lia.
  reflexivity.
Qed.

Lemma SetParameters_issue P m inst_id params cb p :
  inst_id < inst_count m ->
  adv_inst m !! Z.to_nat inst_id = Some p ->
  Inst.in_use p = true ->
  SetParameters P inst_id params cb m
  = Ok (tt,
        set_hci_queue
          (hci_queue m ++ [(SetParameters_cmd p params, OnStatusTxPower cb)])
          (set_trace (trace m ++ [E_Hci (SetParameters_cmd p params)])
             (modify_inst inst_id
                (fun a => Inst.set_tx_power (params_tx_power params)
                   (Inst.set_advertising_event_properties
                      (uint8 (params_advertising_event_properties params)) a))
                m))).
Proof.
  intros Hlt Hp Huse. unfold SetParameters. mstep.
  rewrite (geb_false _ _ Hlt), (inst_at_Some _ _ _ Hp), Huse. cbn [negb].
  erewrite update_inst_modify by exact Hp.
  erewrite update_inst_modify by (apply lookup_modify_inst_Some; exact Hp).
  rewrite modify_inst_modify.
  erewrite inst_at_Some by (apply lookup_modify_inst_Some; exact Hp).
  rewrite hci_run. reflexivity.
Qed.

Lemma hci_commands_snoc t c : hci_commands (t ++ [E_Hci c]) = hci_commands t ++ [c].
Proof. now rewrite hci_commands_app. Qed.

Lemma callbacks_snoc_hci t c : callbacks (t ++ [E_Hci c]) = callbacks t.
Proof. rewrite callbacks_app. simpl. apply app_nil_r. Qed.

Section StartAdvertisingRun.

Context (P : platform) (m : manager) (inst_id : Z) (u : nat)
  (params : tBTM_BLE_ADV_PARAMS) (advertise_data scan_response_data : list Z)
  (timeout_s : Z) (timeout_cb : MultiAdvCb) (tx : Z)
  (p : AdvertisingInstance) (adv scan : list Z).

Hypothesis Hwf : wf m = true.
Hypothesis Hquiet : hci_queue m = [].
Hypothesis Hpos : 0 <= inst_id.
Hypothesis Hp : adv_inst m !! Z.to_nat inst_id = Some p.
Hypothesis Huse : Inst.in_use p = true.
Hypothesis Hadv :
  SetData_prepare (configured params tx p) false advertise_data = Ok adv.
Hypothesis Hscan :
  SetData_prepare (configured params tx p) true scan_response_data = Ok scan.

Local Abbreviation c :=
  {| sa_inst_id := inst_id; sa_cb := UserMultiAdvCb u; sa_params := params;
     sa_advertise_data := advertise_data;
     sa_scan_response_data := scan_response_data;
     sa_timeout_s := timeout_s; sa_timeout_cb := timeout_cb |}.
Local Abbreviation script :=
  (StartAdvertising_script inst_id p params adv scan).
Local Abbreviation call :=
  (Ev_StartAdvertising inst_id (UserMultiAdvCb u) params advertise_data
     scan_response_data timeout_s timeout_cb).

Lemma StartAdvertising_facts :
  inst_id < inst_count m /\ Inst.inst_id p = inst_id /\
  alive m (Inst.adv_raddr_timer p) = true /\
  (forall t, Inst.timeout_timer p = Some t ->
             alive m t = true /\ t <> Inst.adv_raddr_timer p).
Proof.
  pose proof (wf_sized m Hwf) as Hs. unfold table_sized in Hs.
  pose proof (lookup_lt_Some _ _ _ Hp) as Hlt.
  pose proof (wf_inst_id m _ p Hwf Hp) as Hid.
  destruct (wf_inst_timers m _ p Hwf Hp) as [Hr Ht].
  repeat split; try assumption; try lia.
  - apply Ht; assumption.
  - apply Ht; assumption.
Qed.

(** The state with [SetParameters] in flight. *)
Local Abbreviation m1 :=
  (set_hci_queue
    [(SetParameters_cmd p params,
      OnStatusTxPower (StartAdvertising_OnParameters c))]
    (set_trace (trace m ++ [E_Hci (SetParameters_cmd p params)])
       (modify_inst inst_id
          (fun a => Inst.set_tx_power (params_tx_power params)
             (Inst.set_advertising_event_properties
                (uint8 (params_advertising_event_properties params)) a))
          m))).

(** The state with [SetRandomAddress] in flight. *)
Local Abbreviation m2 :=
  (set_hci_queue
    [(Hci_SetRandomAddress inst_id (Inst.own_address p),
      OnStatus (StartAdvertising_OnRandomAddress c))]
    (set_trace (trace m ++ [E_Hci (SetParameters_cmd p params);
                            E_Hci (Hci_SetRandomAddress inst_id
                                     (Inst.own_address p))])
       (modify_inst inst_id (fun _ => configured params tx p) m))).

Lemma StartAdvertising_call : step P call m = Ok (tt, m1).
Proof.
  destruct StartAdvertising_facts as (Hlt & _).
  simpl. unfold StartAdvertising. simpl.
  rewrite (SetParameters_issue P m inst_id params _ p Hlt Hp Huse).
  now rewrite Hquiet.
Qed.

Lemma StartAdvertising_parameters_done :
  step P (Ev_HciComplete 0 tx) m1 = Ok (tt, m2).
Proof.
  simpl. erewrite hci_complete_head by reflexivity. simpl.
  unfold StartAdvertising_parameters_cb. simpl.
  erewrite bind_Ok
    by (eapply update_inst_modify; simpl; apply lookup_modify_inst_Some;
        exact Hp).
  erewrite bind_Ok
    by (apply inst_at_Some; simpl; rewrite list_lookup_alter_eq;
        rewrite list_lookup_alter_eq; rewrite Hp; reflexivity).
  rewrite hci_run. unfold modify_inst, set_trace, set_hci_queue,
    set_adv_inst. simpl. rewrite <- app_assoc. simpl.
  rewrite list_alter_alter_eq. do 3 f_equal.
  apply list_alter_ext; [|reflexivity]. intros q Hq. rewrite Hp in Hq.
  injection Hq as <-. reflexivity.
Qed.

Lemma StartAdvertising_inv :
  pipeline_inv (inst_count m) (in_use_flags m) inst_id (configured params tx p) m2.
Proof.
  destruct StartAdvertising_facts as (Hlt & Hid & Hr & Ht).
  constructor.
  - reflexivity.
  - unfold in_use_flags. simpl.
    erewrite alter_as_insert by exact Hp.
    rewrite list_fmap_insert. simpl. rewrite Huse.
    rewrite <- Huse. apply list_insert_id. now rewrite list_lookup_fmap, Hp.
  - exists (configured params tx p). simpl. split; [|split].
    + now rewrite list_lookup_alter_eq, Hp.
    + reflexivity.
    + intros t Heq. apply Ht. exact Heq.
  - exact Hr.
Qed.

(** The last completion: [cb(status)], then the timer if one was asked. *)
Lemma StartAdvertising_finish s m' :
  pipeline_inv (inst_count m) (in_use_flags m) inst_id (configured params tx p) m' ->
  exists m'',
    Run P (Enable_callback inst_id (UserMultiAdvCb u) timeout_s timeout_cb) s
      (set_hci_queue [] m') = Ok (tt, m'') /\
    hci_commands (trace m'') = hci_commands (trace m') /\
    callbacks (trace m'') = callbacks (trace m') ++ [E_MultiAdvCb u s] /\
    hci_queue m'' = [].
Proof.
  intros [_ _ (q & Hq & _) _]. unfold Enable_callback.
  destruct (timeout_s =? 0).
  - eexists. split; [apply emit_run|]. simpl.
    rewrite hci_commands_app, callbacks_app. simpl. now rewrite app_nil_r.
  - simpl Run.
    erewrite EnableWithTimerCb_tail by (try apply emit_run; simpl; exact Hq).
    eexists. split; [reflexivity|]. simpl.
    rewrite !hci_commands_app, !callbacks_app. simpl.
    now rewrite !app_nil_r.
Qed.

Lemma StartAdvertising_ordered n :
  (n < length script)%nat ->
  exists m_n,
    exec P (call :: completions n tx) m = Ok m_n /\
    hci_commands (trace m_n) = hci_commands (trace m) ++ take (S n) script /\
    callbacks (trace m_n) = callbacks (trace m) /\
    (forall s, s <> 0 ->
       exists m', exec P [Ev_HciComplete s tx] m_n = Ok m' /\
         hci_commands (trace m') = hci_commands (trace m_n) /\
         callbacks (trace m') = callbacks (trace m) ++ [E_MultiAdvCb u s] /\
         hci_queue m' = []) /\
    (S n = length script ->
       exists m', exec P [Ev_HciComplete 0 tx] m_n = Ok m' /\
         hci_commands (trace m') = hci_commands (trace m_n) /\
         callbacks (trace m') = callbacks (trace m) ++ [E_MultiAdvCb u 0] /\
         hci_queue m' = []).
Proof.
  intros Hn. destruct StartAdvertising_facts as (Hlt & Hid & Hr & Ht).
  destruct n as [|n].
  - exists m1. split; [|split; [|split; [|split]]].
    + unfold completions. simpl repeat.
      rewrite (exec_cons _ _ _ _ _ StartAdvertising_call). apply exec_nil.
    + simpl trace. now rewrite hci_commands_snoc.
    + simpl trace. now rewrite callbacks_snoc_hci.
    + intros s Hs. rewrite exec_one. simpl step.
      erewrite hci_complete_head by reflexivity. simpl.
      unfold StartAdvertising_parameters_cb.
      apply Z.eqb_neq in Hs. rewrite Hs. cbn [negb]. rewrite emit_run.
      eexists. split; [reflexivity|]. simpl.
      rewrite !hci_commands_app, !callbacks_app. simpl.
      now rewrite !app_nil_r.
    + unfold StartAdvertising_script. simpl length.
      rewrite !length_app. simpl. lia.
  - set (rest := SetData_cmds inst_id false adv
                 ++ SetData_cmds inst_id true scan
                 ++ [Hci_Enable true inst_id 0x0000 0x00]).
    assert (Hscript : script = SetParameters_cmd p params
                               :: Hci_SetRandomAddress inst_id (Inst.own_address p)
                               :: rest) by reflexivity.
    assert (Hn' : (n <= length rest)%nat)
      by (rewrite Hscript in Hn; cbn [length] in Hn; lia).
    assert (Hrange : 0 <= sa_inst_id c < inst_count m) by (simpl; lia).
    pose proof (chain_OnRandomAddress P (inst_count m) (in_use_flags m) c
                  (configured params tx p) adv scan Hrange Huse Hid Hadv Hscan)
      as Hchain.
    destruct (chain_run P _ _ _
                (I_queue (inst_count m) (in_use_flags m) inst_id
                   (configured params tx p))
                tx n _ _ (Hci_SetRandomAddress inst_id (Inst.own_address p))
                m2 Hchain Hn' StartAdvertising_inv eq_refl)
      as (m_n & Hrun & Hc & Hb & Hinv & c' & k' & Hq' & Hk').
    change (SetData_cmds (sa_inst_id c) false adv
            ++ SetData_cmds (sa_inst_id c) true scan
            ++ [Hci_Enable true (sa_inst_id c) 0 0]) with rest in Hk', Hc.
    assert (Hb0 : callbacks (trace m_n) = callbacks (trace m)).
    { rewrite Hb. simpl trace. rewrite callbacks_app. simpl.
      apply app_nil_r. }
    exists m_n. split; [|split; [|split; [|split]]].
    + unfold completions. simpl repeat.
      rewrite (exec_cons _ _ _ _ _ StartAdvertising_call).
      rewrite (exec_cons _ _ _ _ _ StartAdvertising_parameters_done).
      unfold exec. fold (completions n tx). now rewrite Hrun.
    + rewrite Hc. simpl trace. rewrite hci_commands_app.
      rewrite <- app_assoc. now rewrite Hscript.
    + exact Hb0.
    + intros s Hs. rewrite exec_one. simpl step.
      destruct (drop n rest) as [|c'' rest'] eqn:Hdrop.
      * rewrite (chain_finish _ _ _ _ _ _ _ s tx Hk' Hq').
        cbn [sa_inst_id sa_cb sa_timeout_s sa_timeout_cb].
        destruct (StartAdvertising_finish s m_n Hinv)
          as (m'' & -> & Hc'' & Hb'' & Hq'').
        exists m''. rewrite Hb0 in Hb''. repeat split; assumption.
      * rewrite (chain_fail _ _ _ _
                   (I_queue (inst_count m) (in_use_flags m) inst_id
                      (configured params tx p))
                   _ _ _ _ _ s tx Hk' Hinv Hq' Hs).
        cbn [sa_cb Run]. rewrite emit_run.
        eexists. split; [reflexivity|]. simpl.
        rewrite hci_commands_app, callbacks_app, Hb0. simpl.
        now rewrite app_nil_r.
    + intros Hlast. rewrite exec_one. simpl step.
      rewrite drop_ge in Hk'
        by (rewrite Hscript in Hlast; cbn [length] in Hlast; lia).
      rewrite (chain_finish _ _ _ _ _ _ _ 0 tx Hk' Hq').
      cbn [sa_inst_id sa_cb sa_timeout_s sa_timeout_cb].
      destruct (StartAdvertising_finish 0 m_n Hinv)
        as (m'' & -> & Hc'' & Hb'' & Hq'').
      exists m''. rewrite Hb0 in Hb''. repeat split; assumption.
Qed.

End StartAdvertisingRun.

(** ** The chain of StartAdvertisingSet *)

Lemma DivideAndSendData_open_first done_cb_Run inst_id data done_cb sender m :
  DivideAndSendData_open done_cb_Run inst_id data done_cb sender m
  = hci (fragment_cmd sender inst_id (first_fragment data))
        (OnStatus (Bind_DivideAndSendDataRecursively false inst_id data
                     (Z.of_nat (length (snd (first_fragment data))))
                     done_cb sender)) m.
Proof.
  unfold DivideAndSendData_open.
  rewrite DivideAndSendDataRecursively_send by (auto; lia).
  cbv zeta. rewrite drop_0. unfold first_fragment.
  destruct (251 <? length data)%nat; reflexivity.
Qed.

Section StartAdvertisingSetChain.

Context (P : platform) (N : Z) (flags : list bool) (c : CreatorParams)
  (p : AdvertisingInstance) (adv scan : list Z).

Hypothesis Hrange : 0 <= c_inst_id c < N.
Hypothesis Huse : Inst.in_use p = true.
Hypothesis Hid : Inst.inst_id p = c_inst_id c.
Hypothesis Hadv : SetData_prepare p false (c_advertise_data c) = Ok adv.
Hypothesis Hscan : SetData_prepare p true (c_scan_response_data c) = Ok scan.

Local Abbreviation I := (pipeline_inv N flags (c_inst_id c) p).
Local Abbreviation F :=
  (fun s => Unregister (c_inst_id c) ;; Run_IdTxPowerStatusCb (c_cb c) 0 0 s).
Local Abbreviation fin :=
  (Enable_callback (c_inst_id c) (StartAdvertisingSet_OnEnable c)
     (c_timeout_s c) (Bind_timeout_cb (c_timeout_cb c) (c_inst_id c))).

Lemma StartAdvertisingSet_lambda_fail k :
  In k [StartAdvertisingSet_OnRandomAddress c;
        StartAdvertisingSet_OnAdvertiseData c;
        StartAdvertisingSet_OnScanResponseData c;
        StartAdvertisingSet_OnPeriodicParameters c;
        StartAdvertisingSet_OnPeriodicData c;
        StartAdvertisingSet_OnPeriodicEnable c;
        StartAdvertisingSet_OnEnable c] ->
  forall s m, s <> 0 -> I m -> Run P k s m = F s m.
Proof.
  intros Hk s m Hs _. apply Z.eqb_neq in Hs. simpl in Hk.
  repeat (destruct Hk as [<- | Hk]); try contradiction; simpl;
    unfold StartAdvertisingSet_random_address_cb,
      StartAdvertisingSet_advertise_data_cb,
      StartAdvertisingSet_scan_response_data_cb,
      StartAdvertisingSet_periodic_parameters_cb,
      StartAdvertisingSet_periodic_data_cb,
      StartAdvertisingSet_periodic_enable_cb,
      StartAdvertisingSet_enable_cb; now rewrite Hs.
Qed.

Lemma StartAdvertisingSetFinish_issue m :
  I m ->
  exists m',
    StartAdvertisingSetFinish P c m = Ok (tt, m') /\
    hci_queue m' = hci_queue m
                   ++ [(Hci_Enable true (c_inst_id c) 0x0000 0x00, OnStatus fin)] /\
    hci_commands (trace m') = hci_commands (trace m)
                              ++ [Hci_Enable true (c_inst_id c) 0x0000 0x00] /\
    callbacks (trace m') = callbacks (trace m) /\
    I m'.
Proof.
  intros Hm. unfold StartAdvertisingSetFinish. cbv zeta.
  apply (Enable_issue P N flags (c_inst_id c) p Hrange Huse Hid); exact Hm.
Qed.

Lemma chain_set_OnPeriodicEnable :
  chain P I F fin (StartAdvertisingSet_OnPeriodicEnable c)
    [Hci_Enable true (c_inst_id c) 0x0000 0x00].
Proof.
  eapply chain_step.
  - apply StartAdvertisingSet_lambda_fail. simpl. auto 10.
  - intros m Hm. simpl. unfold StartAdvertisingSet_periodic_enable_cb. simpl.
    now apply StartAdvertisingSetFinish_issue.
  - apply chain_end. reflexivity.
Qed.

Lemma chain_set_OnPeriodicData :
  chain P I F fin (StartAdvertisingSet_OnPeriodicData c)
    [Hci_SetPeriodicAdvertisingEnable 1 (c_inst_id c);
     Hci_Enable true (c_inst_id c) 0x0000 0x00].
Proof.
  eapply chain_step.
  - apply StartAdvertisingSet_lambda_fail. simpl. auto 10.
  - intros m Hm. simpl. unfold StartAdvertisingSet_periodic_data_cb. simpl.
    unfold SetPeriodicAdvertisingEnable.
    apply hci_is_step; [apply I_hci|exact Hm].
  - apply chain_set_OnPeriodicEnable.
Qed.

Local Abbreviation periodic_steps :=
  (periodic_cmds (c_inst_id c) (c_periodic_params c) (c_periodic_data c)).

Lemma chain_set_OnPeriodicParameters :
  chain P I F fin (StartAdvertisingSet_OnPeriodicParameters c)
    (map (fragment_cmd Bind_SetPeriodicAdvertisingData (c_inst_id c))
       (fragments (c_periodic_data c))
     ++ [Hci_SetPeriodicAdvertisingEnable 1 (c_inst_id c);
         Hci_Enable true (c_inst_id c) 0x0000 0x00]).
Proof.
  unfold fragments at 1. simpl map. simpl app. eapply chain_step.
  - apply StartAdvertisingSet_lambda_fail. simpl. auto 10.
  - intros m Hm. simpl. unfold StartAdvertisingSet_periodic_parameters_cb.
    simpl. unfold SetPeriodicAdvertisingData_open.
    rewrite DivideAndSendData_open_first.
    apply hci_is_step; [apply I_hci|exact Hm].
  - apply (chain_after_first P I F fin (I_hci N flags (c_inst_id c) p)).
    + apply chain_set_OnPeriodicData.
    + apply StartAdvertisingSet_lambda_fail. simpl. auto 10.
Qed.

Lemma chain_set_OnScanResponseData :
  chain P I F fin (StartAdvertisingSet_OnScanResponseData c)
    (periodic_steps ++ [Hci_Enable true (c_inst_id c) 0x0000 0x00]).
Proof.
  unfold periodic_cmds. destruct (enable (c_periodic_params c)) eqn:Hen.
  - simpl app. rewrite <- app_assoc. simpl app. eapply chain_step.
    + apply StartAdvertisingSet_lambda_fail. simpl. auto 10.
    + intros m Hm. simpl. unfold StartAdvertisingSet_scan_response_data_cb.
      simpl. rewrite Hen. unfold StartAdvertisingSetPeriodicPart,
        SetPeriodicAdvertisingParameters.
      apply hci_is_step; [apply I_hci|exact Hm].
    + apply chain_set_OnPeriodicParameters.
  - simpl app. eapply chain_step.
    + apply StartAdvertisingSet_lambda_fail. simpl. auto 10.
    + intros m Hm. simpl. unfold StartAdvertisingSet_scan_response_data_cb.
      simpl. rewrite Hen. now apply StartAdvertisingSetFinish_issue.
    + apply chain_end. reflexivity.
Qed.

Lemma chain_set_OnAdvertiseData :
  chain P I F fin (StartAdvertisingSet_OnAdvertiseData c)
    (SetData_cmds (c_inst_id c) true scan
     ++ periodic_steps ++ [Hci_Enable true (c_inst_id c) 0x0000 0x00]).
Proof.
  rewrite SetData_cmds_first. simpl app. eapply chain_step.
  - apply StartAdvertisingSet_lambda_fail. simpl. auto 10.
  - intros m Hm. simpl. unfold StartAdvertisingSet_advertise_data_cb. simpl.
    erewrite (SetData_issue N flags (c_inst_id c) p Hrange) by eassumption.
    apply hci_is_step; [apply I_hci|exact Hm].
  - apply chain_after_first.
    + apply I_hci.
    + apply chain_set_OnScanResponseData.
    + apply StartAdvertisingSet_lambda_fail. simpl. auto 10.
Qed.

Lemma chain_set_OnRandomAddress :
  chain P I F fin (StartAdvertisingSet_OnRandomAddress c)
    (SetData_cmds (c_inst_id c) false adv
     ++ SetData_cmds (c_inst_id c) true scan
     ++ periodic_steps ++ [Hci_Enable true (c_inst_id c) 0x0000 0x00]).
Proof.
  rewrite (SetData_cmds_first _ false). simpl app. eapply chain_step.
  - apply StartAdvertisingSet_lambda_fail. simpl. auto 10.
  - intros m Hm. simpl. unfold StartAdvertisingSet_random_address_cb. simpl.
    erewrite (SetData_issue N flags (c_inst_id c) p Hrange) by eassumption.
    apply hci_is_step; [apply I_hci|exact Hm].
  - apply chain_after_first.
    + apply I_hci.
    + apply chain_set_OnAdvertiseData.
    + apply StartAdvertisingSet_lambda_fail. simpl. auto 10.
Qed.

End StartAdvertisingSetChain.

Lemma registered_fields P rand output p :
  Inst.inst_id (registered P rand output p) = Inst.inst_id p /\
  Inst.in_use (registered P rand output p) = true /\
  Inst.adv_raddr_timer (registered P rand output p) = Inst.adv_raddr_timer p.
Proof. unfold registered. destruct (BLE_PRIVACY_SPT P); now repeat split. Qed.

(** The completion of [SetParameters] in [StartAdvertisingSet]: the granted
    TX power is stored and the random address is sent. *)
Lemma StartAdvertisingSet_parameters_done P N flags c p params tx0 tx m1 cmd :
  hci_queue m1 = [(cmd, OnStatusTxPower (StartAdvertisingSet_OnParameters c))] ->
  pipeline_inv N flags (c_inst_id c) (configured params tx0 p) m1 ->
  exists m2,
    step P (Ev_HciComplete 0 tx) m1 = Ok (tt, m2) /\
    hci_queue m2 = [(Hci_SetRandomAddress (c_inst_id c) (Inst.own_address p),
                     OnStatus (StartAdvertisingSet_OnRandomAddress c))] /\
    hci_commands (trace m2)
    = hci_commands (trace m1)
      ++ [Hci_SetRandomAddress (c_inst_id c) (Inst.own_address p)] /\
    callbacks (trace m2) = callbacks (trace m1) /\
    pipeline_inv N flags (c_inst_id c) (configured params tx p) m2.
Proof.
  intros Hq1 [Hc Hf (q & Hq & Hsame & Htimer) Hr].
  destruct (same_config_fields _ _ Hsame) as (_ & _ & _ & _ & Haddr).
  simpl step. erewrite hci_complete_head by exact Hq1. simpl Run_hci_cb.
  unfold StartAdvertisingSet_parameters_cb.
  change (negb (0 =? 0)) with false. cbv iota.
  erewrite bind_Ok by (eapply update_inst_modify; simpl; exact Hq).
  erewrite bind_Ok
    by (apply inst_at_Some; apply lookup_modify_inst_Some; simpl; exact Hq).
  rewrite hci_run. eexists. split; [reflexivity|].
  cbn [hci_queue trace set_hci_queue set_trace modify_inst set_adv_inst].
  simpl Inst.own_address. rewrite Haddr.
  split; [reflexivity|]. split; [|split; [|constructor]].
  - now rewrite hci_commands_app.
  - rewrite callbacks_app. simpl. apply app_nil_r.
  - exact Hc.
  - rewrite <- Hf. unfold in_use_flags. simpl. now apply map_in_use_alter.
  - exists (Inst.set_tx_power tx q). split; [|split].
    + simpl. now rewrite list_lookup_alter_eq, Hq.
    + unfold same_config, configured in *. destruct q, p. simpl in *.
      injection Hsame as -> -> -> -> -> -> -> ->. reflexivity.
    + intros t Ht. exact (Htimer t Ht).
  - exact Hr.
Qed.


(** ** StartAdvertisingSet, end to end *)

Lemma insert_true_false (flags : list bool) i :
  flags !! i = Some false -> <[i := false]> (<[i := true]> flags) = flags.
Proof. intros H. rewrite list_insert_insert_eq. now apply list_insert_id. Qed.

(** What every failure branch of [StartAdvertisingSet] does: [Unregister],
    then the caller's callback with (0, 0, status). *)
Lemma Unregister_then_callback N flags inst_id p u s m :
  0 <= inst_id < N ->
  pipeline_inv N flags inst_id p m ->
  exists m',
    (Unregister inst_id ;;
     Run_IdTxPowerStatusCb (UserIdTxPowerStatusCb u) 0 0 s) m = Ok (tt, m') /\
    trace m' = trace m ++ [E_Hci (Hci_Enable false inst_id 0x00 0x00);
                           E_alarm_cancel (Inst.adv_raddr_timer p);
                           E_IdTxPowerStatusCb u 0 0 s] /\
    in_use_flags m' = <[Z.to_nat inst_id := false]> flags /\
    exists q, adv_inst m' !! Z.to_nat inst_id = Some (Inst.set_in_use false q) /\
              same_config q p.
Proof.
  intros Hrange Hm.
  destruct (Unregister_run N flags inst_id p Hrange m Hm) as (al & Hal & Hrun).
  destruct Hm as [Hc Hf (q & Hq & Hsame & _) _].
  erewrite bind_Ok by exact Hrun. simpl. rewrite emit_run.
  eexists. split; [reflexivity|]. simpl.
  split; [now rewrite <- app_assoc|]. split.
  - rewrite <- Hf. unfold in_use_flags, modify_inst. simpl.
    erewrite alter_as_insert by exact Hq. now rewrite list_fmap_insert.
  - exists q. split; [|exact Hsame].
    unfold modify_inst. simpl. now rewrite list_lookup_alter_eq, Hq.
Qed.

Lemma first_free_flag m i :
  first_free (adv_inst m) = Some i -> in_use_flags m !! i = Some false.
Proof.
  intros H. destruct (first_free_spec _ _ H) as [(p & Hp & Hu) _].
  unfold in_use_flags. now rewrite list_lookup_fmap, Hp, <- Hu.
Qed.

Section StartAdvertisingSetRun.

Context (P : platform) (m : manager) (u : nat)
  (params : tBTM_BLE_ADV_PARAMS) (advertise_data scan_response_data : list Z)
  (periodic_params : tBLE_PERIODIC_ADV_PARAMS) (periodic_data : list Z)
  (timeout_s : Z) (timeout_cb : RegisterCb) (tx : Z)
  (rand output : list Z) (i : nat) (p0 : AdvertisingInstance)
  (adv scan : list Z).

Hypothesis Hwf : wf m = true.
Hypothesis Hquiet : hci_queue m = [].
Hypothesis Hfree : first_free (adv_inst m) = Some i.
Hypothesis Hp0 : adv_inst m !! i = Some p0.
Hypothesis Hready : registration_ready P m rand output.

Local Abbreviation inst_id := (Z.of_nat i).
Local Abbreviation p1 := (registered P rand output p0).

Hypothesis Hadv :
  SetData_prepare (configured params tx p1) false advertise_data = Ok adv.
Hypothesis Hscan :
  SetData_prepare (configured params tx p1) true scan_response_data = Ok scan.

Local Abbreviation c0 :=
  {| c_inst_id := 0; c_cb := UserIdTxPowerStatusCb u; c_params := params;
     c_advertise_data := advertise_data;
     c_scan_response_data := scan_response_data;
     c_periodic_params := periodic_params;
     c_periodic_data := periodic_data;
     c_timeout_s := timeout_s; c_timeout_cb := timeout_cb |}.
Local Abbreviation c := (set_c_inst_id inst_id c0).
Local Abbreviation script :=
  (StartAdvertisingSet_script inst_id p1 params adv scan periodic_params
     periodic_data).
Local Abbreviation call :=
  (Ev_StartAdvertisingSet (UserIdTxPowerStatusCb u) params advertise_data
     scan_response_data periodic_params periodic_data timeout_s timeout_cb).
Local Abbreviation N := (inst_count m).
Local Abbreviation taken := (<[i := true]> (in_use_flags m)).

Lemma StartAdvertisingSet_facts :
  inst_id < N /\ 0 <= N /\ Inst.inst_id p0 = inst_id /\
  Inst.in_use p0 = false /\
  length (Inst.own_address p0) = BD_ADDR_LEN /\
  alive m (Inst.adv_raddr_timer p0) = true /\
  (forall t, Inst.timeout_timer p0 = Some t ->
             alive m t = true /\ t <> Inst.adv_raddr_timer p0).
Proof.
  pose proof (wf_sized m Hwf) as Hs. unfold table_sized in Hs.
  pose proof (lookup_lt_Some _ _ _ Hp0) as Hlt.
  pose proof (wf_inst_id m _ p0 Hwf Hp0) as Hid.
  destruct (wf_inst_timers m _ p0 Hwf Hp0) as [Hr Ht].
  destruct (first_free_spec _ _ Hfree) as [(p & Hp & Hu) _].
  rewrite Hp0 in Hp. injection Hp as <-.
  pose proof (wf_inst m i p0 Hwf Hp0) as Hok. unfold inst_ok in Hok.
  apply andb_true_iff in Hok as [Hok _].
  apply andb_true_iff in Hok as [_ Hlen]. apply Nat.eqb_eq in Hlen.
  repeat split; try assumption; try lia.
  - apply Ht; assumption.
  - apply Ht; assumption.
Qed.

(** The first lambda of [StartAdvertisingSet], run on a registered
    instance: [SetParameters] is issued. *)
Lemma StartAdvertisingSet_register_done mR q :
  inst_id < inst_count mR -> adv_inst mR !! i = Some q ->
  Inst.in_use q = true ->
  Run_RegisterAdvertiserCb P (StartAdvertisingSet_OnRegister c0) inst_id
    BTM_BLE_MULTI_ADV_SUCCESS mR
  = Ok (tt,
        set_hci_queue
          (hci_queue mR ++ [(SetParameters_cmd q params,
                             OnStatusTxPower (StartAdvertisingSet_OnParameters c))])
          (set_trace (trace mR ++ [E_Hci (SetParameters_cmd q params)])
             (modify_inst inst_id
                (fun a => Inst.set_tx_power (params_tx_power params)
                   (Inst.set_advertising_event_properties
                      (uint8 (params_advertising_event_properties params)) a))
                mR))).
Proof.
  intros Hlt Hq Huse. simpl. unfold StartAdvertisingSet_register_cb. simpl.
  apply SetParameters_issue; rewrite ?Nat2Z.id; assumption.
Qed.


(** Registration, then [SetParameters] in flight: the slot is taken, and
    nothing has been reported to the caller. *)
Lemma StartAdvertisingSet_call :
  exists m1,
    steps P (call :: registration_events P rand) m = Ok (tt, m1) /\
    hci_queue m1 = [(SetParameters_cmd p1 params,
                     OnStatusTxPower (StartAdvertisingSet_OnParameters c))] /\
    hci_commands (trace m1)
    = hci_commands (trace m) ++ [SetParameters_cmd p1 params] /\
    callbacks (trace m1) = callbacks (trace m) /\
    pipeline_inv N taken inst_id
      (configured params (params_tx_power params) p1) m1.
Proof.
  destruct StartAdvertisingSet_facts as (Hlt & Hn & Hid & Hu & Hlen & Hr & Ht).
  pose proof (wf_sized m Hwf) as Hs.
  rewrite steps_cons. simpl step. unfold StartAdvertisingSet. cbv zeta.
  assert (Hp0' : adv_inst m !! Z.to_nat inst_id = Some p0)
    by (now rewrite Nat2Z.id).
  unfold bind at 1.
  rewrite (RegisterAdvertiser_spec P _ m Hs Hn), Hfree, Hp0.
  rewrite (RegisterAdvertiser_slot_spec P i p0 _ m Hp0).
  unfold registration_events, registration_ready, registered in *.
  destruct (BLE_PRIVACY_SPT P).
  - destruct (Hready eq_refl) as (Hen & Hrq & Hrand & Henc). rewrite Hen.
    unfold GenerateRpa. rewrite Hid. unfold bind at 1. rewrite emit_run.
    unfold modify. rewrite steps_cons. simpl step. unfold rpa_generated.
    mstep. unfold modify.
    cbn [rpa_queue set_rpa_queue set_trace modify_inst set_adv_inst].
    rewrite Hrq. cbn [app]. cbv beta iota.
    erewrite OnRpaGenerationComplete_run;
      [ | unfold modify_inst; simpl; rewrite !list_lookup_alter_eq, Hp0'; reflexivity
        | exact Hlen | exact Hrand | exact Henc ].
    cbn [Run_Closure].
    unfold alive in Hr.
    destruct (alarms m !! Inst.adv_raddr_timer p0) as [[al|]|] eqn:Hal;
      try discriminate.
    erewrite (bind_Ok (inst_at inst_id))
      by (apply inst_at_Some; unfold modify_inst; simpl;
          rewrite !list_lookup_alter_eq, Hp0'; reflexivity).
    cbn [Inst.adv_raddr_timer Inst.inst_id Inst.set_own_address
         Inst.set_own_address_type Inst.set_in_use].
    erewrite (bind_Ok (alarm_set_on_queue _ _ _))
      by (apply alarm_set_on_queue_run; simpl; exact Hal).
    rewrite Hid.
    erewrite StartAdvertisingSet_register_done;
      [ | simpl; exact Hlt
        | unfold modify_inst; simpl; rewrite Nat2Z.id;
          rewrite !list_lookup_alter_eq, Hp0; reflexivity
        | reflexivity ].
    eexists. split; [reflexivity|].
    cbn [hci_queue trace set_hci_queue set_trace set_alarms set_rpa_queue
         modify_inst set_adv_inst].
    rewrite Hquiet. split; [reflexivity|]. split; [|split].
    + rewrite <- !app_assoc, hci_commands_app. reflexivity.
    + rewrite <- !app_assoc, callbacks_app. simpl. apply app_nil_r.
    + constructor.
      * reflexivity.
      * unfold in_use_flags. simpl. rewrite Nat2Z.id, !list_alter_alter_eq.
        erewrite alter_as_insert by exact Hp0.
        now rewrite list_fmap_insert.
      * eexists. split; [|split].
        -- simpl. rewrite Nat2Z.id, !list_lookup_alter_eq, Hp0. reflexivity.
        -- reflexivity.
        -- intros t Ht'. simpl in Ht'. destruct (Ht t Ht') as [Ha Hne].
           split; [|exact Hne]. unfold alive in *. simpl.
           rewrite list_lookup_insert_ne by congruence. exact Ha.
      * unfold alive. simpl.
        rewrite list_lookup_insert_eq by (eapply lookup_lt_Some; eauto).
        reflexivity.
  - rewrite Hid.
    erewrite StartAdvertisingSet_register_done;
      [ | simpl; exact Hlt
        | unfold modify_inst; simpl; rewrite Nat2Z.id;
          rewrite !list_lookup_alter_eq, Hp0; reflexivity
        | reflexivity ].
    eexists. split; [reflexivity|].
    cbn [hci_queue trace set_hci_queue set_trace set_alarms set_rpa_queue
         modify_inst set_adv_inst].
    rewrite Hquiet. split; [reflexivity|]. split; [|split].
    + rewrite hci_commands_app. reflexivity.
    + rewrite callbacks_app. simpl. apply app_nil_r.
    + constructor.
      * reflexivity.
      * unfold in_use_flags. simpl. rewrite Nat2Z.id, !list_alter_alter_eq.
        erewrite alter_as_insert by exact Hp0.
        now rewrite list_fmap_insert.
      * eexists. split; [|split].
        -- simpl. rewrite Nat2Z.id, !list_lookup_alter_eq, Hp0. reflexivity.
        -- reflexivity.
        -- intros t Ht'. simpl in Ht'. exact (Ht t Ht').
      * exact Hr.
Qed.

Local Abbreviation pc := (configured params tx p1).
Local Abbreviation I := (pipeline_inv N taken inst_id pc).
Local Abbreviation fin :=
  (Enable_callback inst_id (StartAdvertisingSet_OnEnable c) timeout_s
     (Bind_timeout_cb timeout_cb inst_id)).
Local Abbreviation undo := (compensation inst_id (Inst.adv_raddr_timer p0) u).

Lemma StartAdvertisingSet_failed tx0 s m' :
  pipeline_inv N taken inst_id (configured params tx0 p1) m' ->
  exists m'',
    (Unregister inst_id ;;
     Run_IdTxPowerStatusCb (UserIdTxPowerStatusCb u) 0 0 s) m' = Ok (tt, m'') /\
    trace m'' = trace m' ++ undo s /\
    in_use_flags m'' = in_use_flags m /\
    exists q, adv_inst m'' !! Z.to_nat inst_id = Some (Inst.set_in_use false q) /\
              same_config q (configured params tx0 p1).
Proof.
  intros Hm.
  destruct StartAdvertisingSet_facts as (Hlt & Hn & _).
  destruct (Unregister_then_callback N taken inst_id _ u s m'
              ltac:(lia) Hm) as (m'' & Hrun & Htr & Hfl & Hsome).
  exists m''. split; [exact Hrun|]. split; [|split].
  - rewrite Htr. unfold compensation. simpl.
    now destruct (registered_fields P rand output p0) as (_ & _ & ->).
  - rewrite Hfl, Nat2Z.id. apply insert_true_false.
    now apply first_free_flag.
  - exact Hsome.
Qed.

(** The last completion, rejected: the compensation, then the timer of
    [EnableWithTimerCb] when a timeout was asked for. *)
Lemma StartAdvertisingSet_finish_fail s m' :
  s <> 0 -> I m' ->
  exists m'' tail,
    Run P fin s (set_hci_queue [] m') = Ok (tt, m'') /\
    trace m'' = trace m' ++ undo s ++ tail /\
    hci_commands tail = [] /\ callbacks tail = [] /\
    in_use_flags m'' = in_use_flags m /\
    (timeout_s = 0 -> tail = []) /\
    exists r, adv_inst m'' !! Z.to_nat inst_id = Some r /\
              Inst.in_use r = false /\ same_setup r pc.
Proof.
  intros Hs Hm. apply Z.eqb_neq in Hs as Hs'.
  destruct (StartAdvertisingSet_failed tx s (set_hci_queue [] m')
              (I_queue _ _ _ _ _ _ Hm))
    as (m1 & Hrun & Htr & Hfl & q & Hq & Hsame).
  destruct (same_config_setup q pc (Some (length (alarms m1))) timeout_s Hsame)
    as [Hidle Htimed].
  assert (Hcb : Run P (StartAdvertisingSet_OnEnable c) s (set_hci_queue [] m')
                = Ok (tt, m1)).
  { simpl. unfold StartAdvertisingSet_enable_cb. rewrite Hs'. exact Hrun. }
  unfold Enable_callback. destruct (timeout_s =? 0) eqn:Hts.
  - exists m1, []. rewrite app_nil_r.
    split; [exact Hcb|]. split; [exact Htr|]. do 4 (split; [easy|]).
    exists (Inst.set_in_use false q). split; [exact Hq|].
    split; [reflexivity | exact Hidle].
  - simpl Run.
    erewrite EnableWithTimerCb_tail by (first [exact Hcb | exact Hq]).
    eexists. eexists. split; [reflexivity|]. simpl trace. rewrite Htr.
    simpl trace. rewrite <- !app_assoc. split; [reflexivity|].
    split; [reflexivity|]. split; [reflexivity|]. split.
    { rewrite <- Hfl. unfold in_use_flags. simpl. now apply map_in_use_alter. }
    split.
    { intros H0. apply Z.eqb_neq in Hts. contradiction. }
    eexists. split.
    { unfold modify_inst. cbn [adv_inst set_trace set_alarms set_adv_inst].
      rewrite list_lookup_alter_eq, Hq. reflexivity. }
    split; [reflexivity | exact Htimed].
Qed.

(** The last completion, accepted: the caller's callback with the
    instance, its TX power and status 0. *)
Lemma StartAdvertisingSet_finish_ok m' :
  I m' ->
  exists m'',
    Run P fin 0 (set_hci_queue [] m') = Ok (tt, m'') /\
    hci_commands (trace m'') = hci_commands (trace m') /\
    callbacks (trace m'')
    = callbacks (trace m') ++ [E_IdTxPowerStatusCb u inst_id tx 0] /\
    in_use_flags m'' = taken.
Proof.
  intros [Hc Hf (q & Hq & Hsame & Htimer) Hr].
  destruct (same_config_fields _ _ Hsame) as (_ & _ & _ & Htx & _).
  simpl in Htx.
  assert (Hcb : Run P (StartAdvertisingSet_OnEnable c) 0 (set_hci_queue [] m')
                = Ok (tt, set_trace (trace m'
                                     ++ [E_IdTxPowerStatusCb u inst_id tx 0])
                            (set_hci_queue [] m'))).
  { simpl. unfold StartAdvertisingSet_enable_cb.
    change (negb (0 =? 0)) with false. cbv iota.
    erewrite bind_Ok by (apply inst_at_Some; simpl; exact Hq).
    cbn [Run_IdTxPowerStatusCb c_cb set_c_inst_id c_inst_id].
    rewrite Htx, emit_run. reflexivity. }
  unfold Enable_callback. destruct (timeout_s =? 0).
  - eexists. split; [exact Hcb|]. simpl.
    rewrite hci_commands_app, callbacks_app. simpl.
    rewrite app_nil_r. now repeat split.
  - simpl Run.
    erewrite EnableWithTimerCb_tail
      by (first [exact Hcb | simpl; exact Hq]).
    eexists. split; [reflexivity|]. simpl.
    rewrite !hci_commands_app, !callbacks_app. simpl.
    rewrite !app_nil_r. split; [reflexivity|]. split; [reflexivity|].
    rewrite <- Hf. unfold in_use_flags. now apply map_in_use_alter.
Qed.


Lemma StartAdvertisingSet_script_length :
  (3 <= length script)%nat.
Proof.
  unfold StartAdvertisingSet_script. cbn [length]. rewrite !length_app.
  cbn [length]. lia.
Qed.

(** The events of a [StartAdvertisingSet] up to the [n]-th accepted
    command: the slot is taken before the first command, the commands go
    out in the order of the script, one per completion, and nothing is
    reported until the chain ends, with the last completion or with the
    first one rejected. *)
Lemma StartAdvertisingSet_ordered n :
  (n < length script)%nat ->
  exists m_n,
    exec P (call :: registration_events P rand ++ completions n tx) m
    = Ok m_n /\
    hci_commands (trace m_n) = hci_commands (trace m) ++ take (S n) script /\
    callbacks (trace m_n) = callbacks (trace m) /\
    in_use_flags m_n = taken /\
    (forall s, s <> 0 ->
       exists m' tail,
         exec P [Ev_HciComplete s tx] m_n = Ok m' /\
         trace m' = trace m_n ++ undo s ++ tail /\
         hci_commands tail = [] /\ callbacks tail = [] /\
         in_use_flags m' = in_use_flags m /\
         (timeout_s = 0 \/ (S n < length script)%nat -> tail = []) /\
         exists r, adv_inst m' !! i = Some r /\
                   Inst.in_use r = false /\
                   same_setup r
                     (configured params
                        match n with
                        | O => params_tx_power params
                        | S _ => tx
                        end p1)) /\
    (S n = length script ->
       exists m',
         exec P [Ev_HciComplete 0 tx] m_n = Ok m' /\
         hci_commands (trace m') = hci_commands (trace m_n) /\
         callbacks (trace m')
         = callbacks (trace m) ++ [E_IdTxPowerStatusCb u inst_id tx 0] /\
         in_use_flags m' = taken).
Proof.
  intros Hn.
  destruct StartAdvertisingSet_facts as (Hlt & HN & Hid & _).
  destruct StartAdvertisingSet_call as (m1 & Hcall & Hq1 & Hc1 & Hb1 & Hinv1).
  destruct (registered_fields P rand output p0) as (Hrid & Hruse & Hrr).
  pose proof StartAdvertisingSet_script_length as Hlen.
  change (call :: registration_events P rand ++ completions n tx)
    with ((call :: registration_events P rand) ++ completions n tx).
  unfold exec at 1. rewrite steps_app. erewrite bind_Ok by exact Hcall.
  destruct n as [|n].
  - exists m1. split; [reflexivity|]. split; [exact Hc1|].
    split; [exact Hb1|]. split; [apply (pi_flags _ _ _ _ _ Hinv1)|]. split.
    + intros s Hs. apply Z.eqb_neq in Hs as Hs'.
      rewrite exec_one. simpl step.
      erewrite hci_complete_head by exact Hq1. simpl Run_hci_cb.
      unfold StartAdvertisingSet_parameters_cb. rewrite Hs'. cbn [negb].
      cbn [c_inst_id c_cb set_c_inst_id].
      destruct (StartAdvertisingSet_failed _ s (set_hci_queue [] m1)
                  (I_queue _ _ _ _ _ _ Hinv1))
        as (m' & -> & Htr & Hfl & q & Hq & Hsame).
      exists m', []. rewrite app_nil_r.
      do 6 (split; [easy|]).
      exists (Inst.set_in_use false q). rewrite Nat2Z.id in Hq.
      split; [exact Hq|]. split; [reflexivity|].
      apply (same_config_setup q _ None 0 Hsame).
    + intros Hlast. lia.
  - destruct (StartAdvertisingSet_parameters_done P N taken c p1 params
                _ tx m1 _ Hq1 Hinv1)
      as (m2 & Hstep2 & Hq2 & Hc2 & Hb2 & Hinv2).
    cbn [c_inst_id set_c_inst_id] in Hq2, Hc2, Hinv2.
    set (rest := SetData_cmds inst_id false adv
                 ++ SetData_cmds inst_id true scan
                 ++ periodic_cmds inst_id periodic_params periodic_data
                 ++ [Hci_Enable true inst_id 0x0000 0x00]).
    assert (Hscript : script = SetParameters_cmd p1 params
                               :: Hci_SetRandomAddress inst_id
                                    (Inst.own_address p1)
                               :: rest) by reflexivity.
    assert (Hn' : (n <= length rest)%nat)
      by (rewrite Hscript in Hn; cbn [length] in Hn; lia).
    assert (Hrange : 0 <= c_inst_id c < N) by (simpl; lia).
    assert (Huse : Inst.in_use pc = true) by exact Hruse.
    assert (Hidc : Inst.inst_id pc = c_inst_id c)
      by (simpl; now rewrite Hrid).
    pose proof (chain_set_OnRandomAddress P N taken c pc adv scan
                  Hrange Huse Hidc Hadv Hscan) as Hchain.
    destruct (chain_run P _ _ _ (I_queue N taken inst_id pc)
                tx n _ _ _ m2 Hchain Hn' Hinv2 Hq2)
      as (m_n & Hrun & Hc & Hb & Hinv & c' & k' & Hq' & Hk').
    cbn [c_inst_id c_periodic_params c_periodic_data set_c_inst_id]
      in Hk', Hc.
    change (SetData_cmds inst_id false adv
            ++ SetData_cmds inst_id true scan
            ++ periodic_cmds inst_id periodic_params periodic_data
            ++ [Hci_Enable true inst_id 0 0]) with rest in Hk', Hc.
    assert (Hb0 : callbacks (trace m_n) = callbacks (trace m))
      by (now rewrite Hb, Hb2, Hb1).
    exists m_n. split; [|split; [|split; [|split; [|split]]]].
    + unfold completions. cbn [repeat]. rewrite steps_cons.
      erewrite bind_Ok by exact Hstep2.
      fold (completions n tx). now rewrite Hrun.
    + rewrite Hc, Hc2, Hc1, Hscript. now rewrite <- !app_assoc.
    + exact Hb0.
    + apply (pi_flags _ _ _ _ _ Hinv).
    + intros s Hs. rewrite exec_one. simpl step.
      destruct (drop n rest) as [|c'' rest'] eqn:Hdrop.
      * rewrite (chain_finish _ _ _ _ _ _ _ s tx Hk' Hq').
        cbn [c_inst_id c_timeout_s c_timeout_cb set_c_inst_id].
        destruct (StartAdvertisingSet_finish_fail s m_n Hs Hinv)
          as (m' & tail & -> & Htr & Ht1 & Ht2 & Hfl & Hnone & r & Hr & Hleft).
        exists m', tail. do 5 (split; [easy|]). split.
        { intros [H0 | Hmore]; [now apply Hnone|].
          apply (f_equal length) in Hdrop. rewrite length_drop in Hdrop.
          rewrite Hscript in Hmore. cbn [length] in Hmore, Hdrop. lia. }
        exists r. rewrite Nat2Z.id in Hr. now split.
      * rewrite (chain_fail _ _ _ _ (I_queue N taken inst_id pc)
                   _ _ _ _ _ s tx Hk' Hinv Hq' Hs).
        cbn [c_inst_id c_cb set_c_inst_id].
        destruct (StartAdvertisingSet_failed tx s (set_hci_queue [] m_n)
                    (I_queue _ _ _ _ _ _ Hinv))
          as (m' & -> & Htr & Hfl & q & Hq & Hsame).
        exists m', []. rewrite app_nil_r.
        do 6 (split; [easy|]).
        exists (Inst.set_in_use false q). rewrite Nat2Z.id in Hq.
        split; [exact Hq|]. split; [reflexivity|].
        apply (same_config_setup q _ None 0 Hsame).
    + intros Hlast. rewrite exec_one. simpl step.
      rewrite drop_ge in Hk'
        by (rewrite Hscript in Hlast; cbn [length] in Hlast; lia).
      rewrite (chain_finish _ _ _ _ _ _ _ 0 tx Hk' Hq').
      cbn [c_inst_id c_timeout_s c_timeout_cb set_c_inst_id].
      destruct (StartAdvertisingSet_finish_ok m_n Hinv)
        as (m' & -> & Hc'' & Hb'' & Hfl).
      exists m'. rewrite Hb0 in Hb''. now repeat split.
Qed.


End StartAdvertisingSetRun.

(** ** The two commissioning pipelines (section 4.8) *)

(** C2: on a well-formed manager with no command in flight,
    (1) [StartAdvertising] on a registered instance, followed by [n]
    completions with status 0, has issued exactly the first [n + 1]
    commands of SetParameters, SetRandomAddress, the fragments of the
    advertising data, those of the scan response, Enable(true), in this
    order, and has run no callback; a non-zero status for the command in
    flight issues nothing more and runs the caller's callback with that
    status; status 0 for the last command runs it with 0;
    (2) [StartAdvertisingSet] does the same with the slot taken by Register
    before the first command, and the periodic commands (when
    [periodic_params.enable] is set) between the scan response and
    Enable(true); a non-zero status issues only the disable command of
    [Unregister] and runs the callback with (0, 0, status). *)
Theorem commissioning_order P m tx :
  wf m = true -> hci_queue m = [] ->
  (forall inst_id u params advertise_data scan_response_data timeout_s
          timeout_cb p adv scan n,
     0 <= inst_id ->
     adv_inst m !! Z.to_nat inst_id = Some p -> Inst.in_use p = true ->
     SetData_prepare (configured params tx p) false advertise_data = Ok adv ->
     SetData_prepare (configured params tx p) true scan_response_data
     = Ok scan ->
     (n < length (StartAdvertising_script inst_id p params adv scan))%nat ->
     exists m_n,
       exec P (Ev_StartAdvertising inst_id (UserMultiAdvCb u) params
                 advertise_data scan_response_data timeout_s timeout_cb
               :: completions n tx) m = Ok m_n /\
       hci_commands (trace m_n)
       = hci_commands (trace m)
         ++ take (S n) (StartAdvertising_script inst_id p params adv scan) /\
       callbacks (trace m_n) = callbacks (trace m) /\
       (forall s, s <> 0 ->
          exists m', exec P [Ev_HciComplete s tx] m_n = Ok m' /\
            hci_commands (trace m') = hci_commands (trace m_n) /\
            callbacks (trace m') = callbacks (trace m) ++ [E_MultiAdvCb u s] /\
            hci_queue m' = []) /\
       (S n = length (StartAdvertising_script inst_id p params adv scan) ->
          exists m', exec P [Ev_HciComplete 0 tx] m_n = Ok m' /\
            hci_commands (trace m') = hci_commands (trace m_n) /\
            callbacks (trace m') = callbacks (trace m) ++ [E_MultiAdvCb u 0] /\
            hci_queue m' = [])) /\
  (forall u params advertise_data scan_response_data periodic_params
          periodic_data timeout_s timeout_cb rand output i p0 adv scan n,
     first_free (adv_inst m) = Some i -> adv_inst m !! i = Some p0 ->
     registration_ready P m rand output ->
     let p := registered P rand output p0 in
     let script := StartAdvertisingSet_script (Z.of_nat i) p params adv scan
                     periodic_params periodic_data in
     SetData_prepare (configured params tx p) false advertise_data = Ok adv ->
     SetData_prepare (configured params tx p) true scan_response_data
     = Ok scan ->
     (n < length script)%nat ->
     exists m_n,
       exec P (Ev_StartAdvertisingSet (UserIdTxPowerStatusCb u) params
                 advertise_data scan_response_data periodic_params
                 periodic_data timeout_s timeout_cb
               :: registration_events P rand ++ completions n tx) m
       = Ok m_n /\
       in_use_flags m_n = <[i := true]> (in_use_flags m) /\
       hci_commands (trace m_n) = hci_commands (trace m) ++ take (S n) script /\
       callbacks (trace m_n) = callbacks (trace m) /\
       (forall s, s <> 0 ->
          exists m', exec P [Ev_HciComplete s tx] m_n = Ok m' /\
            hci_commands (trace m')
            = hci_commands (trace m_n)
              ++ [Hci_Enable false (Z.of_nat i) 0x00 0x00] /\
            callbacks (trace m')
            = callbacks (trace m) ++ [E_IdTxPowerStatusCb u 0 0 s]) /\
       (S n = length script ->
          exists m', exec P [Ev_HciComplete 0 tx] m_n = Ok m' /\
            hci_commands (trace m') = hci_commands (trace m_n) /\
            callbacks (trace m')
            = callbacks (trace m)
              ++ [E_IdTxPowerStatusCb u (Z.of_nat i) tx 0])).
Proof.
  intros Hwf Hquiet. split.
  - intros inst_id u params advertise_data scan_response_data timeout_s
      timeout_cb p adv scan n Hpos Hp Huse Hadv Hscan Hn.
    exact (StartAdvertising_ordered P m inst_id u params advertise_data
             scan_response_data timeout_s timeout_cb tx p adv scan
             Hwf Hquiet Hpos Hp Huse Hadv Hscan n Hn).
  - intros u params advertise_data scan_response_data periodic_params
      periodic_data timeout_s timeout_cb rand output i p0 adv scan n
      Hfree Hp0 Hready p script Hadv Hscan Hn.
    destruct (StartAdvertisingSet_ordered P m u params advertise_data
                scan_response_data periodic_params periodic_data timeout_s
                timeout_cb tx rand output i p0 adv scan
                Hwf Hquiet Hfree Hp0 Hready Hadv Hscan n Hn)
      as (m_n & Hrun & Hc & Hb & Hfl & Hfail & Hlast).
    exists m_n. split; [exact Hrun|]. split; [exact Hfl|].
    split; [exact Hc|]. split; [exact Hb|]. split.
    + intros s Hs.
      destruct (Hfail s Hs) as (m' & tail & Hrun' & Htr & Ht1 & Ht2 & _).
      exists m'. split; [exact Hrun'|]. rewrite Htr.
      rewrite !hci_commands_app, !callbacks_app, Ht1, Ht2, Hb.
      unfold compensation. simpl. rewrite ?app_nil_r. now split.
    + intros Hl. destruct (Hlast Hl) as (m' & Hrun' & Hc' & Hb' & _).
      exists m'. now repeat split.
Qed.


Lemma commissioning_order_witness :
  (exists m_n,
     exec demo_privacy_platform
       (Ev_StartAdvertising 0 (UserMultiAdvCb 1) demo_params
          [0x02; 0xFF; 0x42] [] 30 (UserMultiAdvCb 2)
        :: completions 4 (-5)) demo_privacy_registered = Ok m_n /\
     hci_commands (trace m_n)
     = hci_commands (trace demo_privacy_registered)
       ++ [Hci_SetParameters 0 0x13 160 160 7 1 [127; 255; 255; 0; 0; 0] 0
             [0; 0; 0; 0; 0; 0] 0 (-7) 1 1 1 1 0;
           Hci_SetRandomAddress 0 [127; 255; 255; 0; 0; 0];
           Hci_SetAdvertisingData 0 COMPLETE 1 6 [2; 1; 2; 2; 255; 66];
           Hci_SetScanResponseData 0 COMPLETE 1 0 [];
           Hci_Enable true 0 0 0]) /\
  (exists m_n,
     exec demo_privacy_platform
       (Ev_StartAdvertisingSet (UserIdTxPowerStatusCb 1) demo_params
          [0x02; 0xFF; 0x42] [] demo_periodic [7; 8] 30 (UserRegisterCb 2)
        :: registration_events demo_privacy_platform (repeat 0x11 8)
        ++ completions 7 (-5)) demo_privacy_registered = Ok m_n /\
     in_use_flags m_n = [true; true] /\
     hci_commands (trace m_n)
     = hci_commands (trace demo_privacy_registered)
       ++ [Hci_SetParameters 1 0x13 160 160 7 1 [81; 17; 17; 0; 0; 0] 0
             [0; 0; 0; 0; 0; 0] 0 (-7) 1 1 1 1 0;
           Hci_SetRandomAddress 1 [81; 17; 17; 0; 0; 0];
           Hci_SetAdvertisingData 1 COMPLETE 1 6 [2; 1; 2; 2; 255; 66];
           Hci_SetScanResponseData 1 COMPLETE 1 0 [];
           Hci_SetPeriodicAdvertisingParameters 1 80 160 0;
           Hci_SetPeriodicAdvertisingData 1 COMPLETE 2 [7; 8];
           Hci_SetPeriodicAdvertisingEnable 1 1;
           Hci_Enable true 1 0 0]).
Proof.
  destruct (commissioning_order demo_privacy_platform demo_privacy_registered
              (-5) ltac:(vm_compute; reflexivity) ltac:(reflexivity))
    as [HSA HSAS].
  split.
  - destruct (HSA 0 1%nat demo_params [0x02; 0xFF; 0x42] [] 30
                (UserMultiAdvCb 2)
                (registered demo_privacy_platform (repeat 0xFF 8)
                   (repeat 0 16) (demo_instance 0))
                [2; 1; 2; 2; 255; 66] [] 4%nat
                ltac:(lia) ltac:(reflexivity) ltac:(reflexivity)
                ltac:(reflexivity) ltac:(reflexivity)
                ltac:(vm_compute; lia))
      as (m_n & H1 & H2 & _).
    exists m_n. split; [exact H1 | exact H2].
  - destruct (HSAS 1%nat demo_params [0x02; 0xFF; 0x42] [] demo_periodic
                [7; 8] 30 (UserRegisterCb 2) (repeat 0x11 8) (repeat 0 16)
                1%nat (demo_instance 1) [2; 1; 2; 2; 255; 66] [] 7%nat
                ltac:(reflexivity) ltac:(reflexivity)
                ltac:(intros _; repeat split; reflexivity)
                ltac:(reflexivity) ltac:(reflexivity)
                ltac:(vm_compute; lia))
      as (m_n & H1 & H2 & H3 & _).
    exists m_n. split; [exact H1 | split; [exact H2 | exact H3]].
Defined.




(** ** Sound managers *)

Lemma distinct_NoDup l : distinct l = true <-> NoDup l.
Proof.
  induction l as [|t l IH]; simpl.
  - split; [constructor | reflexivity].
  - assert (H : existsb (Nat.eqb t) l = false <-> t ∉ l).
    { rewrite <- not_true_iff_false, existsb_exists, list_elem_of_In. split.
      - intros H Hin. apply H. exists t. split; [exact Hin|apply Nat.eqb_refl].
      - intros H (x & Hin & Heq). apply Nat.eqb_eq in Heq. now subst x. }
    rewrite andb_true_iff, negb_true_iff, NoDup_cons, H, IH. tauto.
Qed.

Lemma timers_app l1 l2 :
  flat_map timers_of (l1 ++ l2) = flat_map timers_of l1 ++ flat_map timers_of l2.
Proof. apply flat_map_app. Qed.

Lemma timers_middle (l : list AdvertisingInstance) i p :
  l !! i = Some p ->
  flat_map timers_of l
  = flat_map timers_of (take i l) ++ timers_of p
    ++ flat_map timers_of (drop (S i) l).
Proof.
  intros Hp. rewrite <- (take_drop_middle l i p Hp) at 1.
  now rewrite timers_app.
Qed.

Lemma timers_alter (l : list AdvertisingInstance) i p f :
  l !! i = Some p ->
  flat_map timers_of (alter f i l)
  = flat_map timers_of (take i l) ++ timers_of (f p)
    ++ flat_map timers_of (drop (S i) l).
Proof.
  intros Hp. erewrite alter_as_insert by exact Hp.
  rewrite insert_take_drop by (eapply lookup_lt_Some; eauto).
  now rewrite timers_app.
Qed.

Lemma In_timers (l : list AdvertisingInstance) t :
  In t (flat_map timers_of l) <->
  exists i p, l !! i = Some p /\
              (t = Inst.adv_raddr_timer p \/ Inst.timeout_timer p = Some t).
Proof.
  rewrite in_flat_map. split.
  - intros (p & Hin & Ht). apply list_elem_of_In, list_elem_of_lookup in Hin.
    destruct Hin as [i Hi]. exists i, p. split; [exact Hi|].
    unfold timers_of in Ht. destruct Ht as [<- | Ht]; [now left|].
    destruct (Inst.timeout_timer p); simpl in Ht; [|contradiction].
    destruct Ht as [<- | []]. now right.
  - intros (i & p & Hi & Ht). exists p. split.
    + apply list_elem_of_In, list_elem_of_lookup. eauto.
    + unfold timers_of. destruct Ht as [-> | ->]; simpl; auto.
Qed.

(** In a table without shared timers, a timeout timer is the address
    timer of no instance. *)
Lemma timeout_not_raddr (l : list AdvertisingInstance) i j p q t :
  NoDup (flat_map timers_of l) ->
  l !! i = Some p -> Inst.timeout_timer p = Some t ->
  l !! j = Some q -> Inst.adv_raddr_timer q <> t.
Proof.
  intros Hnd Hp Ht Hq Heq.
  rewrite (timers_middle l i p Hp) in Hnd. unfold timers_of in Hnd at 2.
  rewrite Ht in Hnd.
  apply NoDup_app in Hnd as (_ & H1 & Hnd).
  change (NoDup ([Inst.adv_raddr_timer p; t]
                 ++ flat_map timers_of (drop (S i) l))) in Hnd.
  apply NoDup_app in Hnd as (Hpt & H2 & _).
  destruct (lt_eq_lt_dec j i) as [[Hlt | ->] | Hgt].
  - apply (H1 t).
    + apply list_elem_of_In, In_timers. exists j, q. split; [|now left].
      now rewrite lookup_take_lt.
    + apply list_elem_of_In. simpl. auto.
  - rewrite Hp in Hq. injection Hq as <-.
    apply NoDup_cons in Hpt as [Hpt _]. apply Hpt. rewrite Heq. now left.
  - apply (H2 t).
    + apply list_elem_of_In. simpl. auto.
    + apply list_elem_of_In, In_timers. exists (j - S i)%nat, q.
      split; [|now left]. rewrite lookup_drop.
      now replace (S i + (j - S i))%nat with j by lia.
Qed.

Lemma insts_ok_intro m : forall l i0,
  (forall i p, l !! i = Some p -> inst_ok m (i0 + i) p = true) ->
  insts_ok m i0 l = true.
Proof.
  induction l as [|q l IH]; intros i0 H; [reflexivity|]. simpl.
  apply andb_true_iff. split.
  - rewrite <- (Nat.add_0_r i0). now apply (H 0%nat).
  - apply IH. intros i p Hp.
    replace (S i0 + i)%nat with (i0 + S i)%nat by lia. now apply H.
Qed.

Lemma Inv_sound R m : Inv R m -> sound m = true.
Proof.
  intros [Hs Hc Hi Hr Ha Hn]. unfold sound. apply andb_true_iff. split.
  - unfold wf. rewrite !andb_true_iff. repeat split.
    + now apply Z.eqb_eq.
    + now apply Z.leb_le.
    + apply insts_ok_intro. intros i p Hp. simpl.
      destruct (Hi i p Hp) as [Hid Hlen]. unfold inst_ok.
      rewrite !andb_true_iff. repeat split.
      * now apply Z.eqb_eq.
      * apply Ha, In_timers. exists i, p. auto.
      * now apply Nat.eqb_eq.
      * destruct (Inst.timeout_timer p) as [t|] eqn:Ht; [|reflexivity].
        apply andb_true_iff. split.
        -- apply Ha, In_timers. exists i, p. auto.
        -- apply forallb_forall. intros q Hq.
           apply list_elem_of_In, list_elem_of_lookup in Hq as [j Hq].
           apply negb_true_iff, Nat.eqb_neq.
           exact (timeout_not_raddr _ i j p q t Hn Hp Ht Hq).
  - now apply distinct_NoDup.
Qed.

Lemma sound_Inv m :
  sound m = true -> Inv (map Inst.adv_raddr_timer (adv_inst m)) m.
Proof.
  unfold sound. intros H. apply andb_true_iff in H as [Hwf Hd].
  constructor.
  - now apply wf_sized.
  - now apply wf_count.
  - intros i p Hp. split; [now apply (wf_inst_id m i p)|].
    pose proof (wf_inst m i p Hwf Hp) as Hok. unfold inst_ok in Hok.
    apply andb_true_iff in Hok as [Hok _].
    apply andb_true_iff in Hok as [_ Hlen]. now apply Nat.eqb_eq.
  - reflexivity.
  - intros t Ht. apply In_timers in Ht as (i & p & Hp & Ht).
    destruct (wf_inst_timers m i p Hwf Hp) as [Hr Hto].
    destruct Ht as [-> | Ht]; [exact Hr|]. now apply Hto.
  - now apply distinct_NoDup.
Qed.

(** ** What keeps a manager sound *)

Lemma Inv_frame R m m' :
  adv_inst m' = adv_inst m -> inst_count m' = inst_count m ->
  (forall t, alive m t = true -> alive m' t = true) ->
  Inv R m -> Inv R m'.
Proof.
  intros Ha Hc Hal [Hs Hn Hi Hr Hli Hnd].
  constructor; unfold table_sized, timers in *; rewrite ?Ha, ?Hc; auto.
Qed.

Lemma stable_timers f p : stable f -> timers_of (f p) = timers_of p.
Proof.
  intros Hf. destruct (Hf p) as (_ & Hr & Ht & _). unfold timers_of.
  now rewrite Hr, Ht.
Qed.

Lemma timers_alter_stable f i (l : list AdvertisingInstance) :
  stable f -> flat_map timers_of (alter f i l) = flat_map timers_of l.
Proof.
  intros Hf. revert i. induction l as [|p l IH]; intros [|i]; simpl;
    try reflexivity.
  - unfold timers_of. now destruct (Hf p) as (_ & -> & -> & _).
  - do 2 f_equal. apply IH.
Qed.

Lemma Inv_modify_stable R m i f :
  stable f -> Inv R m -> Inv R (modify_inst i f m).
Proof.
  intros Hf [Hs Hn Hi Hr Hli Hnd].
  constructor; unfold table_sized, timers, modify_inst in *; simpl.
  - now rewrite length_alter.
  - exact Hn.
  - intros j p Hp.
    destruct (Nat.eq_dec j (Z.to_nat i)) as [Heq|Hne]; [subst j|].
    + rewrite list_lookup_alter_eq in Hp.
      destruct (adv_inst m !! Z.to_nat i) as [q|] eqn:Hq; [|discriminate].
      injection Hp as <-. destruct (Hf q) as (-> & _ & _ & Hlen).
      destruct (Hi _ _ Hq). auto.
    + rewrite list_lookup_alter_ne in Hp by congruence. now apply Hi.
  - rewrite <- Hr. clear -Hf. generalize (Z.to_nat i) as n.
    induction (adv_inst m) as [|p l IH]; intros [|n]; simpl; try reflexivity.
    + now destruct (Hf p) as (_ & -> & _).
    + f_equal. apply IH.
  - rewrite timers_alter_stable by exact Hf. exact Hli.
  - rewrite timers_alter_stable by exact Hf. exact Hnd.
Qed.

Lemma alive_Some m (a : alarm_ptr) :
  alive m a = true <-> exists al, alarms m !! a = Some (Some al).
Proof.
  unfold alive. change alarm_ptr with nat in *.
  destruct (alarms m !! a) as [[al|]|]; split; intros H;
    try discriminate; eauto; now destruct H.
Qed.

Lemma alive_insert m t v a :
  alive m a = true ->
  alive (set_alarms (<[t := Some v]> (alarms m)) m) a = true.
Proof.
  rewrite !alive_Some. cbn [alarms set_alarms]. intros [al H].
  destruct (Nat.eq_dec a t) as [Heq|Hne]; [subst a|].
  - exists v. apply list_lookup_insert_eq. eapply lookup_lt_Some; eauto.
  - exists al. now rewrite list_lookup_insert_ne by congruence.
Qed.

Lemma alive_app m a l :
  alive m a = true -> alive (set_alarms (alarms m ++ l) m) a = true.
Proof.
  rewrite !alive_Some. cbn [alarms set_alarms]. intros [al H].
  exists al. now apply lookup_app_l_Some.
Qed.

Lemma bind_inv {A B} (x : M A) (f : A -> M B) m r :
  bind x f m = Ok r -> exists a m1, x m = Ok (a, m1) /\ f a m1 = Ok r.
Proof.
  unfold bind. destruct (x m) as [[a m1]|]; [eauto|discriminate].
Qed.

Section Keeps.

Context (R : list alarm_ptr).

Local Abbreviation I := (Inv R).

Lemma keeps_ret {A} (a : A) : keeps I (ret a).
Proof. intros m x m' H Heq. now injection Heq as _ <-. Qed.

Lemma keeps_bind {A B} (c : M A) (f : A -> M B) :
  keeps I c -> (forall a, keeps I (f a)) -> keeps I (bind c f).
Proof.
  intros Hc Hf m b m' Hm H. apply bind_inv in H as (a & m1 & H1 & H2).
  exact (Hf a m1 b m' (Hc m a m1 Hm H1) H2).
Qed.

Lemma keeps_get : keeps I get.
Proof. intros m x m' H Heq. now injection Heq as _ <-. Qed.

Lemma keeps_throw {A} e : keeps I (@throw A e).
Proof. intros m x m' _ Heq. discriminate. Qed.

Lemma keeps_lift {A} (x : outcome A) : keeps I (lift x).
Proof.
  intros m a m' H Heq. unfold lift in Heq. destruct x; [|discriminate].
  now injection Heq as _ <-.
Qed.

Lemma keeps_emit e : keeps I (emit e).
Proof.
  intros m x m' H Heq. rewrite emit_run in Heq. injection Heq as _ <-.
  apply (Inv_frame R m); auto.
Qed.

Lemma keeps_hci c cb : keeps I (hci c cb).
Proof.
  intros m x m' H Heq. rewrite hci_run in Heq. injection Heq as _ <-.
  apply (Inv_frame R m); auto.
Qed.

Lemma keeps_set_hci_queue q : keeps I (modify (set_hci_queue q)).
Proof.
  intros m x m' H Heq. injection Heq as _ <-.
  apply (Inv_frame R m); auto.
Qed.

Lemma keeps_set_rpa_queue (q : manager -> list (Z * Closure)) :
  keeps I (modify (fun m => set_rpa_queue (q m) m)).
Proof.
  intros m x m' H Heq. injection Heq as _ <-.
  apply (Inv_frame R m); auto.
Qed.

Lemma keeps_inst_at i : keeps I (inst_at i).
Proof.
  intros m x m' H Heq. unfold inst_at in Heq.
  destruct (adv_inst m !! Z.to_nat i); [|discriminate].
  now injection Heq as _ <-.
Qed.

Lemma keeps_update_inst i f : stable f -> keeps I (update_inst i f).
Proof.
  intros Hf m x m' H Heq.
  destruct (adv_inst m !! Z.to_nat i) as [p|] eqn:Hp.
  - rewrite (update_inst_modify m i f p Hp) in Heq. injection Heq as _ <-.
    now apply Inv_modify_stable.
  - unfold update_inst in Heq. rewrite Hp in Heq. discriminate.
Qed.

Lemma keeps_with_alarm a f :
  (forall al, exists v, f al = Some v) -> keeps I (with_alarm a f).
Proof.
  intros Hf m x m' H Heq. unfold with_alarm in Heq.
  destruct (alarms m !! a) as [[al|]|]; try discriminate.
  injection Heq as _ <-. destruct (Hf al) as [v ->].
  apply (Inv_frame R m); try reflexivity; [|exact H].
  intros t. apply alive_insert.
Qed.

Lemma keeps_alarm_set_on_queue a ms cb : keeps I (alarm_set_on_queue a ms cb).
Proof.
  apply keeps_bind; [|intros _; apply keeps_emit].
  apply keeps_with_alarm. eauto.
Qed.

Lemma keeps_alarm_cancel a : keeps I (alarm_cancel a).
Proof.
  apply keeps_bind; [|intros _; apply keeps_emit].
  apply keeps_with_alarm. eauto.
Qed.

End Keeps.

(** ** Construction of the table *)

Lemma vector_emplace_back_run i m :
  (length (adv_inst m) < adv_inst_capacity m)%nat ->
  vector_emplace_back i m
  = Ok (tt,
        set_adv_inst
          (adv_inst m ++ [new_instance i (length (alarms m))])
          (set_trace (trace m ++ [E_alarm_new (length (alarms m))])
             (set_alarms (alarms m ++ [idle_periodic]) m))).
Proof.
  intros Hlt. unfold vector_emplace_back, AdvertisingInstance_new,
    alarm_new_periodic, alarm_new_with. monad. unfold modify. cbv beta iota.
  cbn [adv_inst adv_inst_capacity set_alarms set_trace].
  now rewrite (proj2 (Nat.ltb_lt _ _) Hlt).
Qed.

Lemma emplace_instances_run k : forall i m,
  (length (adv_inst m) + k <= adv_inst_capacity m)%nat ->
  emplace_instances k i m
  = Ok (tt,
        set_adv_inst
          (adv_inst m
           ++ map (fun j => new_instance (i + Z.of_nat j)
                              (length (alarms m) + j)%nat) (seq 0 k))
          (set_trace
             (trace m
              ++ map (fun j => E_alarm_new (length (alarms m) + j)%nat) (seq 0 k))
             (set_alarms (alarms m ++ repeat idle_periodic k) m))).
Proof.
  induction k as [|k IH]; intros i m Hcap.
  - simpl. rewrite !app_nil_r. now destruct m.
  - cbn [emplace_instances]. unfold bind at 1.
    rewrite vector_emplace_back_run by lia.
    rewrite IH by (cbn [adv_inst adv_inst_capacity set_adv_inst set_trace
                        set_alarms]; rewrite length_app; simpl; lia).
    simpl.
    rewrite !length_app. simpl. rewrite <- !app_assoc. simpl.
    rewrite <- !seq_shift, !map_map, Z.add_0_r, Nat.add_0_r.
    do 2 f_equal. unfold set_adv_inst, set_trace, set_alarms. simpl.
    f_equal.
    + do 2 f_equal. apply map_ext. intros j. f_equal; lia.
    + do 2 f_equal. apply map_ext. intros j. f_equal. lia.
Qed.

Lemma lookup_repeat {A} (x : A) n i :
  (i < n)%nat -> repeat x n !! i = Some x.
Proof.
  revert i. induction n as [|n IH]; intros [|i] H; simpl; try lia.
  - reflexivity.
  - apply IH. lia.
Qed.

Lemma timers_new_instances (l : list nat) :
  flat_map timers_of (map demo_instance l) = l.
Proof. induction l as [|i l IH]; simpl; [reflexivity|]. now rewrite IH. Qed.

Lemma ReadInstanceCountCb_run n :
  0 <= n ->
  ReadInstanceCountCb n BleAdvertisingManagerImpl_new
  = Ok (tt, constructed (Z.to_nat n)).
Proof.
  intros Hn. unfold ReadInstanceCountCb.
  assert (Hres : (modify (set_inst_count n) ;;
                  vector_reserve (Z.to_nat n)) BleAdvertisingManagerImpl_new
                 = Ok (tt, set_adv_inst_capacity (Z.to_nat n)
                             (set_inst_count n BleAdvertisingManagerImpl_new))).
  { unfold vector_reserve, vector_reallocate. monad. simpl.
    destruct (Z.to_nat n) as [|k] eqn:Hk; reflexivity. }
  unfold bind at 1. unfold bind at 1 in Hres.
  destruct (modify (set_inst_count n) BleAdvertisingManagerImpl_new)
    as [[[] m0]|]; [|discriminate].
  unfold bind at 1. rewrite Hres.
  rewrite emplace_instances_run by (simpl; lia).
  unfold constructed. simpl.
  rewrite Z2Nat.id by exact Hn. reflexivity.
Qed.

Lemma constructed_Inv n : (n <= 255)%nat -> Inv (seq 0 n) (constructed n).
Proof.
  intros Hn. constructor; simpl.
  - unfold table_sized. simpl. now rewrite length_map, length_seq.
  - lia.
  - intros i p Hp. rewrite list_lookup_fmap in Hp.
    destruct (seq 0 n !! i) as [j|] eqn:Hj; [|discriminate].
    apply lookup_seq in Hj as [-> _]. injection Hp as <-. now split.
  - rewrite map_map. simpl. apply map_id.
  - unfold timers. simpl. rewrite timers_new_instances. intros t Hin.
    apply in_seq in Hin. apply alive_Some. simpl.
    exists {| is_periodic := true; deadline := None |}.
    apply lookup_repeat. lia.
  - unfold timers. simpl. rewrite timers_new_instances. apply NoDup_seq.
Qed.

(** X1: [ReadInstanceCountCb(n)] on the manager as constructed builds a
    table of [n] instances, instance [i] having [inst_id = i], not in use,
    all fields zero, and a periodic address timer of its own, not armed;
    no command is sent; the manager is sound. *)
Theorem ReadInstanceCountCb_table n :
  0 <= n <= 255 ->
  exists m,
    ReadInstanceCountCb n BleAdvertisingManagerImpl_new = Ok (tt, m) /\
    inst_count m = n /\
    adv_inst m = map demo_instance (seq 0 (Z.to_nat n)) /\
    alarms m = repeat idle_periodic (Z.to_nat n) /\
    hci_queue m = [] /\ rpa_queue m = [] /\
    hci_commands (trace m) = [] /\
    sound m = true.
Proof.
  intros [Hn Hmax]. exists (constructed (Z.to_nat n)).
  split; [now apply ReadInstanceCountCb_run|].
  split; [simpl; lia|]. do 4 (split; [reflexivity|]). split.
  - simpl. induction (seq 0 (Z.to_nat n)) as [|j l IH]; [reflexivity|exact IH].
  - apply (Inv_sound (seq 0 (Z.to_nat n))), constructed_Inv. lia.
Qed.

Lemma stable_set_in_use b : stable (Inst.set_in_use b).
Proof. intros p. now repeat split. Qed.

Lemma stable_set_advertising_event_properties v :
  stable (Inst.set_advertising_event_properties v).
Proof. intros p. now repeat split. Qed.

Lemma stable_set_tx_power v : stable (Inst.set_tx_power v).
Proof. intros p. now repeat split. Qed.

Lemma stable_set_timeout_s v : stable (Inst.set_timeout_s v).
Proof. intros p. now repeat split. Qed.

Lemma stable_set_own_address_type v : stable (Inst.set_own_address_type v).
Proof. intros p. now repeat split. Qed.

Lemma stable_set_own_address_at i v : stable (Inst.set_own_address_at i v).
Proof.
  intros p. repeat split. intros H. unfold Inst.set_own_address_at.
  cbn [Inst.own_address Inst.set_own_address].
  etransitivity; [apply length_insert | exact H].
Qed.

Lemma stable_set_own_address v :
  length v = BD_ADDR_LEN -> stable (Inst.set_own_address v).
Proof. intros H p. now repeat split. Qed.

Lemma NoDup_middle_sub {A} (l1 x x' l2 : list A) :
  x' ⊆ x -> NoDup x' -> NoDup (l1 ++ x ++ l2) -> NoDup (l1 ++ x' ++ l2).
Proof.
  rewrite !NoDup_app. intros Hsub Hx' (H1 & H12 & _ & Hx2 & H2).
  repeat split; try assumption.
  - intros a Ha Hin. apply (H12 a Ha). rewrite elem_of_app in *.
    destruct Hin as [Hin|Hin]; [left; now apply Hsub | now right].
  - intros a Ha. apply Hx2. now apply Hsub.
Qed.

Lemma elem_of_middle_sub {A} (l1 x x' l2 : list A) a :
  x' ⊆ x -> a ∈ l1 ++ x' ++ l2 -> a ∈ l1 ++ x ++ l2.
Proof.
  intros Hsub. rewrite !elem_of_app. intros [H|[H|H]]; auto.
Qed.

(** Releasing the timeout timer of an instance, as [Enable] does. *)
Lemma release_keeps R m i p t m' :
  Inv R m ->
  adv_inst m !! Z.to_nat i = Some p -> Inst.timeout_timer p = Some t ->
  (alarm_cancel t ;; alarm_free t ;;
   update_inst i (Inst.set_timeout_timer None)) m = Ok (tt, m') ->
  Inv R m'.
Proof.
  intros [Hs Hn Hi Hr Hli Hnd] Hp Ht H.
  assert (Hin : In t (timers m)).
  { apply In_timers. exists (Z.to_nat i), p. auto. }
  apply Hli, alive_Some in Hin as [al Hal].
  erewrite bind_Ok in H by (apply alarm_cancel_run; exact Hal).
  erewrite bind_Ok in H
    by (eapply alarm_free_run; simpl; apply list_lookup_insert_eq;
        eapply lookup_lt_Some; eauto).
  erewrite update_inst_modify in H by (simpl; exact Hp).
  injection H as <-. unfold timers in *.
  pose proof (timers_middle _ _ _ Hp) as Hmid.
  assert (Hsub : [Inst.adv_raddr_timer p] ⊆ timers_of p).
  { unfold timers_of. intros a Ha. apply list_elem_of_singleton in Ha as ->.
    now left. }
  constructor; unfold table_sized, timers, modify_inst; simpl.
  - now rewrite length_alter.
  - exact Hn.
  - intros j q Hq.
    destruct (Nat.eq_dec j (Z.to_nat i)) as [Heq|Hne]; [subst j|].
    + rewrite list_lookup_alter_eq, Hp in Hq. injection Hq as <-.
      exact (Hi _ _ Hp).
    + rewrite list_lookup_alter_ne in Hq by congruence. now apply Hi.
  - rewrite <- Hr. clear. generalize (Z.to_nat i) as n.
    induction (adv_inst m) as [|q l IH]; intros [|n]; simpl; try reflexivity.
    f_equal. apply IH.
  - rewrite (timers_alter _ _ _ _ Hp). intros t' Hin.
    change (timers_of (Inst.set_timeout_timer None p))
      with [Inst.adv_raddr_timer p] in Hin.
    apply list_elem_of_In in Hin.
    assert (Hne : t' <> t).
    { intros ->. rewrite Hmid in Hnd. unfold timers_of in Hnd at 2.
      rewrite Ht in Hnd.
      apply NoDup_app in Hnd as (_ & H1 & Hnd).
      change (NoDup ([Inst.adv_raddr_timer p; t]
                     ++ flat_map timers_of (drop (S (Z.to_nat i)) (adv_inst m))))
        in Hnd.
      apply NoDup_app in Hnd as (Hpt & H2 & _).
      apply NoDup_cons in Hpt as [Hpt _].
      rewrite !elem_of_app in Hin. destruct Hin as [Hin|[Hin|Hin]].
      - apply (H1 t Hin). simpl. rewrite !elem_of_cons. auto.
      - apply list_elem_of_singleton in Hin. apply Hpt. rewrite <- Hin.
        now left.
      - apply (H2 t); [|exact Hin]. rewrite !elem_of_cons. auto. }
    apply (elem_of_middle_sub _ (timers_of p)) in Hin; [|exact Hsub].
    rewrite <- Hmid in Hin. apply list_elem_of_In, Hli in Hin.
    apply alive_Some in Hin as [al' Hal']. apply alive_Some. exists al'.
    simpl. now rewrite !list_lookup_insert_ne by congruence.
  - rewrite (timers_alter _ _ _ _ Hp).
    change (timers_of (Inst.set_timeout_timer None p))
      with [Inst.adv_raddr_timer p].
    apply (NoDup_middle_sub _ (timers_of p)); [exact Hsub| |].
    + apply NoDup_singleton.
    + now rewrite <- Hmid.
Qed.

Lemma NoDup_middle_snoc {A} (l1 x l2 : list A) t :
  NoDup (l1 ++ x ++ l2) -> t ∉ l1 ++ x ++ l2 ->
  NoDup (l1 ++ (x ++ [t]) ++ l2).
Proof.
  rewrite !NoDup_app, !elem_of_app.
  intros (H1 & H12 & Hx & Hx2 & H2) Ht.
  repeat split; try assumption.
  - intros a Ha. rewrite !elem_of_app, list_elem_of_singleton.
    intros [[Hin| ->]|Hin].
    + apply (H12 a Ha). rewrite elem_of_app. auto.
    + apply Ht. auto.
    + apply (H12 a Ha). rewrite elem_of_app. auto.
  - intros a Ha. rewrite list_elem_of_singleton. intros ->. apply Ht. auto.
  - apply NoDup_singleton.
  - intros a. rewrite elem_of_app, list_elem_of_singleton.
    intros [Ha| ->]; [now apply Hx2|]. intros Hin. apply Ht. auto.
Qed.

(** Giving an instance a new timeout timer, as [EnableWithTimerCb] does:
    the alarm is new, so no instance holds it. *)
Lemma arm_keeps R m i q timeout_s v tr :
  Inv R m -> adv_inst m !! Z.to_nat i = Some q ->
  Inv R (set_trace tr
           (set_alarms (alarms m ++ [Some v])
              (modify_inst i
                 (fun a => Inst.set_timeout_timer (Some (length (alarms m)))
                             (Inst.set_timeout_s timeout_s a)) m))).
Proof.
  intros [Hs Hn Hi Hr Hli Hnd] Hq. set (t := length (alarms m)).
  unfold timers in *. pose proof (timers_middle _ _ _ Hq) as Hmid.
  assert (Hsub : [Inst.adv_raddr_timer q] ⊆ timers_of q).
  { unfold timers_of. intros a Ha. apply list_elem_of_singleton in Ha as ->.
    now left. }
  assert (Hfresh : forall t', In t' (flat_map timers_of (adv_inst m)) ->
                              t' <> t).
  { intros t' Hin. apply Hli, alive_Some in Hin as [al Hal].
    apply lookup_lt_Some in Hal. unfold t. lia. }
  constructor; unfold table_sized, timers, modify_inst; simpl.
  - now rewrite length_alter.
  - exact Hn.
  - intros j p Hp.
    destruct (Nat.eq_dec j (Z.to_nat i)) as [Heq|Hne]; [subst j|].
    + rewrite list_lookup_alter_eq, Hq in Hp. injection Hp as <-.
      exact (Hi _ _ Hq).
    + rewrite list_lookup_alter_ne in Hp by congruence. now apply Hi.
  - rewrite <- Hr. clear. generalize (Z.to_nat i) as n.
    induction (adv_inst m) as [|p l IH]; intros [|n]; simpl; try reflexivity.
    f_equal. apply IH.
  - rewrite (timers_alter _ _ _ _ Hq). intros t' Hin.
    change (timers_of (Inst.set_timeout_timer (Some t)
                         (Inst.set_timeout_s timeout_s q)))
      with ([Inst.adv_raddr_timer q] ++ [t]) in Hin.
    apply list_elem_of_In in Hin. rewrite !elem_of_app in Hin.
    assert (Hcase : t' = t \/ t' ∈ flat_map timers_of (adv_inst m)).
    { rewrite Hmid, !elem_of_app. rewrite !list_elem_of_singleton in Hin.
      destruct Hin as [H|[[H|H]|H]]; auto.
      right. right. left. apply Hsub. now apply list_elem_of_singleton. }
    destruct Hcase as [-> | Hin'].
    + apply alive_Some. exists v. simpl. unfold t.
      rewrite lookup_app_r by lia. now rewrite Nat.sub_diag.
    + apply list_elem_of_In, Hli in Hin'.
      exact (alive_app m t' [Some v] Hin').
  - rewrite (timers_alter _ _ _ _ Hq).
    change (timers_of (Inst.set_timeout_timer (Some t)
                         (Inst.set_timeout_s timeout_s q)))
      with ([Inst.adv_raddr_timer q] ++ [t]).
    apply NoDup_middle_snoc.
    + apply (NoDup_middle_sub _ (timers_of q)); [exact Hsub| |].
      * apply NoDup_singleton.
      * now rewrite <- Hmid.
    + intros Hin.
      apply (elem_of_middle_sub _ (timers_of q)) in Hin; [|exact Hsub].
      rewrite <- Hmid in Hin. apply list_elem_of_In in Hin.
      now apply (Hfresh t).
Qed.

Create HintDb keeps.

Section KeepsManager.

Context (P : platform) (R : list alarm_ptr).

(** The controller address is a [BD_ADDR]. *)
Hypothesis Haddr : length (controller_address P) = BD_ADDR_LEN.

Local Abbreviation I := (Inv R).

Lemma keeps_if {A} (b : bool) (x y : M A) :
  keeps I x -> keeps I y -> keeps I (if b then x else y).
Proof. now destruct b. Qed.

#[local] Hint Resolve keeps_ret keeps_get keeps_throw keeps_lift keeps_emit
  keeps_hci keeps_inst_at keeps_alarm_set_on_queue keeps_alarm_cancel
  keeps_set_hci_queue keeps_set_rpa_queue keeps_bind keeps_if
  keeps_update_inst : keeps.
#[local] Hint Resolve stable_set_in_use
  stable_set_advertising_event_properties stable_set_tx_power
  stable_set_timeout_s stable_set_own_address_type stable_set_own_address_at
  stable_set_own_address : keeps.

Lemma keeps_Run_IdTxPowerStatusCb cb i tx s :
  keeps I (Run_IdTxPowerStatusCb cb i tx s).
Proof. destruct cb; simpl; auto with keeps. Qed.

Lemma keeps_Run_RegisterCb cb i s : keeps I (Run_RegisterCb cb i s).
Proof. destruct cb; simpl; auto with keeps. Qed.

Lemma keeps_Run_DataSender sender i op len data cb :
  keeps I (Run_DataSender sender i op len data cb).
Proof.
  destruct sender as [[]|]; simpl; unfold SetDataAdvDataSender;
    auto with keeps.
Qed.

#[local] Hint Resolve keeps_Run_IdTxPowerStatusCb keeps_Run_RegisterCb
  keeps_Run_DataSender : keeps.

Lemma keeps_DivideAndSendDataRecursively_open done_cb_Run isFirst i data
    offset done_cb sender s :
  (forall s, keeps I (done_cb_Run s)) ->
  keeps I (DivideAndSendDataRecursively_open done_cb_Run isFirst i data
             offset done_cb sender s).
Proof.
  intros H. unfold DivideAndSendDataRecursively_open. cbv zeta.
  auto with keeps.
Qed.

Lemma keeps_DivideAndSendData_open done_cb_Run i data done_cb sender :
  (forall s, keeps I (done_cb_Run s)) ->
  keeps I (DivideAndSendData_open done_cb_Run i data done_cb sender).
Proof. intros H. now apply keeps_DivideAndSendDataRecursively_open. Qed.

#[local] Hint Resolve keeps_DivideAndSendDataRecursively_open
  keeps_DivideAndSendData_open : keeps.

Lemma keeps_SetPeriodicAdvertisingParameters i params cb :
  keeps I (SetPeriodicAdvertisingParameters i params cb).
Proof. unfold SetPeriodicAdvertisingParameters. auto with keeps. Qed.

Lemma keeps_SetPeriodicAdvertisingData_open cb_Run i data cb :
  (forall s, keeps I (cb_Run s)) ->
  keeps I (SetPeriodicAdvertisingData_open cb_Run i data cb).
Proof. intros H. unfold SetPeriodicAdvertisingData_open. auto with keeps. Qed.

Lemma keeps_SetPeriodicAdvertisingEnable i e cb :
  keeps I (SetPeriodicAdvertisingEnable i e cb).
Proof. unfold SetPeriodicAdvertisingEnable. auto with keeps. Qed.

Lemma keeps_Unregister i : keeps I (Unregister i).
Proof. unfold Unregister, addr_of_inst. auto 12 with keeps. Qed.

Lemma keeps_SetData_open cb_Run i is_scan_rsp data cb :
  (forall s, keeps I (cb_Run s)) ->
  keeps I (SetData_open cb_Run i is_scan_rsp data cb).
Proof. intros H. unfold SetData_open. auto 10 with keeps. Qed.

#[local] Hint Resolve keeps_SetPeriodicAdvertisingParameters
  keeps_SetPeriodicAdvertisingData_open keeps_SetPeriodicAdvertisingEnable
  keeps_Unregister keeps_SetData_open : keeps.

Lemma get_inv m a m' : get m = Ok (a, m') -> a = m /\ m' = m.
Proof. intros H. injection H as <- <-. now split. Qed.

Lemma inst_at_inv i m p m' :
  inst_at i m = Ok (p, m') -> adv_inst m !! Z.to_nat i = Some p /\ m' = m.
Proof.
  unfold inst_at. destruct (adv_inst m !! Z.to_nat i); [|discriminate].
  intros H. injection H as <- <-. now split.
Qed.

Lemma update_inst_inv i f m m' :
  update_inst i f m = Ok (tt, m') ->
  exists p, adv_inst m !! Z.to_nat i = Some p /\ m' = modify_inst i f m.
Proof.
  intros H. destruct (adv_inst m !! Z.to_nat i) as [p|] eqn:Hp.
  - rewrite (update_inst_modify m i f p Hp) in H. injection H as <-. eauto.
  - unfold update_inst in H. rewrite Hp in H. discriminate.
Qed.

Lemma keeps_Enable_open cb_Run i enable cb timeout_s timeout_cb :
  (forall s, keeps I (cb_Run s)) ->
  keeps I (Enable_open P cb_Run i enable cb timeout_s timeout_cb).
Proof.
  intros Hcb m x m' Hm H. unfold Enable_open in H.
  apply bind_inv in H as (m0 & m1 & Hget & H).
  apply get_inv in Hget as [-> ->].
  destruct (i >=? inst_count m); [now injection H as _ <-|].
  apply bind_inv in H as (p & m1 & Hat & H).
  apply inst_at_inv in Hat as [Hp ->].
  destruct (negb (Inst.in_use p)); [exact (Hcb _ _ _ _ Hm H)|].
  destruct (enable && negb (timeout_s =? 0));
    [exact (keeps_hci R _ _ _ _ _ Hm H)|].
  apply bind_inv in H as ([] & m2 & Hrel & H).
  refine (keeps_hci R _ _ _ _ _ _ H).
  destruct (Inst.timeout_timer p) as [t|] eqn:Ht.
  - exact (release_keeps R m i p t m2 Hm Hp Ht Hrel).
  - now injection Hrel as <-.
Qed.

Lemma keeps_EnableWithTimerCb_open enable_cb_Run i enable_cb timeout_s
    timeout_cb s :
  (forall s, keeps I (enable_cb_Run s)) ->
  keeps I (EnableWithTimerCb_open enable_cb_Run i enable_cb timeout_s
             timeout_cb s).
Proof.
  intros Hcb m x m' Hm H. pose proof H as H0.
  unfold EnableWithTimerCb_open in H.
  apply bind_inv in H as ([] & m1 & Hrun & H).
  apply bind_inv in H as ([] & m2 & Hup & _).
  apply update_inst_inv in Hup as (q & Hq & _).
  rewrite (EnableWithTimerCb_tail enable_cb_Run i enable_cb timeout_s
             timeout_cb s m m1 q Hrun Hq) in H0.
  injection H0 as _ <-. apply (arm_keeps R m1 i q); [|exact Hq].
  exact (Hcb _ _ _ _ Hm Hrun).
Qed.

#[local] Hint Resolve keeps_Enable_open keeps_EnableWithTimerCb_open : keeps.


Lemma keeps_StartAdvertisingSet_enable_cb c s :
  keeps I (StartAdvertisingSet_enable_cb c s).
Proof. unfold StartAdvertisingSet_enable_cb. auto 10 with keeps. Qed.

#[local] Hint Resolve keeps_StartAdvertisingSet_enable_cb : keeps.

Lemma keeps_StartAdvertisingSetFinish c :
  keeps I (StartAdvertisingSetFinish P c).
Proof. unfold StartAdvertisingSetFinish. cbv zeta. auto with keeps. Qed.

#[local] Hint Resolve keeps_StartAdvertisingSetFinish : keeps.

Lemma keeps_StartAdvertisingSet_periodic_enable_cb c s :
  keeps I (StartAdvertisingSet_periodic_enable_cb P c s).
Proof. unfold StartAdvertisingSet_periodic_enable_cb. auto 10 with keeps. Qed.

#[local] Hint Resolve keeps_StartAdvertisingSet_periodic_enable_cb : keeps.

Lemma keeps_StartAdvertisingSet_periodic_data_cb c s :
  keeps I (StartAdvertisingSet_periodic_data_cb c s).
Proof. unfold StartAdvertisingSet_periodic_data_cb. auto 10 with keeps. Qed.

#[local] Hint Resolve keeps_StartAdvertisingSet_periodic_data_cb : keeps.

Lemma keeps_StartAdvertisingSet_periodic_parameters_cb c s :
  keeps I (StartAdvertisingSet_periodic_parameters_cb c s).
Proof.
  unfold StartAdvertisingSet_periodic_parameters_cb. auto 10 with keeps.
Qed.

Lemma keeps_StartAdvertisingSetPeriodicPart c :
  keeps I (StartAdvertisingSetPeriodicPart c).
Proof. unfold StartAdvertisingSetPeriodicPart. auto with keeps. Qed.

#[local] Hint Resolve keeps_StartAdvertisingSet_periodic_parameters_cb
  keeps_StartAdvertisingSetPeriodicPart : keeps.

Lemma keeps_StartAdvertisingSet_scan_response_data_cb c s :
  keeps I (StartAdvertisingSet_scan_response_data_cb P c s).
Proof.
  unfold StartAdvertisingSet_scan_response_data_cb. auto 10 with keeps.
Qed.

#[local] Hint Resolve keeps_StartAdvertisingSet_scan_response_data_cb : keeps.

Lemma keeps_StartAdvertisingSet_advertise_data_cb c s :
  keeps I (StartAdvertisingSet_advertise_data_cb P c s).
Proof. unfold StartAdvertisingSet_advertise_data_cb. auto 10 with keeps. Qed.

#[local] Hint Resolve keeps_StartAdvertisingSet_advertise_data_cb : keeps.

Lemma keeps_StartAdvertisingSet_random_address_cb c s :
  keeps I (StartAdvertisingSet_random_address_cb P c s).
Proof. unfold StartAdvertisingSet_random_address_cb. auto 10 with keeps. Qed.

Lemma keeps_StartAdvertisingSet_parameters_cb c s tx :
  keeps I (StartAdvertisingSet_parameters_cb c s tx).
Proof. unfold StartAdvertisingSet_parameters_cb. auto 10 with keeps. Qed.

#[local] Hint Resolve keeps_StartAdvertisingSet_random_address_cb
  keeps_StartAdvertisingSet_parameters_cb : keeps.

Lemma keeps_StartAdvertising_scan_response_data_cb cb_Run c s :
  (forall s, keeps I (cb_Run s)) ->
  keeps I (StartAdvertising_scan_response_data_cb P cb_Run c s).
Proof.
  intros H. unfold StartAdvertising_scan_response_data_cb. auto with keeps.
Qed.

#[local] Hint Resolve keeps_StartAdvertising_scan_response_data_cb : keeps.

Lemma keeps_StartAdvertising_advertise_data_cb cb_Run c s :
  (forall s, keeps I (cb_Run s)) ->
  keeps I (StartAdvertising_advertise_data_cb P cb_Run c s).
Proof.
  intros H. unfold StartAdvertising_advertise_data_cb. auto with keeps.
Qed.

#[local] Hint Resolve keeps_StartAdvertising_advertise_data_cb : keeps.

Lemma keeps_StartAdvertising_random_address_cb cb_Run c s :
  (forall s, keeps I (cb_Run s)) ->
  keeps I (StartAdvertising_random_address_cb P cb_Run c s).
Proof.
  intros H. unfold StartAdvertising_random_address_cb. auto with keeps.
Qed.

Lemma keeps_StartAdvertising_parameters_cb cb_Run c s tx :
  (forall s, keeps I (cb_Run s)) ->
  keeps I (StartAdvertising_parameters_cb cb_Run c s tx).
Proof.
  intros H. unfold StartAdvertising_parameters_cb. auto 10 with keeps.
Qed.

#[local] Hint Resolve keeps_StartAdvertising_random_address_cb
  keeps_StartAdvertising_parameters_cb : keeps.

(** Every callback the manager can run keeps the manager sound. *)
Lemma keeps_Run cb : forall s, keeps I (Run P cb s).
Proof.
  revert cb.
  apply (MultiAdvCb_induction (fun cb => forall s, keeps I (Run P cb s)));
    try (intros; simpl; auto with keeps; fail).
  intros c. repeat (split; [intros s; simpl; auto with keeps|]).
  intros s; simpl; auto with keeps.
Qed.

#[local] Hint Resolve keeps_Run : keeps.

Lemma keeps_Run_ParametersCb cb s tx : keeps I (Run_ParametersCb P cb s tx).
Proof. destruct cb; simpl; auto with keeps. Qed.

#[local] Hint Resolve keeps_Run_ParametersCb : keeps.

Lemma keeps_Enable i enable cb timeout_s timeout_cb :
  keeps I (Enable P i enable cb timeout_s timeout_cb).
Proof. unfold Enable. auto with keeps. Qed.

Lemma keeps_SetData i is_scan_rsp data cb :
  keeps I (SetData P i is_scan_rsp data cb).
Proof. unfold SetData. auto with keeps. Qed.

Lemma keeps_SetPeriodicAdvertisingData i data cb :
  keeps I (SetPeriodicAdvertisingData P i data cb).
Proof. unfold SetPeriodicAdvertisingData. auto with keeps. Qed.

Lemma keeps_SetParameters i params cb :
  keeps I (SetParameters P i params cb).
Proof. unfold SetParameters. cbv zeta. auto 12 with keeps. Qed.

#[local] Hint Resolve keeps_Enable keeps_SetData
  keeps_SetPeriodicAdvertisingData keeps_SetParameters : keeps.

Lemma keeps_Run_RegisterAdvertiserCb cb i s :
  keeps I (Run_RegisterAdvertiserCb P cb i s).
Proof.
  destruct cb; simpl; unfold StartAdvertisingSet_register_cb; cbv zeta;
    auto with keeps.
Qed.

#[local] Hint Resolve keeps_Run_RegisterAdvertiserCb : keeps.

Lemma keeps_Run_Closure cb : keeps I (Run_Closure P cb).
Proof. destruct cb; simpl; auto 10 with keeps. Qed.

#[local] Hint Resolve keeps_Run_Closure : keeps.

Lemma keeps_OnRpaGenerationComplete i cb rand :
  keeps I (OnRpaGenerationComplete P i cb rand).
Proof.
  unfold OnRpaGenerationComplete. cbv zeta.
  repeat (apply keeps_bind; [auto with keeps|intros _]).
  destruct (SMP_Encrypt _ _ _); auto 12 with keeps.
Qed.

Lemma keeps_GenerateRpa i cb : keeps I (GenerateRpa i cb).
Proof. unfold GenerateRpa. auto with keeps. Qed.

#[local] Hint Resolve keeps_OnRpaGenerationComplete keeps_GenerateRpa : keeps.

Lemma keeps_ConfigureRpa p : keeps I (ConfigureRpa p).
Proof. unfold ConfigureRpa. auto with keeps. Qed.

Lemma length_take_controller_address :
  length (take BD_ADDR_LEN (controller_address P)) = BD_ADDR_LEN.
Proof. rewrite length_take, Haddr. reflexivity. Qed.

Lemma keeps_RegisterAdvertiser_slot i p cb :
  keeps I (RegisterAdvertiser_slot P i p cb).
Proof.
  pose proof length_take_controller_address.
  unfold RegisterAdvertiser_slot. auto 12 with keeps.
Qed.

#[local] Hint Resolve keeps_ConfigureRpa keeps_RegisterAdvertiser_slot : keeps.

Lemma keeps_RegisterAdvertiser_from n : forall i cb,
  keeps I (RegisterAdvertiser_from P n i cb).
Proof. induction n as [|n IH]; intros i cb; simpl; auto with keeps. Qed.

#[local] Hint Resolve keeps_RegisterAdvertiser_from : keeps.

Lemma keeps_RegisterAdvertiser cb : keeps I (RegisterAdvertiser P cb).
Proof. unfold RegisterAdvertiser, addr_of_inst. auto with keeps. Qed.

#[local] Hint Resolve keeps_RegisterAdvertiser : keeps.

Lemma keeps_OnAdvertisingSetTerminated s h ch n :
  keeps I (OnAdvertisingSetTerminated P s h ch n).
Proof. unfold OnAdvertisingSetTerminated. auto 12 with keeps. Qed.

Lemma keeps_hci_complete s tx : keeps I (hci_complete P s tx).
Proof.
  unfold hci_complete. apply keeps_bind; [auto with keeps|]. intros m.
  destruct (hci_queue m) as [|[c [cb|cb]] rest]; simpl; auto with keeps.
Qed.

Lemma keeps_rpa_generated rand : keeps I (rpa_generated P rand).
Proof.
  unfold rpa_generated. apply keeps_bind; [auto with keeps|]. intros m.
  destruct (rpa_queue m) as [|[i cb] rest]; auto with keeps.
Qed.

Lemma keeps_alarm_expired a : keeps I (alarm_expired P a).
Proof.
  unfold alarm_expired. apply keeps_bind; [auto with keeps|]. intros m.
  change alarm_ptr with nat in *.
  destruct (alarms m !! a) as [[[periodic [[ms cb]|]]|]|]; auto with keeps.
  apply keeps_bind.
  - destruct periodic; [auto with keeps|].
    apply keeps_with_alarm. eauto.
  - intros _. destruct cb; simpl; auto with keeps.
Qed.

(** Every event but the construction of the table keeps the manager
    sound. *)
Lemma keeps_step e :
  (forall n, e <> Ev_ReadInstanceCountCb n) -> keeps I (step P e).
Proof.
  intros He. destruct e; simpl;
    auto using keeps_OnAdvertisingSetTerminated, keeps_hci_complete,
      keeps_rpa_generated, keeps_alarm_expired with keeps.
  - now destruct (He instance_count).
  - unfold StartAdvertising. cbv zeta. auto with keeps.
  - unfold StartAdvertisingSet. cbv zeta. auto with keeps.
Qed.

End KeepsManager.

(** ** Soundness is an invariant of the manager *)

Lemma keeps_steps P R es :
  length (controller_address P) = BD_ADDR_LEN ->
  Forall (fun e => forall n, e <> Ev_ReadInstanceCountCb n) es ->
  keeps (Inv R) (steps P es).
Proof.
  intros Haddr. induction es as [|e es IH]; intros Hes; simpl.
  - apply keeps_ret.
  - apply Forall_cons in Hes as [He Hes].
    apply keeps_bind; [now apply keeps_step|]. intros _. now apply IH.
Qed.

Lemma Inv_count R m : Inv R m -> inst_count m = Z.of_nat (length R).
Proof.
  intros [Hs _ _ Hr _ _]. unfold table_sized in Hs.
  now rewrite Hs, <- Hr, length_map.
Qed.

Lemma ReadInstanceCountCb_table_witness :
  exists m,
    ReadInstanceCountCb 2 BleAdvertisingManagerImpl_new = Ok (tt, m) /\
    inst_count m = 2 /\
    adv_inst m = map demo_instance (seq 0 (Z.to_nat 2)) /\
    alarms m = repeat idle_periodic (Z.to_nat 2) /\
    hci_queue m = [] /\ rpa_queue m = [] /\
    hci_commands (trace m) = [] /\
    sound m = true.
Proof. apply (ReadInstanceCountCb_table 2). lia. Defined.

(** X2: whatever happens to a sound manager (an API call, an HCI
    completion, the arrival of random bytes, an alarm expiry, a
    set-terminated event), short of a second [ReadInstanceCountCb] and of
    a fault, leaves it sound: well formed, no two timer handles of the table
    the same alarm.  The size of the table and the address timers of the
    instances do not change. *)
Theorem step_keeps_sound P e m m' :
  length (controller_address P) = BD_ADDR_LEN ->
  (forall n, e <> Ev_ReadInstanceCountCb n) ->
  sound m = true ->
  step P e m = Ok (tt, m') ->
  sound m' = true /\
  inst_count m' = inst_count m /\
  map Inst.adv_raddr_timer (adv_inst m')
  = map Inst.adv_raddr_timer (adv_inst m).
Proof.
  intros Haddr He Hm Hstep. apply sound_Inv in Hm.
  pose proof (keeps_step P _ Haddr e He m tt m' Hm Hstep) as Hm'.
  split; [exact (Inv_sound _ _ Hm')|]. split.
  - now rewrite (Inv_count _ _ Hm), (Inv_count _ _ Hm').
  - apply (inv_raddr _ _ Hm').
Qed.

Lemma step_keeps_sound_witness :
  sound demo_registered = true /\
  inst_count demo_registered = inst_count demo_two_free /\
  map Inst.adv_raddr_timer (adv_inst demo_registered)
  = map Inst.adv_raddr_timer (adv_inst demo_two_free).
Proof.
  apply (step_keeps_sound demo_platform
           (Ev_RegisterAdvertiser (UserRegisterCb 0)) demo_two_free
           demo_registered).
  - reflexivity.
  - intros n H. discriminate H.
  - vm_compute. reflexivity.
  - reflexivity.
Defined.

(** X3: every manager reached from the construction, by
    [ReadInstanceCountCb(n)] and then any events that do not fault, is
    sound (hence well formed), with a table of [n] instances. *)
Theorem reachable_sound P n es m :
  0 <= n <= 255 ->
  length (controller_address P) = BD_ADDR_LEN ->
  Forall (fun e => forall k, e <> Ev_ReadInstanceCountCb k) es ->
  exec P (Ev_ReadInstanceCountCb n :: es) BleAdvertisingManagerImpl_new
  = Ok m ->
  sound m = true /\ wf m = true /\
  inst_count m = n /\ length (adv_inst m) = Z.to_nat n.
Proof.
  intros Hn Haddr Hes Hrun.
  unfold exec in Hrun. rewrite steps_cons in Hrun.
  simpl step in Hrun.
  erewrite bind_Ok in Hrun by (apply ReadInstanceCountCb_run; lia).
  set (m0 := constructed (Z.to_nat n)) in *.
  destruct (steps P es m0) as [[[] m1]|] eqn:Hsteps; [|discriminate].
  injection Hrun as <-.
  assert (Hs0 : Inv (seq 0 (Z.to_nat n)) m0) by (apply constructed_Inv; lia).
  pose proof (keeps_steps P _ es Haddr Hes m0 tt m1 Hs0 Hsteps) as Hm.
  pose proof (Inv_sound _ _ Hm) as Hsound.
  assert (Hcount : inst_count m1 = n).
  { rewrite (Inv_count _ _ Hm), length_seq. lia. }
  repeat split; try assumption.
  - unfold sound in Hsound. now apply andb_true_iff in Hsound as [H _].
  - pose proof (inv_sized _ _ Hm) as Hs. unfold table_sized in Hs. lia.
Qed.

Lemma reachable_sound_witness :
  sound demo_start_set_rejected = true /\
  wf demo_start_set_rejected = true /\
  inst_count demo_start_set_rejected = 2 /\
  length (adv_inst demo_start_set_rejected) = Z.to_nat 2.
Proof.
  apply (reachable_sound demo_platform 2
           [Ev_StartAdvertisingSet (UserIdTxPowerStatusCb 1) demo_params
              [0x02; 0xFF; 0x42] [] demo_no_periodic [] 30 (UserRegisterCb 2);
            Ev_HciComplete 0 (-5); Ev_HciComplete 0 0; Ev_HciComplete 0 0;
            Ev_HciComplete 0 0; Ev_HciComplete 0x0C 0]).
  - lia.
  - reflexivity.
  - repeat constructor; intros k H; discriminate H.
  - vm_compute. reflexivity.
Defined.

(** ** The API never faults on a well-formed manager *)

Lemma caller_cb_returns P cb s m :
  caller_cb cb -> exists m', Run P cb s m = Ok (tt, m').
Proof. intros [-> | [u ->]]; simpl; eauto. Qed.

Lemma Unregister_returns m i :
  wf m = true -> 0 <= i -> exists m', Unregister i m = Ok (tt, m').
Proof.
  intros Hwf Hi. pose proof (wf_sized m Hwf) as Hs.
  unfold Unregister, addr_of_inst. mstep.
  destruct (Z_lt_ge_dec i (inst_count m)) as [Hlt|Hge].
  - destruct (lookup_in_table m i Hs ltac:(lia)) as [p Hp].
    destruct (wf_inst_timers m _ p Hwf Hp) as [Hr _].
    apply alive_Some in Hr as [al Hal].
    rewrite (geb_false _ _ Hlt), hci_run.
    erewrite inst_at_Some by (simpl; exact Hp).
    erewrite alarm_cancel_run by (simpl; exact Hal).
    erewrite update_inst_modify by (simpl; exact Hp). eauto.
  - rewrite geb_true by lia. eauto.
Qed.

Lemma Enable_returns P m i enable cb timeout_s timeout_cb :
  wf m = true -> 0 <= i -> caller_cb cb ->
  exists m', Enable P i enable cb timeout_s timeout_cb m = Ok (tt, m').
Proof.
  intros Hwf Hi Hcb. pose proof (wf_sized m Hwf) as Hs.
  unfold Enable, Enable_open. mstep.
  destruct (Z_lt_ge_dec i (inst_count m)) as [Hlt|Hge];
    [|rewrite geb_true by lia; eauto].
  destruct (lookup_in_table m i Hs ltac:(lia)) as [p Hp].
  rewrite (geb_false _ _ Hlt), (inst_at_Some _ _ _ Hp).
  destruct (negb (Inst.in_use p)); [now apply caller_cb_returns|].
  destruct (enable && negb (timeout_s =? 0)); [rewrite hci_run; eauto|].
  destruct (Inst.timeout_timer p) as [t|] eqn:Ht.
  - destruct (wf_inst_timers m _ p Hwf Hp) as [_ Hto].
    destruct (Hto t Ht) as [Ha _]. apply alive_Some in Ha as [al Hal].
    erewrite alarm_cancel_run by exact Hal.
    erewrite alarm_free_run
      by (simpl; apply list_lookup_insert_eq; eapply lookup_lt_Some; eauto).
    erewrite update_inst_modify by (simpl; exact Hp).
    rewrite hci_run. eauto.
  - rewrite hci_run. eauto.
Qed.

Lemma SetParameters_returns P m i params cb :
  wf m = true -> 0 <= i ->
  (forall m1, exists m',
     Run_ParametersCb P cb (BTM_BLE_MULTI_ADV_FAILURE P) 0 m1 = Ok (tt, m')) ->
  exists m', SetParameters P i params cb m = Ok (tt, m').
Proof.
  intros Hwf Hi Hcb. pose proof (wf_sized m Hwf) as Hs.
  destruct (Z_lt_ge_dec i (inst_count m)) as [Hlt|Hge].
  - destruct (lookup_in_table m i Hs ltac:(lia)) as [p Hp].
    destruct (Inst.in_use p) eqn:Hu.
    + rewrite (SetParameters_issue P m i params cb p Hlt Hp Hu). eauto.
    + unfold SetParameters. mstep.
      rewrite (geb_false _ _ Hlt), (inst_at_Some _ _ _ Hp), Hu. apply Hcb.
  - unfold SetParameters. mstep. rewrite geb_true by lia. eauto.
Qed.

Lemma StartAdvertising_returns P m i cb params adv scan timeout_s timeout_cb :
  wf m = true -> 0 <= i -> caller_cb cb ->
  exists m',
    StartAdvertising P i cb params adv scan timeout_s timeout_cb m
    = Ok (tt, m').
Proof.
  intros Hwf Hi Hcb. pose proof (wf_sized m Hwf) as Hs.
  unfold StartAdvertising. cbv zeta. cbn [sa_inst_id sa_params].
  destruct (Z_lt_ge_dec i (inst_count m)) as [Hlt|Hge].
  - destruct (lookup_in_table m i Hs ltac:(lia)) as [p Hp].
    destruct (Inst.in_use p) eqn:Hu.
    + rewrite (SetParameters_issue P m i params _ p Hlt Hp Hu). eauto.
    + unfold SetParameters. mstep.
      rewrite (geb_false _ _ Hlt), (inst_at_Some _ _ _ Hp), Hu.
      cbn [negb Run_ParametersCb sa_cb]. unfold StartAdvertising_parameters_cb.
      destruct (negb (BTM_BLE_MULTI_ADV_FAILURE P =? 0));
        [now apply caller_cb_returns|].
      cbn [sa_inst_id].
      erewrite bind_Ok by (eapply update_inst_modify; exact Hp).
      erewrite bind_Ok
        by (apply inst_at_Some; apply lookup_modify_inst_Some; exact Hp).
      rewrite hci_run. eauto.
  - unfold SetParameters. mstep. rewrite geb_true by lia. eauto.
Qed.

Lemma SetData_returns P m i is_scan_rsp data cb :
  wf m = true -> 0 <= i ->
  (forall p, adv_inst m !! Z.to_nat i = Some p ->
             exists d, SetData_prepare p is_scan_rsp data = Ok d) ->
  exists m', SetData P i is_scan_rsp data cb m = Ok (tt, m').
Proof.
  intros Hwf Hi Hdata. pose proof (wf_sized m Hwf) as Hs.
  unfold SetData, SetData_open. mstep.
  destruct (Z_lt_ge_dec i (inst_count m)) as [Hlt|Hge];
    [|rewrite geb_true by lia; eauto].
  destruct (lookup_in_table m i Hs ltac:(lia)) as [p Hp].
  destruct (Hdata p Hp) as [d Hd].
  rewrite (geb_false _ _ Hlt), (inst_at_Some _ _ _ Hp), Hd.
  rewrite DivideAndSendData_open_first, hci_run. eauto.
Qed.

Lemma RegisterAdvertiser_returns P m cb :
  wf m = true -> exists m', RegisterAdvertiser P cb m = Ok (tt, m').
Proof.
  intros Hwf. pose proof (wf_sized m Hwf) as Hs.
  pose proof (wf_count m Hwf) as Hc.
  assert (Hn : 0 <= inst_count m) by (unfold table_sized in Hs; lia).
  rewrite (RegisterAdvertiser_spec P cb m Hs Hn).
  destruct (first_free (adv_inst m)) as [k|] eqn:Hff.
  - destruct (first_free_spec _ _ Hff) as [(p & Hp & Hu) _].
    rewrite Hp, (RegisterAdvertiser_slot_spec P k p cb m Hp).
    pose proof (wf_inst_id m k p Hwf Hp) as Hid.
    pose proof (lookup_lt_Some _ _ _ Hp) as Hk.
    destruct (BLE_PRIVACY_SPT P);
      [destruct (BTM_BleLocalPrivacyEnabled P); [|eauto]|].
    + unfold GenerateRpa. rewrite (bind_Ok _ _ _ _ _ (emit_run _ _)).
      unfold modify. eauto.
    + destruct cb as [[u|]|c]; simpl; eauto.
      unfold StartAdvertisingSet_register_cb. rewrite Hid.
      change (negb (BTM_BLE_MULTI_ADV_SUCCESS =? 0)) with false.
      cbv iota zeta. cbn [c_inst_id c_params set_c_inst_id].
      erewrite SetParameters_issue; [eauto| | |].
      * simpl. unfold table_sized in Hs. lia.
      * unfold modify_inst. simpl.
        rewrite Nat2Z.id, !list_lookup_alter_eq, Hp. reflexivity.
      * reflexivity.
  - destruct cb as [[u|]|c]; simpl; eauto.
    unfold StartAdvertisingSet_register_cb.
    destruct (negb (ADVERTISE_FAILED_TOO_MANY_ADVERTISERS P =? 0)).
    + destruct (c_cb c). simpl. eauto.
    + cbv zeta. cbn [c_inst_id c_params set_c_inst_id].
      unfold SetParameters. mstep. rewrite geb_true by lia. eauto.
Qed.

(** X4: on a well-formed manager a call of the API returns without a
    fault, given callbacks of a caller: [Enable], [SetParameters],
    [SetData], [StartAdvertising] and the periodic setters whatever the
    [inst_id] (in range or not, in use or not), [Unregister] with an
    [inst_id] of the table, [RegisterAdvertiser] and [StartAdvertisingSet]
    on a table that is not empty; [SetData] needs a payload on which the TX
    power pass stays inside the vector. *)
Theorem api_call_returns P m e :
  wf m = true -> api_call m e ->
  exists m', step P e m = Ok (tt, m').
Proof.
  intros Hwf He. destruct e; simpl in He; try contradiction; simpl step.
  - now apply RegisterAdvertiser_returns.
  - destruct He as [Hi _]. now apply Unregister_returns.
  - destruct cb as [u| |]; try contradiction.
    apply SetParameters_returns; try assumption. intros m1. simpl. eauto.
  - destruct He as [Hi Hdata]. now apply SetData_returns.
  - destruct He as [Hi Hcb]. now apply Enable_returns.
  - unfold SetPeriodicAdvertisingParameters. rewrite hci_run. eauto.
  - unfold SetPeriodicAdvertisingData, SetPeriodicAdvertisingData_open.
    rewrite DivideAndSendData_open_first, hci_run. eauto.
  - unfold SetPeriodicAdvertisingEnable. rewrite hci_run. eauto.
  - destruct He as [Hi Hcb]. now apply StartAdvertising_returns.
  - unfold StartAdvertisingSet. cbv zeta.
    now apply RegisterAdvertiser_returns.
Qed.

Lemma api_call_returns_witness :
  exists m',
    step demo_platform (Ev_Enable 7 false (UserMultiAdvCb 1) 0 DoNothing)
      demo_timed = Ok (tt, m').
Proof.
  apply api_call_returns.
  - vm_compute. reflexivity.
  - simpl. split; [lia|]. right. now exists 1%nat.
Defined.

(** ** Registration and address rotation under privacy *)

Lemma since_app3 (t a b : list effect) : since t ((t ++ a) ++ b) = a ++ b.
Proof. now rewrite <- app_assoc, since_app. Qed.

(** X5: in a build with privacy support and privacy on, [RegisterAdvertiser]
    marks the first free instance as in use with address type RANDOM and
    asks for random bytes without calling back; when the bytes arrive the
    address is the resolvable private address made of them, the address
    timer of the instance is armed for the privacy interval with
    [btm_ble_adv_raddr_timer_timeout] on that instance, and only then the
    callback runs with (inst_id, SUCCESS). *)
Theorem RegisterAdvertiser_privacy P m u i p rand output :
  wf m = true ->
  BLE_PRIVACY_SPT P = true -> BTM_BleLocalPrivacyEnabled P = true ->
  rpa_queue m = [] ->
  first_free (adv_inst m) = Some i -> adv_inst m !! i = Some p ->
  length rand = 8%nat ->
  SMP_Encrypt P (BTM_GetDeviceIDRoot P)
    [at8 rand 0; at8 rand 1;
     uint8 (Z.lor (uint8 (Z.land (at8 rand 2) (Z.lnot BLE_RESOLVE_ADDR_MASK)))
              BLE_RESOLVE_ADDR_MSB)]
  = Some output ->
  exists m1 m2 al,
    step P (Ev_RegisterAdvertiser (UserRegisterCb u)) m = Ok (tt, m1) /\
    since (trace m) (trace m1)
    = [E_gen_resolvable_private_addr (Z.of_nat i)] /\
    in_use_flags m1 = <[i := true]> (in_use_flags m) /\
    step P (Ev_RpaGenerated rand) m1 = Ok (tt, m2) /\
    since (trace m1) (trace m2)
    = [E_alarm_set (Inst.adv_raddr_timer p) (BTM_BLE_PRIVATE_ADDR_INT_MS P);
       E_RegisterCb u (Z.of_nat i) BTM_BLE_MULTI_ADV_SUCCESS] /\
    adv_inst m2
    = <[i := Inst.set_own_address (resolvable_address rand output)
              (Inst.set_own_address_type (BLE_ADDR_RANDOM P)
                 (Inst.set_in_use true p))]> (adv_inst m) /\
    alarms m !! Inst.adv_raddr_timer p = Some (Some al) /\
    alarms m2
    = <[Inst.adv_raddr_timer p :=
          Some {| is_periodic := is_periodic al;
                  deadline := Some (BTM_BLE_PRIVATE_ADDR_INT_MS P,
                                    btm_ble_adv_raddr_timer_timeout i) |}]>
        (alarms m) /\
    rpa_queue m2 = [] /\ hci_queue m2 = hci_queue m.
Proof.
  intros Hwf Hspt Hen Hrq Hfree Hp Hrand Henc.
  pose proof (wf_sized m Hwf) as Hs.
  assert (Hn : 0 <= inst_count m) by (unfold table_sized in Hs; lia).
  pose proof (wf_inst_id m i p Hwf Hp) as Hid.
  destruct (wf_inst_timers m i p Hwf Hp) as [Hr _].
  apply alive_Some in Hr as [al Hal].
  pose proof (wf_inst m i p Hwf Hp) as Hok. unfold inst_ok in Hok.
  apply andb_true_iff in Hok as [Hok _].
  apply andb_true_iff in Hok as [_ Hlen]. apply Nat.eqb_eq in Hlen.
  assert (Hp' : adv_inst m !! Z.to_nat (Z.of_nat i) = Some p)
    by (now rewrite Nat2Z.id).
  simpl step.
  rewrite (RegisterAdvertiser_spec P _ m Hs Hn), Hfree, Hp,
    (RegisterAdvertiser_slot_spec P i p _ m Hp), Hspt, Hen.
  unfold GenerateRpa. rewrite Hid.
  rewrite (bind_Ok _ _ _ _ _ (emit_run _ _)). unfold modify.
  eexists. eexists. exists al. split; [reflexivity|].
  split; [simpl; apply since_app|]. split.
  { unfold in_use_flags, modify_inst. simpl.
    rewrite Nat2Z.id, list_alter_alter_eq.
    erewrite alter_as_insert by exact Hp. now rewrite list_fmap_insert. }
  unfold rpa_generated. mstep. unfold modify.
  cbn [rpa_queue set_rpa_queue set_trace modify_inst set_adv_inst].
  rewrite Hrq. cbn [app]. cbv beta iota.
  erewrite OnRpaGenerationComplete_run;
    [ | unfold modify_inst; simpl; rewrite !list_lookup_alter_eq, Hp';
        reflexivity
      | exact Hlen | exact Hrand | exact Henc ].
  cbn [Run_Closure].
  erewrite (bind_Ok (inst_at (Z.of_nat i)))
    by (apply inst_at_Some; unfold modify_inst; simpl;
        rewrite !list_lookup_alter_eq, Hp'; reflexivity).
  cbn [Inst.adv_raddr_timer Inst.inst_id Inst.set_own_address
       Inst.set_own_address_type Inst.set_in_use].
  erewrite (bind_Ok (alarm_set_on_queue _ _ _))
    by (apply alarm_set_on_queue_run; simpl; exact Hal).
  cbn [Run_RegisterAdvertiserCb Run_RegisterCb]. rewrite emit_run.
  split; [reflexivity|].
  cbn [trace set_trace set_alarms set_hci_queue set_rpa_queue modify_inst
       set_adv_inst adv_inst alarms rpa_queue hci_queue].
  rewrite Hid. split; [apply (since_app3 _ [_] [_])|]. split.
  { rewrite Nat2Z.id, !list_alter_alter_eq.
    now erewrite alter_as_insert by exact Hp. }
  now repeat split.
Qed.

Lemma RegisterAdvertiser_privacy_witness :
  exists m1 m2 al,
    step demo_privacy_platform (Ev_RegisterAdvertiser (UserRegisterCb 5))
      demo_privacy_registered = Ok (tt, m1) /\
    since (trace demo_privacy_registered) (trace m1)
    = [E_gen_resolvable_private_addr 1] /\
    in_use_flags m1 = [true; true] /\
    step demo_privacy_platform (Ev_RpaGenerated (repeat 0x11 8)) m1
    = Ok (tt, m2) /\
    since (trace m1) (trace m2)
    = [E_alarm_set 1%nat 900000; E_RegisterCb 5 1 0] /\
    adv_inst m2
    = <[1%nat := Inst.set_own_address [81; 17; 17; 0; 0; 0]
                   (Inst.set_own_address_type 1
                      (Inst.set_in_use true (demo_instance 1)))]>
        (adv_inst demo_privacy_registered) /\
    alarms demo_privacy_registered !! 1%nat = Some (Some al) /\
    alarms m2
    = <[1%nat :=
          Some {| is_periodic := is_periodic al;
                  deadline := Some (900000,
                                    btm_ble_adv_raddr_timer_timeout 1) |}]>
        (alarms demo_privacy_registered) /\
    rpa_queue m2 = [] /\ hci_queue m2 = hci_queue demo_privacy_registered.
Proof.
  apply (RegisterAdvertiser_privacy demo_privacy_platform
           demo_privacy_registered 5 1 (demo_instance 1) (repeat 0x11 8)
           (repeat 0 16));
    vm_compute; reflexivity.
Defined.

(** X6: in a build with privacy support but privacy off, [RegisterAdvertiser]
    marks the first free instance as in use and does nothing else: no
    callback runs, none is left to run later, the address is not set.
    [StartAdvertisingSet] stops there in the same way. *)
Theorem RegisterAdvertiser_privacy_off P m e i :
  wf m = true ->
  BLE_PRIVACY_SPT P = true -> BTM_BleLocalPrivacyEnabled P = false ->
  first_free (adv_inst m) = Some i ->
  (exists cb, e = Ev_RegisterAdvertiser cb) \/
  (exists cb params adv scan pparams pdata timeout_s timeout_cb,
     e = Ev_StartAdvertisingSet cb params adv scan pparams pdata timeout_s
           timeout_cb) ->
  step P e m = Ok (tt, modify_inst (Z.of_nat i) (Inst.set_in_use true) m).
Proof.
  intros Hwf Hspt Hen Hfree He.
  pose proof (wf_sized m Hwf) as Hs.
  assert (Hn : 0 <= inst_count m) by (unfold table_sized in Hs; lia).
  destruct (first_free_spec _ _ Hfree) as [(p & Hp & _) _].
  destruct He as [[cb ->] | (cb & params & adv & scan & pparams & pdata
                             & timeout_s & timeout_cb & ->)];
    simpl step; unfold StartAdvertisingSet; cbv zeta;
    rewrite (RegisterAdvertiser_spec P _ m Hs Hn), Hfree, Hp,
      (RegisterAdvertiser_slot_spec P i p _ m Hp), Hspt, Hen;
    reflexivity.
Qed.

Lemma RegisterAdvertiser_privacy_off_witness :
  step demo_privacy_off_platform
    (Ev_StartAdvertisingSet (UserIdTxPowerStatusCb 1) demo_params
       [0x02; 0xFF; 0x42] [] demo_no_periodic [] 0 (UserRegisterCb 2))
    demo_two_free
  = Ok (tt, modify_inst (Z.of_nat 0) (Inst.set_in_use true) demo_two_free).
Proof.
  apply RegisterAdvertiser_privacy_off; try (vm_compute; reflexivity).
  right. repeat eexists.
Defined.

(** X7: when the address timer of an instance expires, [ConfigureRpa] asks
    for random bytes; when they arrive, the own address of the instance
    becomes the resolvable private address made of them and is sent to the
    controller with [SetRandomAddress]; nothing else changes: the periodic
    timer stays armed, no callback of a caller runs. *)
Theorem rpa_rotation P m i p ms rand output :
  adv_inst m !! i = Some p ->
  Inst.inst_id p = Z.of_nat i ->
  length (Inst.own_address p) = BD_ADDR_LEN ->
  alarms m !! Inst.adv_raddr_timer p
  = Some (Some {| is_periodic := true;
                  deadline := Some (ms, btm_ble_adv_raddr_timer_timeout i) |}) ->
  rpa_queue m = [] ->
  length rand = 8%nat ->
  SMP_Encrypt P (BTM_GetDeviceIDRoot P)
    [at8 rand 0; at8 rand 1;
     uint8 (Z.lor (uint8 (Z.land (at8 rand 2) (Z.lnot BLE_RESOLVE_ADDR_MASK)))
              BLE_RESOLVE_ADDR_MSB)]
  = Some output ->
  let addr := resolvable_address rand output in
  exec P [Ev_AlarmExpired (Inst.adv_raddr_timer p); Ev_RpaGenerated rand] m
  = Ok (set_hci_queue
          (hci_queue m
           ++ [(Hci_SetRandomAddress (Z.of_nat i) addr, OnStatus DoNothing)])
          (set_trace
             (trace m ++ [E_gen_resolvable_private_addr (Z.of_nat i);
                          E_Hci (Hci_SetRandomAddress (Z.of_nat i) addr)])
             (modify_inst (Z.of_nat i) (Inst.set_own_address addr) m))).
Proof.
  intros Hp Hid Hlen Hal Hrq Hrand Henc addr.
  assert (Hp' : adv_inst m !! Z.to_nat (Z.of_nat i) = Some p)
    by (now rewrite Nat2Z.id).
  assert (H1 : step P (Ev_AlarmExpired (Inst.adv_raddr_timer p)) m
               = Ok (tt, set_rpa_queue
                           [(Z.of_nat i, ConfigureRpa_OnRpa i)]
                           (set_trace
                              (trace m
                               ++ [E_gen_resolvable_private_addr (Z.of_nat i)])
                              m))).
  { simpl step. unfold alarm_expired. mstep. change alarm_ptr with nat in *.
    rewrite Hal. cbn [Run_alarm_callback]. unfold ConfigureRpa.
    rewrite (bind_Ok _ _ _ _ _ (inst_at_Some _ _ _ Hp')).
    unfold GenerateRpa. rewrite Hid.
    rewrite (bind_Ok _ _ _ _ _ (emit_run _ _)). unfold modify. simpl.
    now rewrite Hrq. }
  rewrite (exec_cons _ _ _ _ _ H1), exec_one. simpl step.
  unfold rpa_generated. mstep. unfold modify.
  cbn [rpa_queue set_rpa_queue set_trace]. cbv beta iota.
  erewrite OnRpaGenerationComplete_run;
    [ | simpl; exact Hp' | exact Hlen | exact Hrand | exact Henc ].
  cbn [Run_Closure].
  erewrite (bind_Ok (inst_at (Z.of_nat i)))
    by (apply inst_at_Some; unfold modify_inst; simpl;
        rewrite list_lookup_alter_eq, Hp'; reflexivity).
  cbn [Inst.inst_id Inst.own_address Inst.set_own_address].
  rewrite Hid, hci_run. unfold addr, modify_inst, set_hci_queue, set_trace,
    set_rpa_queue, set_adv_inst. simpl. rewrite <- app_assoc, Hrq.
  reflexivity.
Qed.

Lemma rpa_rotation_witness :
  exec demo_privacy_platform
    [Ev_AlarmExpired 0%nat; Ev_RpaGenerated (repeat 0x11 8)]
    demo_privacy_registered
  = Ok (set_hci_queue
          [(Hci_SetRandomAddress 0 [81; 17; 17; 0; 0; 0], OnStatus DoNothing)]
          (set_trace
             (trace demo_privacy_registered
              ++ [E_gen_resolvable_private_addr 0;
                  E_Hci (Hci_SetRandomAddress 0 [81; 17; 17; 0; 0; 0])])
             (modify_inst 0 (Inst.set_own_address [81; 17; 17; 0; 0; 0])
                demo_privacy_registered))).
Proof.
  apply (rpa_rotation demo_privacy_platform demo_privacy_registered 0
           (registered demo_privacy_platform (repeat 0xFF 8) (repeat 0 16)
              (demo_instance 0))
           900000 (repeat 0x11 8) (repeat 0 16));
    vm_compute; reflexivity.
Defined.

(** ** The timeout timer *)

(** X8: [Enable(inst_id, true, cb, timeout_s, ...)] with a timeout, on an
    instance whose timeout timer [t] is still set, does not cancel [t]:
    on completion (whatever the status) a new alarm is created, armed and
    stored in the instance, and [t] stays in the alarm store exactly as it
    was, armed if it was, with no instance holding it any more.  The new
    alarm is set to the [int] product [timeout_s * 1000] taken as a
    [period_ms_t]. *)
Theorem Enable_again_leaks_timer P m i u timeout_s timeout_cb p t al s tx :
  hci_queue m = [] ->
  0 <= i < inst_count m ->
  adv_inst m !! Z.to_nat i = Some p ->
  Inst.in_use p = true ->
  Inst.timeout_timer p = Some t ->
  alarms m !! t = Some al ->
  timeout_s <> 0 ->
  exists m',
    exec P [Ev_Enable i true (UserMultiAdvCb u) timeout_s timeout_cb;
            Ev_HciComplete s tx] m = Ok m' /\
    adv_inst m' !! Z.to_nat i
    = Some (Inst.set_timeout_timer (Some (length (alarms m)))
              (Inst.set_timeout_s timeout_s p)) /\
    length (alarms m) <> t /\
    alarms m' !! t = Some al /\
    armed m' (length (alarms m)) = true /\
    since (trace m) (trace m')
    = [E_Hci (Hci_Enable true (Inst.inst_id p) 0x0000 0x00);
       E_MultiAdvCb u s;
       E_alarm_new (length (alarms m));
       E_alarm_set (length (alarms m))
         (period_ms_t (int32 (timeout_s * 1000)))].
Proof.
  intros Hq [Hi Hlt] Hp Huse Ht Hal Hts.
  assert (H1 : step P (Ev_Enable i true (UserMultiAdvCb u) timeout_s
                         timeout_cb) m
               = Ok (tt, set_hci_queue
                           [(Hci_Enable true (Inst.inst_id p) 0x0000 0x00,
                             OnStatus (Bind_EnableWithTimerCb i
                                         (UserMultiAdvCb u) timeout_s
                                         timeout_cb))]
                           (set_trace
                              (trace m ++ [E_Hci (Hci_Enable true
                                                    (Inst.inst_id p) 0 0)])
                              m))).
  { simpl step. unfold Enable, Enable_open. mstep.
    rewrite (geb_false _ _ Hlt), (inst_at_Some _ _ _ Hp), Huse.
    apply Z.eqb_neq in Hts. rewrite Hts. cbn [negb andb]. cbv iota.
    rewrite hci_run, Hq. reflexivity. }
  rewrite (exec_cons _ _ _ _ _ H1), exec_one. simpl step.
  erewrite hci_complete_head by reflexivity. cbn [Run_hci_cb Run].
  erewrite EnableWithTimerCb_tail
    by (first [apply emit_run | simpl; exact Hp]).
  eexists. split; [reflexivity|]. simpl.
  pose proof (lookup_lt_Some _ _ _ Hal) as Hlen.
  split; [now rewrite list_lookup_alter_eq, Hp|].
  split; [lia|]. split; [now apply lookup_app_l_Some|]. split.
  - unfold armed. simpl. rewrite lookup_app_r by lia.
    now rewrite Nat.sub_diag.
  - rewrite <- !app_assoc. apply since_app.
Qed.

Lemma Enable_again_leaks_timer_witness :
  exists m',
    exec demo_platform
      [Ev_Enable 0 true (UserMultiAdvCb 3) 60 (UserMultiAdvCb 4);
       Ev_HciComplete 0 0] demo_timed = Ok m' /\
    adv_inst m' !! Z.to_nat 0
    = Some (Inst.set_timeout_timer (Some (length (alarms demo_timed)))
              (Inst.set_timeout_s 60
                 (Inst.set_timeout_timer (Some 2%nat)
                    (Inst.set_timeout_s 30
                       (registered demo_platform [] [] (demo_instance 0)))))) /\
    length (alarms demo_timed) <> 2%nat /\
    alarms m' !! 2%nat
    = Some (Some {| is_periodic := false;
                    deadline := Some (30000,
                      alarm_closure_cb
                        (Bind_Enable 0 false (UserMultiAdvCb 2) 0 DoNothing)) |}) /\
    armed m' (length (alarms demo_timed)) = true /\
    since (trace demo_timed) (trace m')
    = [E_Hci (Hci_Enable true 0 0x0000 0x00);
       E_MultiAdvCb 3 0;
       E_alarm_new (length (alarms demo_timed));
       E_alarm_set (length (alarms demo_timed)) (60 * 1000)].
Proof.
  apply (Enable_again_leaks_timer demo_platform demo_timed 0 3 60
           (UserMultiAdvCb 4)
           (Inst.set_timeout_timer (Some 2%nat)
              (Inst.set_timeout_s 30
                 (registered demo_platform [] [] (demo_instance 0))))
           2%nat);
    try (vm_compute; reflexivity).
  - vm_compute. split; [discriminate|reflexivity].
  - discriminate.
Defined.

(** X9: when the timeout timer [t] of an instance in use expires, the
    closure armed by [EnableWithTimerCb] cancels and frees [t], clears the
    handle in the instance and sends Enable(false); the completion of that
    command runs the timeout callback with its status.  [timeout_s] is not
    cleared. *)
Theorem timeout_expiry P m i u p t ms s tx :
  hci_queue m = [] ->
  0 <= i < inst_count m ->
  adv_inst m !! Z.to_nat i = Some p ->
  Inst.in_use p = true ->
  Inst.timeout_timer p = Some t ->
  alarms m !! t
  = Some (Some {| is_periodic := false;
                  deadline := Some (ms, alarm_closure_cb
                                          (Bind_Enable i false
                                             (UserMultiAdvCb u) 0 DoNothing)) |}) ->
  exec P [Ev_AlarmExpired t; Ev_HciComplete s tx] m
  = Ok (set_trace
          (trace m ++ [E_alarm_cancel t; E_alarm_free t;
                       E_Hci (Hci_Enable false (Inst.inst_id p) 0x0000 0x00);
                       E_MultiAdvCb u s])
          (set_alarms (<[t := None]> (alarms m))
             (modify_inst i (Inst.set_timeout_timer None) m))).
Proof.
  intros Hq [Hi Hlt] Hp Huse Ht Hal.
  pose proof (lookup_lt_Some _ _ _ Hal) as Hlen.
  assert (H1 : step P (Ev_AlarmExpired t) m
               = Ok (tt, set_hci_queue
                           [(Hci_Enable false (Inst.inst_id p) 0x0000 0x00,
                             OnStatus (UserMultiAdvCb u))]
                           (set_trace
                              (trace m ++ [E_alarm_cancel t; E_alarm_free t;
                                           E_Hci (Hci_Enable false
                                                    (Inst.inst_id p) 0 0)])
                              (set_alarms (<[t := None]> (alarms m))
                                 (modify_inst i (Inst.set_timeout_timer None)
                                    m))))).
  { simpl step. unfold alarm_expired. mstep. change alarm_ptr with nat in *.
    rewrite Hal. unfold with_alarm. cbv beta iota.
    change alarm_ptr with nat. rewrite Hal.
    cbn [Run_alarm_callback Run_Closure]. unfold Enable, Enable_open. mstep.
    cbn [inst_count set_alarms].
    rewrite (geb_false _ _ Hlt).
    erewrite inst_at_Some by (simpl; exact Hp). rewrite Huse, Ht.
    cbn [negb andb]. cbv iota.
    erewrite alarm_cancel_run
      by (simpl; apply list_lookup_insert_eq; exact Hlen).
    erewrite alarm_free_run
      by (simpl; apply list_lookup_insert_eq; rewrite !length_insert;
          exact Hlen).
    erewrite update_inst_modify by (simpl; exact Hp).
    rewrite hci_run. unfold set_hci_queue, set_trace, set_alarms, modify_inst,
      set_adv_inst. simpl. rewrite Hq, !list_insert_insert_eq.
    rewrite <- !app_assoc. reflexivity. }
  rewrite (exec_cons _ _ _ _ _ H1), exec_one. simpl step.
  erewrite hci_complete_head by reflexivity. cbn [Run_hci_cb Run].
  rewrite emit_run. unfold set_hci_queue, set_trace, set_alarms, modify_inst,
    set_adv_inst. simpl. rewrite Hq, <- !app_assoc. reflexivity.
Qed.

Lemma timeout_expiry_witness :
  exec demo_platform [Ev_AlarmExpired 2%nat; Ev_HciComplete 0 0] demo_timed
  = Ok (set_trace
          (trace demo_timed
           ++ [E_alarm_cancel 2%nat; E_alarm_free 2%nat;
               E_Hci (Hci_Enable false 0 0x0000 0x00);
               E_MultiAdvCb 2 0])
          (set_alarms (<[2%nat := None]> (alarms demo_timed))
             (modify_inst 0 (Inst.set_timeout_timer None) demo_timed))).
Proof.
  apply (timeout_expiry demo_platform demo_timed 0 2
           (Inst.set_timeout_timer (Some 2%nat)
              (Inst.set_timeout_s 30
                 (registered demo_platform [] [] (demo_instance 0))))
           2%nat 30000 0 0);
    try (vm_compute; reflexivity).
  vm_compute. split; [discriminate|reflexivity].
Defined.

(** ** Freeing a slot and taking it again *)

Lemma first_free_alter_free (l : list AdvertisingInstance) : forall i,
  (i < length l)%nat ->
  first_free (alter (Inst.set_in_use false) i l)
  = Some (match first_free l with
          | Some k => Nat.min k i
          | None => i
          end).
Proof.
  induction l as [|p l IH]; intros [|i] Hi; simpl in Hi; try lia.
  - simpl. destruct (Inst.in_use p); [|reflexivity].
    destruct (first_free l); simpl; f_equal; lia.
  - change (alter (Inst.set_in_use false) (S i) (p :: l))
      with (p :: alter (Inst.set_in_use false) i l).
    cbn [first_free]. destruct (Inst.in_use p); [|reflexivity].
    rewrite IH by lia. destruct (first_free l); reflexivity.
Qed.

(** X10: [Unregister(i)] on a valid [i], in use or not, sends Enable(false)
    and frees the slot; the next [RegisterAdvertiser] (build without privacy
    support) hands out the lowest free slot, which is [i] unless a lower
    one was free already, with the controller address as its address. *)
Theorem Unregister_then_Register P m i u :
  wf m = true -> 0 <= i < inst_count m -> BLE_PRIVACY_SPT P = false ->
  let k := match first_free (adv_inst m) with
           | Some k => Nat.min k (Z.to_nat i)
           | None => Z.to_nat i
           end in
  exists m1 m2,
    step P (Ev_Unregister i) m = Ok (tt, m1) /\
    in_use_flags m1 = <[Z.to_nat i := false]> (in_use_flags m) /\
    hci_commands (since (trace m) (trace m1)) = [Hci_Enable false i 0x00 0x00] /\
    step P (Ev_RegisterAdvertiser (UserRegisterCb u)) m1 = Ok (tt, m2) /\
    since (trace m1) (trace m2)
    = [E_RegisterCb u (Z.of_nat k) BTM_BLE_MULTI_ADV_SUCCESS] /\
    in_use_flags m2 = <[k := true]> (in_use_flags m1) /\
    Inst.own_address <$> adv_inst m2 !! k
    = Some (take BD_ADDR_LEN (controller_address P)).
Proof.
  intros Hwf [Hi Hlt] Hspt k. pose proof (wf_sized m Hwf) as Hs.
  destruct (lookup_in_table m i Hs ltac:(lia)) as [p Hp].
  destruct (wf_inst_timers m _ p Hwf Hp) as [Hr _].
  apply alive_Some in Hr as [al Hal].
  assert (H1 : Unregister i m
               = Ok (tt, modify_inst i (Inst.set_in_use false)
                           (set_trace
                              (trace m ++ [E_Hci (Hci_Enable false i 0 0);
                                           E_alarm_cancel
                                             (Inst.adv_raddr_timer p)])
                              (set_alarms
                                 (<[Inst.adv_raddr_timer p :=
                                      Some {| is_periodic := is_periodic al;
                                              deadline := None |}]> (alarms m))
                                 (set_hci_queue
                                    (hci_queue m
                                     ++ [(Hci_Enable false i 0 0,
                                          OnStatus DoNothing)]) m))))).
  { unfold Unregister, addr_of_inst. mstep.
    rewrite (geb_false _ _ Hlt), hci_run.
    erewrite inst_at_Some by (simpl; exact Hp).
    erewrite alarm_cancel_run by (simpl; exact Hal).
    erewrite update_inst_modify by (simpl; exact Hp).
    unfold modify_inst, set_trace, set_alarms, set_hci_queue, set_adv_inst.
    simpl. now rewrite <- app_assoc. }
  set (m1 := modify_inst i (Inst.set_in_use false) _) in H1.
  assert (Hlen : (Z.to_nat i < length (adv_inst m))%nat)
    by (eapply lookup_lt_Some; eauto).
  assert (Hff : first_free (adv_inst m1) = Some k)
    by (apply first_free_alter_free; exact Hlen).
  destruct (first_free_spec _ _ Hff) as [(q & Hq & _) _].
  assert (Hqid : Inst.inst_id q = Z.of_nat k).
  { unfold m1, modify_inst in Hq. simpl in Hq.
    destruct (Nat.eq_dec k (Z.to_nat i)) as [Heq|Hne].
    - rewrite Heq, list_lookup_alter_eq, Hp in Hq. injection Hq as <-.
      rewrite Heq. exact (wf_inst_id m _ p Hwf Hp).
    - rewrite list_lookup_alter_ne in Hq by congruence.
      exact (wf_inst_id m _ q Hwf Hq). }
  assert (Hs1 : table_sized m1).
  { unfold table_sized, m1, modify_inst. simpl. now rewrite length_alter. }
  assert (Hfl1 : in_use_flags m1
                 = <[Z.to_nat i := false]> (in_use_flags m)).
  { unfold in_use_flags, m1, modify_inst. simpl.
    erewrite alter_as_insert by exact Hp. now rewrite list_fmap_insert. }
  assert (Htr1 : hci_commands (since (trace m) (trace m1))
                 = [Hci_Enable false i 0 0]).
  { unfold m1. simpl. rewrite since_app. reflexivity. }
  clearbody m1.
  exists m1. eexists. split; [exact H1|]. split; [exact Hfl1|].
  split; [exact Htr1|]. simpl step.
  rewrite (RegisterAdvertiser_spec P _ m1 Hs1)
    by (unfold table_sized in Hs1; lia).
  rewrite Hff, Hq.
  erewrite RegisterAdvertiser_slot_spec by exact Hq. rewrite Hspt, Hqid.
  cbn [Run_RegisterAdvertiserCb Run_RegisterCb]. rewrite emit_run.
  split; [reflexivity|]. split; [simpl; apply since_app|]. split.
  - unfold in_use_flags. simpl. rewrite Nat2Z.id, !list_alter_alter_eq.
    erewrite alter_as_insert by exact Hq. now rewrite list_fmap_insert.
  - simpl. rewrite Nat2Z.id, !list_lookup_alter_eq, Hq. reflexivity.
Qed.

Lemma Unregister_then_Register_witness :
  exists m1 m2,
    step demo_platform (Ev_Unregister 0) demo_registered = Ok (tt, m1) /\
    in_use_flags m1 = <[Z.to_nat 0 := false]> (in_use_flags demo_registered) /\
    hci_commands (since (trace demo_registered) (trace m1))
    = [Hci_Enable false 0 0x00 0x00] /\
    step demo_platform (Ev_RegisterAdvertiser (UserRegisterCb 8)) m1
    = Ok (tt, m2) /\
    since (trace m1) (trace m2) = [E_RegisterCb 8 0 0] /\
    in_use_flags m2 = <[0%nat := true]> (in_use_flags m1) /\
    Inst.own_address <$> adv_inst m2 !! 0%nat
    = Some [0x11; 0x22; 0x33; 0x44; 0x55; 0x66].
Proof.
  apply (Unregister_then_Register demo_platform demo_registered 0 8).
  - vm_compute. reflexivity.
  - vm_compute. split; [discriminate|reflexivity].
  - reflexivity.
Defined.

(** ** The TX power pass of SetData on arbitrary payloads *)

(** The pass over well-formed structures followed by anything. *)
Lemma fill_tx_power_skip tx l : forall pre fuel rest,
  forallb ad_ok l = true ->
  fill_tx_power (length l + fuel) tx (length pre)
    (pre ++ encode_ads l ++ rest)
  = fill_tx_power fuel tx
      (length (pre ++ encode_ads (map (fill_ad tx) l)))
      ((pre ++ encode_ads (map (fill_ad tx) l)) ++ rest).
Proof.
  induction l as [|s l IH]; intros pre fuel rest Hok.
  - simpl. now rewrite !app_nil_r.
  - simpl in Hok. apply andb_true_iff in Hok as [Hs Hl].
    pose proof Hs as Hs'. unfold ad_ok in Hs'.
    apply andb_true_iff in Hs' as [Hlen Hval]. apply Nat.ltb_lt in Hlen.
    destruct s as [ty val]. simpl in Hlen, Hval.
    replace (encode_ads ({| ad_type := ty; ad_value := val |} :: l) ++ rest)
      with (Z.of_nat (S (length val)) :: ty :: val ++ encode_ads l ++ rest)
      by (unfold encode_ads; cbn [flat_map encode_ad ad_type ad_value app];
          now rewrite <- app_assoc).
    assert (Hnext : forall val',
      length val' = length val ->
      fill_ad tx {| ad_type := ty; ad_value := val |}
      = {| ad_type := ty; ad_value := val' |} ->
      match (pre ++ Z.of_nat (S (length val)) :: ty :: val'
               ++ encode_ads l ++ rest) !! length pre with
      | Some len =>
          fill_tx_power (length l + fuel) tx
            (length pre + Z.to_nat (len + 1))
            (pre ++ Z.of_nat (S (length val)) :: ty :: val'
               ++ encode_ads l ++ rest)
      | None => Fault OutOfBounds
      end
      = fill_tx_power fuel tx
          (length (pre ++ encode_ads
                            (map (fill_ad tx)
                               ({| ad_type := ty; ad_value := val |} :: l))))
          ((pre ++ encode_ads
                     (map (fill_ad tx)
                        ({| ad_type := ty; ad_value := val |} :: l)))
           ++ rest)).
    { intros val' Hval' Hfill. rewrite lookup_app_r by lia.
      rewrite Nat.sub_diag. simpl lookup. cbv beta iota.
      replace (length pre + Z.to_nat (Z.of_nat (S (length val)) + 1))%nat
        with (length (pre ++ Z.of_nat (S (length val)) :: ty :: val'))
        by (rewrite length_app; cbn [length]; lia).
      replace (pre ++ Z.of_nat (S (length val)) :: ty :: val'
                 ++ encode_ads l ++ rest)
        with ((pre ++ Z.of_nat (S (length val)) :: ty :: val')
              ++ encode_ads l ++ rest)
        by (now rewrite <- app_assoc).
      rewrite (IH _ fuel rest Hl).
      assert (Henc : encode_ads (map (fill_ad tx)
                                   ({| ad_type := ty; ad_value := val |} :: l))
                     = Z.of_nat (S (length val)) :: ty :: val'
                       ++ encode_ads (map (fill_ad tx) l)).
      { cbn [map]. rewrite Hfill. unfold encode_ads.
        cbn [flat_map encode_ad ad_type ad_value app]. now rewrite Hval'. }
      rewrite Henc. rewrite <- !app_assoc. cbn [app].
      now rewrite <- ?app_assoc. }
    cbn [length Nat.add fill_tx_power].
    replace (length pre <? length (pre ++ Z.of_nat (S (length val)) :: ty
                                     :: val ++ encode_ads l ++ rest))%nat
      with true
      by (symmetry; apply Nat.ltb_lt; rewrite length_app; simpl; lia).
    rewrite lookup_app_r by lia.
    replace (length pre + 1 - length pre)%nat with 1%nat by lia.
    cbn [lookup list_lookup].
    destruct (ty =? HCI_EIR_TX_POWER_LEVEL_TYPE) eqn:Hty.
    + destruct val as [|v val]; [discriminate|].
      replace (length pre + 2 <? length (pre ++ Z.of_nat (S (length (v :: val)))
                                           :: ty :: (v :: val)
                                           ++ encode_ads l ++ rest))%nat
        with true
        by (symmetry; apply Nat.ltb_lt; rewrite length_app; simpl; lia).
      rewrite insert_app_r_alt by lia.
      replace (length pre + 2 - length pre)%nat with 2%nat by lia.
      cbn [insert list_insert app tail].
      apply (Hnext (uint8 tx :: val) eq_refl).
      unfold fill_ad. simpl. now rewrite Hty.
    + apply (Hnext val eq_refl). unfold fill_ad. simpl. now rewrite Hty.
Qed.

Lemma length_encode_ads l : (2 * length l <= length (encode_ads l))%nat.
Proof.
  induction l as [|s l IH]; [simpl; lia|].
  change (encode_ads (s :: l)) with (encode_ad s ++ encode_ads l).
  rewrite length_app. unfold encode_ad. cbn [length]. lia.
Qed.

(** A payload that stops inside the header of a structure. *)
Lemma fill_tx_power_truncated tx l pre rest fuel len :
  forallb ad_ok l = true ->
  rest = [len] \/ rest = [len; HCI_EIR_TX_POWER_LEVEL_TYPE] ->
  (length l < fuel)%nat ->
  fill_tx_power fuel tx (length pre) (pre ++ encode_ads l ++ rest)
  = Fault OutOfBounds.
Proof.
  intros Hok Hrest Hfuel.
  replace fuel with (length l + S (fuel - S (length l)))%nat by lia.
  rewrite (fill_tx_power_skip _ _ _ _ _ Hok).
  set (done := pre ++ encode_ads (map (fill_ad tx) l)).
  cbn [fill_tx_power].
  replace (length done <? length (done ++ rest))%nat with true
    by (symmetry; apply Nat.ltb_lt; rewrite length_app;
        destruct Hrest as [-> | ->]; simpl; lia).
  rewrite lookup_app_r by lia.
  replace (length done + 1 - length done)%nat with 1%nat by lia.
  destruct Hrest as [-> | ->]; [reflexivity|].
  cbn [lookup list_lookup]. rewrite Z.eqb_refl.
  replace (length done + 2 <? length (done ++ [len; HCI_EIR_TX_POWER_LEVEL_TYPE]))%nat
    with false
    by (symmetry; apply Nat.ltb_ge; rewrite length_app; simpl; lia).
  reflexivity.
Qed.

(** X11: [SetData] on a payload that ends inside the header of an AD
    structure -- after complete structures, a lone length byte, or a length
    byte and the TX power type 0x0A without a value byte -- makes the TX
    power loop access the vector beyond its end ([data[i + 1]] read, or
    [data[i + 2]] written), with or without the flags structure in front.
    The fault stands for that access, past which the call is undefined. *)
Theorem SetData_truncated_payload P m inst_id is_scan_rsp ads rest len cb p :
  inst_id < inst_count m ->
  adv_inst m !! Z.to_nat inst_id = Some p ->
  forallb ad_ok ads = true ->
  rest = [len] \/ rest = [len; HCI_EIR_TX_POWER_LEVEL_TYPE] ->
  SetData_prepare p is_scan_rsp (encode_ads ads ++ rest) = Fault OutOfBounds /\
  SetData P inst_id is_scan_rsp (encode_ads ads ++ rest) cb m
  = Fault OutOfBounds.
Proof.
  intros Hlt Hp Hok Hrest.
  assert (Hprep : SetData_prepare p is_scan_rsp (encode_ads ads ++ rest)
                  = Fault OutOfBounds).
  { unfold SetData_prepare.
    destruct (negb is_scan_rsp &&
              is_legacy_connectable (Inst.advertising_event_properties p)).
    - set (v := if negb (Inst.timeout_s p =? 0) then BTM_LIMITED_DISCOVERABLE
                else BTM_GENERAL_DISCOVERABLE).
      change ([2; HCI_EIR_FLAGS_TYPE; v] ++ encode_ads ads ++ rest)
        with ([] ++ encode_ads ({| ad_type := HCI_EIR_FLAGS_TYPE;
                                   ad_value := [v] |} :: ads) ++ rest).
      change (fill_tx_power ?f ?t 0 ?d)
        with (fill_tx_power f t (length (@nil Z)) d).
      apply fill_tx_power_truncated with (len := len); [|exact Hrest|].
      + simpl. now rewrite Hok.
      + pose proof (length_encode_ads ads).
        cbn [app length]. rewrite !length_app.
        destruct Hrest as [-> | ->]; simpl; lia.
    - change (encode_ads ads ++ rest) with ([] ++ encode_ads ads ++ rest).
      change (fill_tx_power ?f ?t 0 ?d)
        with (fill_tx_power f t (length (@nil Z)) d).
      apply fill_tx_power_truncated with (len := len); [exact Hok|exact Hrest|].
      pose proof (length_encode_ads ads).
      cbn [app]. rewrite length_app.
      destruct Hrest as [-> | ->]; simpl; lia. }
  split; [exact Hprep|].
  unfold SetData, SetData_open. mstep.
  now rewrite (geb_false _ _ Hlt), (inst_at_Some _ _ _ Hp), Hprep.
Qed.

Lemma SetData_truncated_payload_witness :
  SetData demo_platform 0 false ([2; 0xFF; 0x42; 2; 0x0A]) (UserMultiAdvCb 5)
    demo_configured
  = Fault OutOfBounds.
Proof.
  destruct (adv_inst demo_configured !! 0%nat) as [p|] eqn:Hp;
    [|vm_compute in Hp; discriminate].
  refine (proj2 (SetData_truncated_payload demo_platform demo_configured 0
                   false [{| ad_type := 0xFF; ad_value := [0x42] |}]
                   [2; 0x0A] 2 (UserMultiAdvCb 5) p _ Hp _ _)).
  - vm_compute. reflexivity.
  - reflexivity.
  - right. reflexivity.
Defined.

(** The TX power pass on bytes: the fuel is never used up, the length is
    kept, and a byte is the input's or the TX power. *)
Lemma fill_tx_power_bytes tx : forall fuel i data,
  Forall (fun b => 0 <= b) data ->
  (length data <= i + fuel)%nat ->
  fill_tx_power fuel tx i data = Fault OutOfBounds \/
  exists data',
    fill_tx_power fuel tx i data = Ok data' /\
    length data' = length data /\
    forall j, data' !! j = data !! j \/
              (data' !! j = Some (uint8 tx) /\ (i + 2 <= j < length data)%nat).
Proof.
  induction fuel as [|fuel IH]; intros i data Hb Hlen.
  - right. exists data. simpl.
    replace (i <? length data)%nat with false
      by (symmetry; apply Nat.ltb_ge; lia).
    repeat split; auto.
  - cbn [fill_tx_power].
    destruct (i <? length data)%nat eqn:Hi;
      [|right; exists data; repeat split; auto].
    apply Nat.ltb_lt in Hi.
    destruct (data !! (i + 1)%nat) as [type|]; [|now left].
    assert (Hstep : forall data',
      Forall (fun b => 0 <= b) data' ->
      length data' = length data ->
      (forall j, data' !! j = data !! j \/
                 (data' !! j = Some (uint8 tx) /\ (i + 2 <= j < length data)%nat)) ->
      match data' !! i with
      | Some len => fill_tx_power fuel tx (i + Z.to_nat (len + 1)) data'
      | None => Fault OutOfBounds
      end = Fault OutOfBounds \/
      exists data'',
        match data' !! i with
        | Some len => fill_tx_power fuel tx (i + Z.to_nat (len + 1)) data'
        | None => Fault OutOfBounds
        end = Ok data'' /\
        length data'' = length data /\
        forall j, data'' !! j = data !! j \/
                  (data'' !! j = Some (uint8 tx) /\ (i + 2 <= j < length data)%nat)).
    { intros data' Hb' Hlen' Hsame.
      destruct (data' !! i) as [len|] eqn:Hl; [|now left].
      assert (0 <= len).
      { eapply Forall_lookup_1 in Hl; [exact Hl | exact Hb']. }
      destruct (IH (i + Z.to_nat (len + 1))%nat data' Hb') as [HF | HO];
        [lia | now left |].
      destruct HO as (data'' & Hrun & Hlen'' & Hsame'').
      right. exists data''. split; [exact Hrun|]. split; [lia|].
      intros j. destruct (Hsame'' j) as [Hj | [Hj Hlt]].
      - rewrite Hj. apply Hsame.
      - right. split; [exact Hj | lia]. }
    destruct (type =? HCI_EIR_TX_POWER_LEVEL_TYPE).
    + destruct (i + 2 <? length data)%nat eqn:Hi2; [|now left].
      apply Nat.ltb_lt in Hi2.
      apply Hstep.
      * apply Forall_insert; [exact Hb|]. unfold uint8.
        apply Z.mod_pos_bound. lia.
      * apply length_insert.
      * intros j. destruct (Nat.eq_dec j (i + 2)%nat) as [-> | Hne].
        -- right. split; [|lia]. now apply list_lookup_insert_eq.
        -- left. apply list_lookup_insert_ne. lia.
    + apply Hstep; auto.
Qed.

(** X12: on a payload of bytes the TX power loop of [SetData] ends within
    [data.size()] rounds (every round advances by the length byte plus one).
    [SetData] then either accesses the vector beyond its end or hands the
    fragmenter a vector as long as the payload with the flags structure in
    front (when one is added), in which every byte is the one it had, or,
    from index 2 on, the instance's TX power. *)
Theorem SetData_on_bytes P m inst_id is_scan_rsp data cb p :
  inst_id < inst_count m ->
  adv_inst m !! Z.to_nat inst_id = Some p ->
  Forall (fun b => 0 <= b) data ->
  let input :=
    if negb is_scan_rsp &&
       is_legacy_connectable (Inst.advertising_event_properties p)
    then [2; HCI_EIR_FLAGS_TYPE;
          if Inst.timeout_s p =? 0 then BTM_GENERAL_DISCOVERABLE
          else BTM_LIMITED_DISCOVERABLE] ++ data
    else data in
  SetData P inst_id is_scan_rsp data cb m = Fault OutOfBounds \/
  exists sent,
    SetData_prepare p is_scan_rsp data = Ok sent /\
    SetData P inst_id is_scan_rsp data cb m
    = DivideAndSendData P inst_id sent cb
        (Bind_SetDataAdvDataSender is_scan_rsp) m /\
    length sent = length input /\
    forall j, sent !! j = input !! j \/
              (sent !! j = Some (uint8 (Inst.tx_power p)) /\
               (2 <= j < length input)%nat).
Proof.
  intros Hlt Hp Hb input.
  assert (Hprep : SetData_prepare p is_scan_rsp data
                  = fill_tx_power (length input) (Inst.tx_power p) 0 input).
  { unfold SetData_prepare, input.
    now destruct (negb is_scan_rsp && _), (Inst.timeout_s p =? 0). }
  assert (Hrun : SetData P inst_id is_scan_rsp data cb m
                 = match SetData_prepare p is_scan_rsp data with
                   | Ok sent => DivideAndSendData P inst_id sent cb
                                  (Bind_SetDataAdvDataSender is_scan_rsp) m
                   | Fault e => Fault e
                   end).
  { unfold SetData, SetData_open. mstep.
    rewrite (geb_false _ _ Hlt), (inst_at_Some _ _ _ Hp).
    now destruct (SetData_prepare p is_scan_rsp data). }
  assert (Hin : Forall (fun b => 0 <= b) input).
  { unfold input. destruct (negb is_scan_rsp && _); [|exact Hb].
    repeat apply Forall_cons_2; try exact Hb; try (unfold HCI_EIR_FLAGS_TYPE; lia).
    destruct (Inst.timeout_s p =? 0);
      unfold BTM_GENERAL_DISCOVERABLE, BTM_LIMITED_DISCOVERABLE; lia. }
  destruct (fill_tx_power_bytes (Inst.tx_power p) (length input) 0 input Hin)
    as [HF | (sent & HO & Hlen & Hsame)]; [lia | |].
  - left. now rewrite Hrun, Hprep, HF.
  - right. exists sent. rewrite Hrun, Hprep, HO. repeat split; auto.
Qed.

Lemma SetData_on_bytes_witness :
  SetData demo_platform 0 false [2; 0x0A; 0; 200; 0xFF] (UserMultiAdvCb 5)
    demo_configured = Fault OutOfBounds \/
  exists sent,
    SetData demo_platform 0 false [2; 0x0A; 0; 200; 0xFF] (UserMultiAdvCb 5)
      demo_configured
    = DivideAndSendData demo_platform 0 sent (UserMultiAdvCb 5)
        (Bind_SetDataAdvDataSender false) demo_configured /\
    length sent = 8%nat.
Proof.
  destruct (adv_inst demo_configured !! 0%nat) as [p|] eqn:Hp;
    [|vm_compute in Hp; discriminate].
  destruct (SetData_on_bytes demo_platform demo_configured 0 false
              [2; 0x0A; 0; 200; 0xFF] (UserMultiAdvCb 5) p)
    as [HF | (sent & _ & Hrun & Hlen & _)].
  - vm_compute. reflexivity.
  - exact Hp.
  - repeat constructor; lia.
  - now left.
  - right. exists sent. split; [exact Hrun|].
    rewrite Hlen. vm_compute in Hp. injection Hp as <-. reflexivity.
Defined.

(** ** The fragmenter on a failure *)

(** X13: when the controller answers a fragment sent by [DivideAndSendData]
    with a status other than 0 -- the first fragment, one in the middle or
    the last -- the fragmenter sends no further fragment: it runs [done_cb]
    with that status, and no command is left in flight. *)
Theorem DivideAndSendData_failure P m inst_id data done_cb sender tx n s :
  hci_queue m = [] ->
  (n < length (fragments data))%nat ->
  s <> 0 ->
  exists m_n,
    bind (DivideAndSendData P inst_id data done_cb sender)
      (fun _ => steps P (completions n tx)) m = Ok (tt, m_n) /\
    hci_commands (trace m_n)
    = hci_commands (trace m)
      ++ map (fragment_cmd sender inst_id) (take (S n) (fragments data)) /\
    hci_complete P s tx m_n = Run P done_cb s (set_hci_queue [] m_n).
Proof.
  intros Hq Hn Hs. set (fs := fragments data) in *.
  pose (I := fun _ : manager => True).
  assert (Hchain : chain P I (Run P done_cb) done_cb
            (Bind_DivideAndSendDataRecursively false inst_id data
               (Z.of_nat (length (snd (first_fragment data)))) done_cb sender)
            (map (fragment_cmd sender inst_id) (tail fs) ++ [])).
  { apply chain_after_first; [easy| |easy].
    apply chain_end. reflexivity. }
  rewrite app_nil_r in Hchain.
  set (m0 := set_hci_queue
               [(fragment_cmd sender inst_id (first_fragment data),
                 OnStatus (Bind_DivideAndSendDataRecursively false inst_id
                   data (Z.of_nat (length (snd (first_fragment data))))
                   done_cb sender))]
               (set_trace (trace m ++ [E_Hci (fragment_cmd sender inst_id
                                                (first_fragment data))]) m)).
  assert (Hfirst : DivideAndSendData P inst_id data done_cb sender m
                   = Ok (tt, m0)).
  { rewrite DivideAndSendData_first, hci_run. unfold m0. now rewrite Hq. }
  destruct (chain_run P I (Run P done_cb) done_cb ltac:(easy) tx n _ _
              (fragment_cmd sender inst_id (first_fragment data)) m0
              Hchain) as (m_n & Hrun & Hc & _ & _ & c' & k' & Hq' & Hk').
  { rewrite length_map. unfold fs, fragments in Hn |- *. simpl in Hn |- *. lia. }
  { exact Logic.I. }
  { reflexivity. }
  exists m_n. repeat split.
  - unfold bind. now rewrite Hfirst.
  - rewrite Hc. unfold m0. simpl trace. rewrite hci_commands_app.
    rewrite <- app_assoc. f_equal. unfold fs, fragments.
    cbn [take map tail hci_commands flat_map app]. f_equal.
    now rewrite firstn_map.
  - destruct (drop n (map (fragment_cmd sender inst_id) (tail fs)))
      as [|c script] eqn:Hd.
    + eapply chain_finish; eauto.
    + eapply (chain_fail P I (Run P done_cb) done_cb); eauto. easy.
Qed.

Lemma DivideAndSendData_failure_witness :
  exists m1,
    bind (DivideAndSendData demo_platform 0 (repeat 0xAB 600) (UserMultiAdvCb 5)
            (Bind_SetDataAdvDataSender false))
      (fun _ => steps demo_platform (completions 1 0)) demo_registered
    = Ok (tt, m1) /\
    hci_commands (trace m1)
    = hci_commands (trace demo_registered)
      ++ [Hci_SetAdvertisingData 0 FIRST 1 251 (repeat 0xAB 251);
          Hci_SetAdvertisingData 0 INTERMEDIATE 1 251 (repeat 0xAB 251)] /\
    hci_complete demo_platform 0x12 0 m1
    = emit (E_MultiAdvCb 5 0x12) (set_hci_queue [] m1).
Proof.
  apply (DivideAndSendData_failure demo_platform demo_registered 0
           (repeat 0xAB 600) (UserMultiAdvCb 5)
           (Bind_SetDataAdvDataSender false) 0 1 0x12).
  - vm_compute. reflexivity.
  - vm_compute. lia.
  - discriminate.
Defined.

(** ** SetParameters on its own *)

Lemma land_uint8 x mask : 0 <= mask < 256 -> Z.land (uint8 x) mask = Z.land x mask.
Proof.
  intros Hm. unfold uint8. change 256 with (2 ^ 8).
  rewrite <- Z.land_ones by lia. rewrite <- Z.land_assoc. f_equal.
  change (Z.ones 8) with 255.
  rewrite Z.land_comm. change 255 with (Z.ones 8).
  rewrite Z.land_ones by lia. apply Z.mod_small. lia.
Qed.

(** X14: the instance keeps the low byte of the 16-bit
    [advertising_event_properties] of the parameters.  What the code later
    asks of the stored byte is what it would ask of the 16-bit value:
    [is_legacy_connectable] (bits 0 and 4, for the flags of [SetData]) and
    the directed bits 0x0C (for [OnAdvertisingSetTerminated]). *)
Theorem stored_properties_checks params p :
  let q := Inst.set_advertising_event_properties
             (uint8 (params_advertising_event_properties params)) p in
  is_legacy_connectable (Inst.advertising_event_properties q)
  = Z.testbit (params_advertising_event_properties params) 0
    && Z.testbit (params_advertising_event_properties params) 4 /\
  (Z.land (Inst.advertising_event_properties q) 0x0C =? 0)
  = (Z.land (params_advertising_event_properties params) 0x0C =? 0).
Proof.
  cbv zeta. destruct p; cbn [Inst.set_advertising_event_properties
                             Inst.advertising_event_properties].
  set (x := params_advertising_event_properties params).
  unfold is_legacy_connectable. rewrite !land_uint8 by lia. split; [|reflexivity].
  assert (Hbit : forall n, 0 <= n ->
            negb (Z.land x (2 ^ n) =? 0) = Z.testbit x n).
  { intros n Hn. destruct (Z.testbit x n) eqn:Hb.
    - apply negb_true_iff, Z.eqb_neq. intros H0.
      apply (f_equal (fun y => Z.testbit y n)) in H0.
      rewrite Z.land_spec, Hb, Z.pow2_bits_true, Z.bits_0 in H0 by lia.
      discriminate.
    - apply negb_false_iff, Z.eqb_eq. apply Z.bits_inj'. intros k Hk.
      rewrite Z.land_spec, Z.bits_0.
      destruct (Z.eq_dec k n) as [-> | Hne].
      + now rewrite Hb.
      + rewrite Z.pow2_bits_false by lia. apply andb_false_r. }
  rewrite <- (Hbit 0), <- (Hbit 4) by lia.
  change (2 ^ 0) with 1. change (2 ^ 4) with 16.
  now destruct (negb (Z.land x 16 =? 0)), (negb (Z.land x 1 =? 0)).
Qed.

(** X15: [SetParameters] on an instance in use stores the requested
    properties (low byte) and the requested [tx_power] in the instance
    before the command goes out.  The completion hands (status, selected TX
    power) to the callback and does not touch the instance: the requested
    values stay when the controller rejects the command, and the TX power
    the controller selected is not stored. *)
Theorem SetParameters_stores_request P m inst_id params u p s tx :
  hci_queue m = [] ->
  inst_id < inst_count m ->
  adv_inst m !! Z.to_nat inst_id = Some p ->
  Inst.in_use p = true ->
  exists m1 m2,
    step P (Ev_SetParameters inst_id params (UserParametersCb u)) m
    = Ok (tt, m1) /\
    since (trace m) (trace m1) = [E_Hci (SetParameters_cmd p params)] /\
    adv_inst m1 !! Z.to_nat inst_id
    = Some (configured params (params_tx_power params) p) /\
    step P (Ev_HciComplete s tx) m1 = Ok (tt, m2) /\
    since (trace m1) (trace m2) = [E_ParametersCb u s tx] /\
    adv_inst m2 = adv_inst m1 /\ hci_queue m2 = [].
Proof.
  intros Hq Hlt Hp Huse. eexists. eexists.
  split; [apply (SetParameters_issue P m inst_id params _ p Hlt Hp Huse)|].
  cbn [trace set_hci_queue set_trace modify_inst set_adv_inst adv_inst].
  split; [apply since_app|].
  split; [now rewrite list_lookup_alter_eq, Hp|].
  cbn [step]. erewrite hci_complete_head
    by (cbn [hci_queue set_hci_queue]; rewrite Hq; reflexivity).
  cbn [Run_hci_cb Run_ParametersCb]. rewrite emit_run.
  split; [reflexivity|].
  cbn [trace set_hci_queue set_trace modify_inst set_adv_inst adv_inst
       hci_queue].
  split; [apply since_app|]. now split.
Qed.

Lemma SetParameters_stores_request_witness :
  exists m1 m2,
    step demo_platform (Ev_SetParameters 0 demo_params (UserParametersCb 4))
      demo_registered = Ok (tt, m1) /\
    since (trace demo_registered) (trace m1)
    = [E_Hci (SetParameters_cmd (registered demo_platform [] [] (demo_instance 0))
                demo_params)] /\
    adv_inst m1 !! Z.to_nat 0
    = Some (configured demo_params (params_tx_power demo_params)
              (registered demo_platform [] [] (demo_instance 0))) /\
    step demo_platform (Ev_HciComplete 0x12 (-5)) m1 = Ok (tt, m2) /\
    since (trace m1) (trace m2) = [E_ParametersCb 4 0x12 (-5)] /\
    adv_inst m2 = adv_inst m1 /\ hci_queue m2 = [].
Proof.
  apply (SetParameters_stores_request demo_platform demo_registered 0
           demo_params 4 (registered demo_platform [] [] (demo_instance 0))
           0x12 (-5));
    vm_compute; reflexivity.
Defined.

(** ** The end of an advertising set *)

(** X16: when the controller reports the end of a set in use,
    [OnAdvertisingSetTerminated] restarts it with Enable(true, handle, 0, 0)
    unless a directed bit (0x0C) of its properties is set; the completion of
    that command, whatever its status, reaches no callback and changes
    nothing.  A directed set is marked free instead, with no command sent.
    In both cases no alarm is touched (the address timer of a directed set
    stays armed), and [status] and the number of completed events play no
    part.  With privacy on and a handle up to BTM_BLE_MULTI_ADV_MAX the
    address of the connection is set to the own address of the set first. *)
Theorem OnAdvertisingSetTerminated_restart P m status h ch n p s tx :
  hci_queue m = [] ->
  adv_inst m !! Z.to_nat h = Some p ->
  Inst.in_use p = true ->
  let upd :=
    if BLE_PRIVACY_SPT P &&
       (BTM_BleLocalPrivacyEnabled P && (h <=? BTM_BLE_MULTI_ADV_MAX P))
    then [E_btm_acl_update_conn_addr ch (Inst.own_address p)] else [] in
  exists m1,
    step P (Ev_AdvertisingSetTerminated status h ch n) m = Ok (tt, m1) /\
    alarms m1 = alarms m /\
    if Z.land (Inst.advertising_event_properties p) 0x0C =? 0 then
      since (trace m) (trace m1) = upd ++ [E_Hci (Hci_Enable true h 0 0)] /\
      adv_inst m1 = adv_inst m /\
      exists m2,
        step P (Ev_HciComplete s tx) m1 = Ok (tt, m2) /\
        trace m2 = trace m1 /\ adv_inst m2 = adv_inst m /\
        alarms m2 = alarms m /\ hci_queue m2 = []
    else
      since (trace m) (trace m1) = upd /\
      adv_inst m1 = alter (Inst.set_in_use false) (Z.to_nat h) (adv_inst m) /\
      hci_queue m1 = [].
Proof.
  intros Hq Hp Huse upd.
  assert (Hfirst : forall m0 : manager,
    adv_inst m0 = adv_inst m -> alarms m0 = alarms m -> hci_queue m0 = [] ->
    exists m1,
      (do p_inst <- inst_at h;
       if Inst.in_use p_inst then
         if Z.land (Inst.advertising_event_properties p_inst) 0x0C =? 0 then
           hci (Hci_Enable true h 0x00 0x00) (OnStatus DoNothing)
         else update_inst h (Inst.set_in_use false)
       else ret tt) m0 = Ok (tt, m1) /\
      alarms m1 = alarms m /\
      if Z.land (Inst.advertising_event_properties p) 0x0C =? 0 then
        trace m1 = trace m0 ++ [E_Hci (Hci_Enable true h 0 0)] /\
        adv_inst m1 = adv_inst m /\
        exists m2,
          step P (Ev_HciComplete s tx) m1 = Ok (tt, m2) /\
          trace m2 = trace m1 /\ adv_inst m2 = adv_inst m /\
          alarms m2 = alarms m /\ hci_queue m2 = []
      else
        trace m1 = trace m0 /\
        adv_inst m1 = alter (Inst.set_in_use false) (Z.to_nat h) (adv_inst m) /\
        hci_queue m1 = []).
  { intros m0 Ha Hal Hq0.
    assert (Hp0 : adv_inst m0 !! Z.to_nat h = Some p) by (now rewrite Ha).
    unfold bind at 1. rewrite (inst_at_Some _ _ _ Hp0), Huse.
    destruct (Z.land (Inst.advertising_event_properties p) 12 =? 0).
    - rewrite hci_run. eexists. split; [reflexivity|].
      cbn [alarms trace adv_inst set_hci_queue set_trace]. rewrite Hq0.
      repeat split; try assumption.
      eexists. split.
      + cbn [step]. erewrite hci_complete_head by reflexivity. reflexivity.
      + cbn [alarms trace adv_inst hci_queue set_hci_queue set_trace].
        now repeat split.
    - rewrite (update_inst_modify _ _ _ _ Hp0). eexists. split; [reflexivity|].
      unfold modify_inst.
      cbn [alarms trace adv_inst hci_queue set_adv_inst]. rewrite Ha.
      now repeat split. }
  cbn [step]. unfold OnAdvertisingSetTerminated, upd.
  destruct (BLE_PRIVACY_SPT P); cbn [andb].
  - destruct (BTM_BleLocalPrivacyEnabled P && (h <=? BTM_BLE_MULTI_ADV_MAX P)).
    + unfold bind at 1. unfold bind at 1.
      rewrite (inst_at_Some _ _ _ Hp), emit_run.
      destruct (Hfirst (set_trace (trace m ++ [E_btm_acl_update_conn_addr ch
                                                 (Inst.own_address p)]) m))
        as (m1 & Hrun & Hal & Hrest); try reflexivity; [exact Hq|].
      exists m1. split; [exact Hrun|]. split; [exact Hal|].
      cbn [trace set_trace] in Hrest.
      destruct (Z.land (Inst.advertising_event_properties p) 12 =? 0).
      * destruct Hrest as (Ht & Hrest). split; [|exact Hrest].
        rewrite Ht, <- app_assoc. apply since_app.
      * destruct Hrest as (Ht & Hrest). split; [|exact Hrest].
        rewrite Ht. apply since_app.
    + unfold bind at 1. unfold ret at 1.
      destruct (Hfirst m) as (m1 & Hrun & Hal & Hrest); try reflexivity;
        [exact Hq|].
      exists m1. split; [exact Hrun|]. split; [exact Hal|].
      destruct (Z.land (Inst.advertising_event_properties p) 12 =? 0).
      * destruct Hrest as (Ht & Hrest). split; [|exact Hrest].
        rewrite Ht. apply since_app.
      * destruct Hrest as (Ht & Hrest). split; [|exact Hrest].
        rewrite Ht. unfold since. now rewrite drop_all.
  - unfold bind at 1. unfold ret at 1.
    destruct (Hfirst m) as (m1 & Hrun & Hal & Hrest); try reflexivity;
      [exact Hq|].
    exists m1. split; [exact Hrun|]. split; [exact Hal|].
    destruct (Z.land (Inst.advertising_event_properties p) 12 =? 0).
    * destruct Hrest as (Ht & Hrest). split; [|exact Hrest].
      rewrite Ht. apply since_app.
    * destruct Hrest as (Ht & Hrest). split; [|exact Hrest].
      rewrite Ht. unfold since. now rewrite drop_all.
Qed.

Lemma OnAdvertisingSetTerminated_restart_witness :
  exists m1,
    step demo_platform (Ev_AdvertisingSetTerminated 0 0 0x40 0) demo_configured
    = Ok (tt, m1) /\
    alarms m1 = alarms demo_configured /\
    since (trace demo_configured) (trace m1)
    = [E_Hci (Hci_Enable true 0 0 0)] /\
    adv_inst m1 = adv_inst demo_configured /\
    exists m2,
      step demo_platform (Ev_HciComplete 0x12 0) m1 = Ok (tt, m2) /\
      trace m2 = trace m1 /\ adv_inst m2 = adv_inst demo_configured /\
      alarms m2 = alarms demo_configured /\ hci_queue m2 = [].
Proof.
  apply (OnAdvertisingSetTerminated_restart demo_platform demo_configured
           0 0 0x40 0
           (configured demo_params (params_tx_power demo_params)
              (registered demo_platform [] [] (demo_instance 0)))
           0x12 0);
    vm_compute; reflexivity.
Defined.

(** ** Starting on an instance that cannot be used *)

(** X17: [StartAdvertising] with an [advertiser_id] outside the table does
    nothing at all: no command, and the callback never runs; so does
    [Unregister].  On an instance that is not in use, [StartAdvertising]
    sends nothing and runs the callback with BTM_BLE_MULTI_ADV_FAILURE.
    [StartAdvertisingSet] on a table with no free instance sends nothing and
    runs the callback with (0, 0, ADVERTISE_FAILED_TOO_MANY_ADVERTISERS). *)
Theorem start_calls_rejected P m :
  BTM_BLE_MULTI_ADV_FAILURE P <> 0 ->
  ADVERTISE_FAILED_TOO_MANY_ADVERTISERS P <> 0 ->
  (forall inst_id cb params adv scan timeout_s timeout_cb,
     inst_count m <= inst_id ->
     step P (Ev_StartAdvertising inst_id cb params adv scan timeout_s
               timeout_cb) m = Ok (tt, m) /\
     step P (Ev_Unregister inst_id) m = Ok (tt, m)) /\
  (forall inst_id u params adv scan timeout_s timeout_cb p,
     inst_id < inst_count m ->
     adv_inst m !! Z.to_nat inst_id = Some p -> Inst.in_use p = false ->
     step P (Ev_StartAdvertising inst_id (UserMultiAdvCb u) params adv scan
               timeout_s timeout_cb) m
     = Ok (tt, set_trace (trace m ++
                 [E_MultiAdvCb u (BTM_BLE_MULTI_ADV_FAILURE P)]) m)) /\
  (forall u params adv scan periodic_params periodic_data timeout_s timeout_cb,
     table_sized m -> first_free (adv_inst m) = None ->
     step P (Ev_StartAdvertisingSet (UserIdTxPowerStatusCb u) params adv scan
               periodic_params periodic_data timeout_s timeout_cb) m
     = Ok (tt, set_trace (trace m ++
                 [E_IdTxPowerStatusCb u 0 0
                    (ADVERTISE_FAILED_TOO_MANY_ADVERTISERS P)]) m)).
Proof.
  intros Hfail Hmany. split; [|split].
  - intros inst_id cb params adv scan timeout_s timeout_cb Hge.
    cbn [step]. unfold StartAdvertising, SetParameters, Unregister,
      addr_of_inst. monad.
    cbn [sa_inst_id]. now rewrite (geb_true _ _ Hge).
  - intros inst_id u params adv scan timeout_s timeout_cb p Hlt Hp Hfree.
    cbn [step]. unfold StartAdvertising, SetParameters. mstep.
    cbn [sa_inst_id].
    rewrite (geb_false _ _ Hlt), (inst_at_Some _ _ _ Hp), Hfree. cbn [negb].
    cbn [Run_ParametersCb]. unfold StartAdvertising_parameters_cb.
    apply Z.eqb_neq in Hfail. rewrite Hfail. reflexivity.
  - intros u params adv scan periodic_params periodic_data timeout_s
      timeout_cb Hs Hfull.
    cbn [step]. unfold StartAdvertisingSet.
    rewrite RegisterAdvertiser_spec by (unfold table_sized in Hs; (assumption || lia)).
    rewrite Hfull. cbn [Run_RegisterAdvertiserCb].
    unfold StartAdvertisingSet_register_cb.
    apply Z.eqb_neq in Hmany. rewrite Hmany. reflexivity.
Qed.

Lemma start_calls_rejected_witness :
  step demo_platform
    (Ev_StartAdvertising 5 (UserMultiAdvCb 1) demo_params [] [] 0 DoNothing)
    demo_two_free = Ok (tt, demo_two_free) /\
  step demo_platform
    (Ev_StartAdvertising 1 (UserMultiAdvCb 1) demo_params [] [] 0 DoNothing)
    demo_two_free
  = Ok (tt, set_trace (trace demo_two_free ++ [E_MultiAdvCb 1 1])
              demo_two_free).
Proof.
  destruct (start_calls_rejected demo_platform demo_two_free)
    as (Hout & Hfree & _); [vm_compute; lia | vm_compute; lia |].
  split.
  - apply Hout. vm_compute. discriminate.
  - apply (Hfree 1 1%nat demo_params [] [] 0 DoNothing (demo_instance 1));
      vm_compute; reflexivity.
Defined.

(** ** Destruction of the manager *)

Lemma free_all_app a b m :
  free_all (a ++ b) m = bind (free_all a) (fun _ => free_all b) m.
Proof.
  revert m. induction a as [|t a IH]; intros m; [reflexivity|].
  cbn [app free_all]. unfold bind.
  destruct (alarm_free t m) as [[[] m1]|]; [|reflexivity].
  rewrite IH. reflexivity.
Qed.

Lemma destroy_instances_free_all l m :
  destroy_instances l m = free_all (flat_map timers_of l) m.
Proof.
  revert m. induction l as [|p l IH]; intros m; [reflexivity|].
  cbn [destroy_instances flat_map]. rewrite free_all_app.
  unfold AdvertisingInstance_delete, timers_of. cbn [free_all]. unfold bind.
  destruct (alarm_free (Inst.adv_raddr_timer p) m) as [[[] m1]|];
    [|reflexivity].
  destruct (Inst.timeout_timer p) as [t|]; cbn [free_all]; unfold bind, ret.
  - destruct (alarm_free t m1) as [[[] m2]|]; [apply IH|reflexivity].
  - apply IH.
Qed.

Lemma alarm_free_inv a m m' :
  alarm_free a m = Ok (tt, m') ->
  alive m a = true /\
  m' = set_trace (trace m ++ [E_alarm_free a])
         (set_alarms (<[a := None]> (alarms m)) m).
Proof.
  intros H. destruct (alive m a) eqn:Ha.
  - apply alive_Some in Ha as [al Hal].
    rewrite (alarm_free_run _ _ _ Hal) in H. injection H as <-. now split.
  - exfalso. unfold alarm_free, with_alarm, bind, alive in *.
    change alarm_ptr with nat in *.
    destruct (alarms m !! a) as [[al|]|]; discriminate.
Qed.

Lemma alive_freed m tr t a :
  (t < length (alarms m))%nat ->
  alive (set_trace tr (set_alarms (<[t := None]> (alarms m)) m)) a
  = negb (a =? t)%nat && alive m a.
Proof.
  intros Hlt. unfold alive. cbn [alarms set_trace set_alarms].
  change alarm_ptr with nat in *.
  destruct (Nat.eqb_spec a t) as [-> | Hne].
  - now rewrite list_lookup_insert_eq.
  - now rewrite list_lookup_insert_ne by congruence.
Qed.

(** Freeing the alarms of a list succeeds exactly when they are live and
    no alarm is listed twice. *)
Lemma free_all_spec ts : forall m,
  NoDup ts -> Forall (fun t => alive m t = true) ts ->
  exists m',
    free_all ts m = Ok (tt, m') /\
    trace m' = trace m ++ map E_alarm_free ts /\
    adv_inst m' = adv_inst m /\ inst_count m' = inst_count m /\
    hci_queue m' = hci_queue m /\ rpa_queue m' = rpa_queue m /\
    length (alarms m') = length (alarms m) /\
    (forall a, In a ts -> alarms m' !! a = Some None) /\
    (forall a, ~ In a ts -> alarms m' !! a = alarms m !! a).
Proof.
  induction ts as [|t ts IH]; intros m Hnd Hal.
  - exists m. cbn [free_all map]. rewrite app_nil_r.
    repeat split; try reflexivity. intros a [].
  - apply NoDup_cons in Hnd as [Hnin Hnd].
    apply Forall_cons in Hal as [Ht Hal].
    pose proof Ht as Ht'. apply alive_Some in Ht' as [al Hlk].
    set (m1 := set_trace (trace m ++ [E_alarm_free t])
                 (set_alarms (<[t := None]> (alarms m)) m)).
    assert (Hal1 : Forall (fun t' => alive m1 t' = true) ts).
    { rewrite Forall_forall in Hal |- *. intros t' Hin.
      unfold m1. rewrite alive_freed by (eapply lookup_lt_Some; exact Hlk).
      destruct (Nat.eqb_spec t' t) as [-> | Hne]; [contradiction|].
      now apply Hal. }
    destruct (IH m1 Hnd Hal1)
      as (m' & Hrun & Htr & Hai & Hic & Hq & Hr & Hlen & Hin & Hout).
    exists m'. cbn [free_all]. unfold bind.
    rewrite (alarm_free_run _ _ _ Hlk). fold m1.
    split; [exact Hrun|]. split.
    { rewrite Htr. unfold m1. cbn [trace set_trace map].
      now rewrite <- app_assoc. }
    repeat split; try assumption.
    + rewrite Hlen. unfold m1. cbn [alarms set_trace set_alarms].
      apply length_insert.
    + intros a [<- | Ha]; [|now apply Hin].
      rewrite Hout by (now rewrite <- list_elem_of_In).
      unfold m1. cbn [alarms set_trace set_alarms].
      apply list_lookup_insert_eq. eapply lookup_lt_Some. exact Hlk.
    + intros a Ha. rewrite Hout by (intros H; apply Ha; now right).
      unfold m1. cbn [alarms set_trace set_alarms].
      apply list_lookup_insert_ne. intros ->. apply Ha. now left.
Qed.

Lemma free_all_inv ts : forall m m',
  free_all ts m = Ok (tt, m') ->
  NoDup ts /\ Forall (fun t => alive m t = true) ts.
Proof.
  induction ts as [|t ts IH]; intros m m' H.
  - split; constructor.
  - cbn [free_all] in H. unfold bind in H.
    destruct (alarm_free t m) as [[[] m1]|] eqn:H1; [|discriminate].
    apply alarm_free_inv in H1 as [Ht ->].
    pose proof Ht as Ht'. apply alive_Some in Ht' as [al Hlk].
    apply IH in H as [Hnd Hal].
    assert (Hboth : Forall (fun t' => t' <> t /\ alive m t' = true) ts).
    { rewrite Forall_forall in Hal |- *. intros t' Hin.
      specialize (Hal t' Hin).
      rewrite alive_freed in Hal by (eapply lookup_lt_Some; exact Hlk).
      apply andb_true_iff in Hal as [Hne Hal].
      apply negb_true_iff, Nat.eqb_neq in Hne. now split. }
    split.
    + apply NoDup_cons. split; [|exact Hnd].
      intros Hin. rewrite Forall_forall in Hboth.
      now destruct (Hboth t Hin).
    + apply Forall_cons. split; [exact Ht|].
      eapply Forall_impl; [exact Hboth|]. now intros t' [_ H'].
Qed.

Lemma forallb_alive m ts :
  forallb (alive m) ts = true <-> Forall (fun t => alive m t = true) ts.
Proof.
  induction ts as [|t ts IH]; simpl.
  - split; [constructor|reflexivity].
  - rewrite andb_true_iff, Forall_cons, IH. reflexivity.
Qed.

(** X18: the destructor of the manager (run by [CleanUp]) destroys the
    instances, each of which frees its address timer and, if it has one, its
    timeout timer.  Whatever the order in which the instances are
    destroyed, this goes without a double free or the free of a dead alarm
    exactly when the timer handles of the table are live and no two of them
    are the same alarm.  On a sound manager it therefore succeeds: every
    timer of the table is freed once, the table is empty, and an alarm no
    instance holds is left as it was, allocated if it was. *)
Theorem delete_frees_each_timer_once m order :
  order ≡ₚ adv_inst m ->
  ((exists m', BleAdvertisingManagerImpl_delete order m = Ok (tt, m')) <->
   distinct (timers m) = true /\ forallb (alive m) (timers m) = true) /\
  (sound m = true ->
   exists m',
     BleAdvertisingManagerImpl_delete order m = Ok (tt, m') /\
     adv_inst m' = [] /\
     since (trace m) (trace m') = map E_alarm_free (flat_map timers_of order) /\
     (forall t, In t (timers m) -> alarms m' !! t = Some None) /\
     (forall a, ~ In a (timers m) -> alarms m' !! a = alarms m !! a)).
Proof.
  intros Hperm.
  assert (Hts : flat_map timers_of order ≡ₚ timers m)
    by (unfold timers; now apply Permutation_flat_map).
  assert (Hrun : forall m1,
            free_all (flat_map timers_of order) m = Ok (tt, m1) ->
            BleAdvertisingManagerImpl_delete order m
            = Ok (tt, set_adv_inst [] m1)).
  { intros m1 H. unfold BleAdvertisingManagerImpl_delete, bind.
    now rewrite destroy_instances_free_all, H. }
  assert (Hok : distinct (timers m) = true ->
                forallb (alive m) (timers m) = true ->
                exists m1,
                  free_all (flat_map timers_of order) m = Ok (tt, m1) /\
                  trace m1 = trace m
                             ++ map E_alarm_free (flat_map timers_of order) /\
                  (forall t, In t (timers m) -> alarms m1 !! t = Some None) /\
                  (forall a, ~ In a (timers m) ->
                             alarms m1 !! a = alarms m !! a)).
  { intros Hd Ha. apply distinct_NoDup in Hd. apply forallb_alive in Ha.
    rewrite <- Hts in Hd, Ha.
    destruct (free_all_spec _ m Hd Ha)
      as (m1 & H1 & Htr & _ & _ & _ & _ & _ & Hin & Hout).
    exists m1. repeat split; try assumption.
    - intros t Ht. apply Hin. eapply Permutation_in; [symmetry|]; eassumption.
    - intros a Hna. apply Hout. intros Hin'. apply Hna.
      eapply Permutation_in; eassumption. }
  split; [split|].
  - intros [m' H]. unfold BleAdvertisingManagerImpl_delete, bind in H.
    rewrite destroy_instances_free_all in H.
    destruct (free_all (flat_map timers_of order) m) as [[[] m1]|] eqn:H1;
      [|discriminate].
    apply free_all_inv in H1 as [Hd Ha]. rewrite Hts in Hd, Ha.
    split; [now apply distinct_NoDup | now apply forallb_alive].
  - intros [Hd Ha]. destruct (Hok Hd Ha) as (m1 & H1 & _).
    exists (set_adv_inst [] m1). apply Hrun, H1.
  - intros Hs. pose proof (sound_Inv _ Hs) as HI.
    assert (Hd : distinct (timers m) = true)
      by (apply distinct_NoDup, (inv_nodup _ _ HI)).
    assert (Ha : forallb (alive m) (timers m) = true).
    { apply forallb_alive, Forall_forall. intros t Ht.
      apply (inv_alive _ _ HI). now apply list_elem_of_In. }
    destruct (Hok Hd Ha) as (m1 & H1 & Htr & Hin & Hout).
    exists (set_adv_inst [] m1). split; [now apply Hrun|].
    cbn [adv_inst trace alarms set_adv_inst]. rewrite Htr.
    repeat split; try assumption. apply since_app.
Qed.

Lemma delete_frees_each_timer_once_witness :
  exists m',
    BleAdvertisingManagerImpl_delete (adv_inst demo_timed) demo_timed
    = Ok (tt, m') /\
    adv_inst m' = [] /\
    since (trace demo_timed) (trace m')
    = map E_alarm_free (flat_map timers_of (adv_inst demo_timed)) /\
    (forall t, In t (timers demo_timed) -> alarms m' !! t = Some None) /\
    (forall a, ~ In a (timers demo_timed) ->
               alarms m' !! a = alarms demo_timed !! a).
Proof.
  apply (delete_frees_each_timer_once demo_timed (adv_inst demo_timed)).
  - reflexivity.
  - vm_compute. reflexivity.
Defined.

(** ** A second answer to ReadInstanceCount *)

Lemma free_all_capacity ts : forall m m',
  free_all ts m = Ok (tt, m') ->
  adv_inst_capacity m' = adv_inst_capacity m.
Proof.
  induction ts as [|t ts IH]; intros m m' H.
  - cbn [free_all] in H. unfold ret in H. now injection H as <-.
  - cbn [free_all] in H. unfold bind in H.
    destruct (alarm_free t m) as [[[] m1]|] eqn:H1; [|discriminate].
    apply alarm_free_inv in H1 as [_ ->]. now rewrite (IH _ _ H).
Qed.

(** The move of a full table of a sound manager to a larger storage: every
    timer of the table is freed, and the table keeps the handles. *)
Lemma vector_reallocate_sound m c :
  NoDup (timers m) ->
  (forall t, In t (timers m) -> alive m t = true) ->
  exists m',
    vector_reallocate c m = Ok (tt, m') /\
    adv_inst m' = adv_inst m /\ adv_inst_capacity m' = c /\
    inst_count m' = inst_count m /\
    length (alarms m') = length (alarms m) /\
    (forall t, In t (timers m) -> alarms m' !! t = Some None) /\
    (forall a, ~ In a (timers m) -> alarms m' !! a = alarms m !! a).
Proof.
  intros Hnd Hal.
  assert (Hts : flat_map timers_of (rev (adv_inst m)) ≡ₚ timers m).
  { unfold timers. apply Permutation_flat_map. symmetry.
    apply Permutation_rev. }
  assert (Hnd' : NoDup (flat_map timers_of (rev (adv_inst m))))
    by (now rewrite Hts).
  assert (Hal' : Forall (fun t => alive m t = true)
                   (flat_map timers_of (rev (adv_inst m)))).
  { apply Forall_forall. intros t Ht. apply Hal.
    apply list_elem_of_In in Ht. eapply Permutation_in; eassumption. }
  destruct (free_all_spec _ m Hnd' Hal')
    as (m1 & H1 & _ & Hai & Hic & _ & _ & Hlen & Hin & Hout).
  pose proof (free_all_capacity _ _ _ H1) as Hcap.
  exists (set_adv_inst_capacity c m1).
  unfold vector_reallocate. mstep.
  rewrite destroy_instances_free_all, H1. unfold modify.
  cbn [adv_inst adv_inst_capacity inst_count alarms set_adv_inst_capacity].
  repeat split; try assumption.
  - intros t Ht. apply Hin. eapply Permutation_in; [symmetry|]; eassumption.
  - intros a Ha. apply Hout. intros Hin'. apply Ha.
    eapply Permutation_in; eassumption.
Qed.

(** X19: were the controller to answer [ReadInstanceCount] a second time,
    with a count [k] between 1 and the size [n] of a table that fills its
    storage, [ReadInstanceCountCb] would append [k] new instances to the
    [n] old ones and set [inst_count] to [k].  The first [emplace_back]
    moves the table to a larger storage: the old instances are copied with
    their alarm pointers and then destroyed, so every timer of the table
    is freed while the table still holds its handle.  The manager is no
    longer well formed. *)
Theorem ReadInstanceCountCb_again m k :
  sound m = true ->
  adv_inst_capacity m = length (adv_inst m) ->
  0 < k <= inst_count m ->
  exists m',
    ReadInstanceCountCb k m = Ok (tt, m') /\
    inst_count m' = k /\
    adv_inst m'
    = adv_inst m
      ++ map (fun j => new_instance (Z.of_nat j) (length (alarms m) + j)%nat)
           (seq 0 (Z.to_nat k)) /\
    (forall t, In t (timers m) -> alarms m' !! t = Some None) /\
    wf m' = false.
Proof.
  intros Hs Hcap Hk. pose proof (sound_Inv _ Hs) as HI.
  pose proof (inv_sized _ _ HI) as Hsz. unfold table_sized in Hsz.
  set (n := length (adv_inst m)) in *. set (L := length (alarms m)).
  destruct (Z.to_nat k) as [|k'] eqn:Hk'; [lia|].
  set (m1 := set_trace (trace m ++ [E_alarm_new L])
               (set_alarms (alarms m ++ [idle_periodic])
                  (set_inst_count k m))).
  assert (Hal1 : forall t, In t (timers m1) -> alive m1 t = true).
  { intros t Ht. unfold m1. apply alive_Some.
    cbn [alarms set_trace set_alarms set_inst_count].
    change (timers m1) with (timers m) in Ht.
    apply (inv_alive _ _ HI), alive_Some in Ht as [al Hal].
    exists al. rewrite lookup_app_l by (eapply lookup_lt_Some; exact Hal).
    exact Hal. }
  destruct (vector_reallocate_sound m1 (Nat.max 1 (2 * n)) (inv_nodup _ _ HI)
              Hal1)
    as (m2 & H2 & Hai2 & Hcap2 & Hic2 & Hlen2 & Hin2 & _).
  set (m3 := set_adv_inst (adv_inst m2 ++ [new_instance 0 L]) m2).
  assert (Hfirst : vector_emplace_back 0 (set_inst_count k m) = Ok (tt, m3)).
  { unfold vector_emplace_back, AdvertisingInstance_new, alarm_new_periodic,
      alarm_new_with. monad. unfold modify. cbv beta iota.
    cbn [adv_inst adv_inst_capacity alarms trace set_inst_count set_alarms
         set_trace].
    fold n L. rewrite Hcap, Nat.ltb_irrefl.
    change (vector_reallocate ?c _) with (vector_reallocate c m1).
    rewrite H2. reflexivity. }
  assert (Hrest : (length (adv_inst m3) + k' <= adv_inst_capacity m3)%nat).
  { unfold m3. cbn [adv_inst adv_inst_capacity set_adv_inst].
    rewrite length_app, Hai2, Hcap2. cbn [length]. unfold m1.
    cbn [adv_inst set_trace set_alarms set_inst_count]. fold n. lia. }
  eexists. split.
  { unfold ReadInstanceCountCb, vector_reserve. monad. unfold modify.
    cbn [adv_inst_capacity set_inst_count]. rewrite Hcap. fold n.
    replace (n <? Z.to_nat k)%nat with false
      by (symmetry; apply Nat.ltb_ge; lia).
    rewrite Hk'. cbn [emplace_instances]. unfold bind at 1.
    rewrite Hfirst. apply (emplace_instances_run k' (0 + 1) m3 Hrest). }
  cbn [inst_count adv_inst alarms set_adv_inst set_trace set_alarms].
  unfold m3. cbn [inst_count adv_inst alarms set_adv_inst].
  rewrite Hic2, Hai2, Hlen2. unfold m1.
  cbn [inst_count adv_inst alarms set_trace set_alarms set_inst_count].
  rewrite length_app. cbn [length]. fold L.
  assert (Htable :
    (adv_inst m ++ [new_instance 0 L])
    ++ map (fun j => new_instance (0 + 1 + Z.of_nat j) (L + 1 + j)%nat)
         (seq 0 k')
    = adv_inst m
      ++ map (fun j => new_instance (Z.of_nat j) (L + j)%nat) (seq 0 (S k'))).
  { rewrite <- app_assoc. f_equal. cbn [seq map app].
    rewrite Nat.add_0_r. f_equal.
    rewrite <- seq_shift, map_map. apply map_ext. intros j.
    f_equal; lia. }
  split; [reflexivity|]. split; [exact Htable|]. split.
  - intros t Ht. pose proof (Hin2 t Ht) as Hnone.
    rewrite lookup_app_l by (eapply lookup_lt_Some; exact Hnone).
    exact Hnone.
  - unfold wf. rewrite Htable.
    cbn [inst_count adv_inst set_adv_inst set_trace set_alarms].
    rewrite Hic2. unfold m1. cbn [inst_count set_trace set_alarms set_inst_count].
    replace (k =? Z.of_nat (length (adv_inst m ++ map
               (fun j => new_instance (Z.of_nat j) (L + j)%nat)
               (seq 0 (S k'))))) with false; [reflexivity|].
    symmetry. apply Z.eqb_neq. rewrite length_app, length_map, length_seq.
    fold n. lia.
Qed.

Lemma ReadInstanceCountCb_again_witness :
  exists m',
    ReadInstanceCountCb 2 demo_two_free = Ok (tt, m') /\
    inst_count m' = 2 /\
    adv_inst m'
    = adv_inst demo_two_free
      ++ map (fun j => new_instance (Z.of_nat j)
                         (length (alarms demo_two_free) + j)%nat)
           (seq 0 (Z.to_nat 2)) /\
    (forall t, In t (timers demo_two_free) -> alarms m' !! t = Some None) /\
    wf m' = false.
Proof.
  apply (ReadInstanceCountCb_again demo_two_free 2).
  - vm_compute. reflexivity.
  - reflexivity.
  - vm_compute. split; [reflexivity | discriminate].
Defined.
